(** * RocksDB write coordination (db/write_thread.cc) and the NVM
      environment (nvm/env_nvm.cc): a shallow embedding and its properties.

    Writers and NVM files are C++ objects reached through pointers, so the
    model keeps an explicit store ([gmap] from addresses to objects) next to
    the containers of pointers ([std::deque<Writer*>],
    [std::map<std::string, std::vector<NvmFile*>>]).  Assertions and invalid
    accesses (a dangling or null pointer, [front()] of an empty deque, signed
    overflow) make a run fail: the functions live in a state-and-failure
    monad. *)

From stdpp Require Import base option list gmap strings.
From Stdlib Require Import ZArith Lia Ascii.

(** ** Status codes shared by both components *)

Inductive Status : Type :=
| OK
| NotFound
| IOError
| TimedOut.

Global Instance Status_eq_dec : EqDecision Status.
Proof. solve_decision. Defined.

Definition ok (s : Status) : bool :=
  match s with OK => true | _ => false end.

(** ** A state monad with failure *)

Section Monad.
Context {S : Type}.

Definition M (A : Type) : Type := S → option (A * S).

Definition ret {A} (a : A) : M A := λ s, Some (a, s).

Definition bind {A B} (m : M A) (k : A → M B) : M B :=
  λ s, match m s with
       | Some (a, s') => k a s'
       | None => None
       end.

Definition fail {A} : M A := λ _, None.

Definition gets {A} (f : S → A) : M A := λ s, Some (f s, s).

Definition modify (f : S → S) : M unit := λ s, Some (tt, f s).

(** [assert(c)] of a debug build: the run stops when [c] is false. *)
Definition assert (c : bool) : M unit :=
  if c then ret tt else fail.

(** Reading through [option]: [None] is an invalid access. *)
Definition lift {A} (o : option A) : M A :=
  match o with Some a => ret a | None => fail end.
End Monad.

Arguments M : clear implicits.

Declare Scope monad_scope.
Delimit Scope monad_scope with monad.
Notation "x <- m ;; k" := (bind m (λ x, k))
  (at level 100, m at next level, right associativity) : monad_scope.

(** ** db/write_thread.cc *)

Module WriteThread.

Local Open Scope Z_scope.
Local Open Scope monad_scope.

(** [Writer*]: an address in the store of writers. *)
Definition ptr : Type := nat.

(** What the write thread uses of a [WriteBatch]:
    [WriteBatchInternal::ByteSize] (a [size_t]) and [Count()] (an [int]). *)
Record WriteBatch : Type := mkBatch {
  ByteSize : Z;
  Count : Z
}.

Global Instance WriteBatch_eq_dec : EqDecision WriteBatch.
Proof. solve_decision. Defined.

(** [struct WriteThread::Writer].  [batch] is a [WriteBatch*], [None] the
    null pointer. *)
Record Writer : Type := mkWriter {
  status : Status;
  batch : option WriteBatch;
  sync : bool;
  disableWAL : bool;
  in_batch_group : bool;
  done : bool;
  has_callback : bool;
  timeout_hint_us : Z;
  parallel_execute_id : Z
}.

Definition set_in_batch_group (b : bool) (w : Writer) : Writer :=
  mkWriter (status w) (batch w) (sync w) (disableWAL w) b (done w)
           (has_callback w) (timeout_hint_us w) (parallel_execute_id w).

Definition set_parallel_execute_id (i : Z) (w : Writer) : Writer :=
  mkWriter (status w) (batch w) (sync w) (disableWAL w) (in_batch_group w)
           (done w) (has_callback w) (timeout_hint_us w) i.

Definition set_status (st : Status) (w : Writer) : Writer :=
  mkWriter st (batch w) (sync w) (disableWAL w) (in_batch_group w)
           (done w) (has_callback w) (timeout_hint_us w)
           (parallel_execute_id w).

Definition set_done (b : bool) (w : Writer) : Writer :=
  mkWriter (status w) (batch w) (sync w) (disableWAL w) (in_batch_group w)
           b (has_callback w) (timeout_hint_us w) (parallel_execute_id w).

(** The object [WriteThread] together with the memory its pointers refer to.
    [cv_signals] records every [cv.Signal()], the most recent first. *)
Record state : Type := mkState {
  writers_ : list ptr;
  parallel_writers_ : list ptr;
  unfinished_threads_ : Z;
  mem : gmap ptr Writer;
  cv_signals : list ptr
}.

Definition with_writers (ws : list ptr) (s : state) : state :=
  mkState ws (parallel_writers_ s) (unfinished_threads_ s) (mem s)
          (cv_signals s).

Definition with_parallel_writers (ps : list ptr) (s : state) : state :=
  mkState (writers_ s) ps (unfinished_threads_ s) (mem s) (cv_signals s).

Definition with_unfinished (n : Z) (s : state) : state :=
  mkState (writers_ s) (parallel_writers_ s) n (mem s) (cv_signals s).

Definition with_mem (m : gmap ptr Writer) (s : state) : state :=
  mkState (writers_ s) (parallel_writers_ s) (unfinished_threads_ s) m
          (cv_signals s).

Definition with_signal (p : ptr) (s : state) : state :=
  mkState (writers_ s) (parallel_writers_ s) (unfinished_threads_ s) (mem s)
          (p :: cv_signals s).

(** Reading the object at [p]. *)
Definition deref (p : ptr) : M state Writer :=
  λ s, lift (mem s !! p) s.

(** Writing [f] of the object at [p] back to [p]. *)
Definition update (p : ptr) (f : Writer → Writer) : M state unit :=
  w <- deref p ;; modify (λ s, with_mem (<[p := f w]> (mem s)) s).

(** [p->cv.Signal()] *)
Definition Signal (p : ptr) : M state unit :=
  _ <- deref p ;; modify (with_signal p).

(** [writers_.front()] *)
Definition front : M state ptr :=
  λ s, lift (head (writers_ s)) s.

(** Unsigned 64-bit and 32-bit arithmetic wraps around. *)
Definition wrap64 (z : Z) : Z := z mod 2 ^ 64.
Definition wrap32 (z : Z) : Z := z mod 2 ^ 32.

(** [INT_MAX]; overflow of the [int] parallel_id is undefined behaviour. *)
Definition INT_MAX : Z := 2 ^ 31 - 1.

(** *** BuildBatchGroup *)

(** [max_size] of lines 201-204. *)
Definition max_size_of (size : Z) : Z :=
  if size <=? Z.shiftl 128 10 then wrap64 (size + Z.shiftl 128 10)
  else Z.shiftl 1 20.

(** The [for] loop of lines 214-256 from the iterator position [iter]; the
    three accumulators are [size], [*last_writer] and [*write_batch_group]. *)
Fixpoint scan (first : ptr) (max_size : Z) (iter : list ptr)
         (size : Z) (last_writer : ptr) (group : list WriteBatch)
  : M state (Z * ptr * list WriteBatch) :=
  match iter with
  | [] => ret (size, last_writer, group)
  | wp :: iter' =>
    w <- deref wp ;;
    f <- deref first ;;
    if sync w && negb (sync f) then ret (size, last_writer, group)
    else if negb (disableWAL w) && disableWAL f
         then ret (size, last_writer, group)
    else if timeout_hint_us w <? timeout_hint_us f
         then ret (size, last_writer, group)
    else if has_callback w then ret (size, last_writer, group)
    else match batch w with
         | None => ret (size, last_writer, group)
         | Some b =>
           let size := wrap64 (size + ByteSize b) in
           if max_size <? size then ret (size, last_writer, group)
           else
             _ <- update wp (set_in_batch_group true) ;;
             scan first max_size iter' size wp (group ++ [b])
         end
  end.

(** [write_batch_group] is the vector the caller passes in; the function
    returns [size] and the two out-parameters. *)
Definition BuildBatchGroup (write_batch_group : list WriteBatch)
  : M state (Z * ptr * list WriteBatch) :=
  ws <- gets writers_ ;;
  _ <- assert (negb (bool_decide (ws = []))) ;;
  first <- front ;;
  fw <- deref first ;;
  _ <- assert (bool_decide (is_Some (batch fw))) ;;
  fb <- lift (batch fw) ;;
  let size := ByteSize fb in
  let group := write_batch_group ++ [fb] in
  let max_size := max_size_of size in
  if has_callback fw then ret (size, first, group)
  else scan first max_size (tail ws) size first group.

(** *** EnterWriteThread *)

(** What the calling thread sees of one return from [cv.Wait()] or
    [cv.TimedWait(expiration_time)]: the wait releases the mutex, so the other
    threads have changed the shared state ([interference]) by the time the
    call returns; [expired] is the result of [TimedWait] (true when the
    deadline passed), which [Wait] does not have. *)
Record wake : Type := mkWake {
  expired : bool;
  interference : state → state
}.

(** A run of a blocking function against a finite list of wake-ups. *)
Inductive outcome (A : Type) : Type :=
| Returns (a : A) (s : state)
| Blocked            (* still inside a wait when the wake-ups are used up *)
| Fault.             (* failed assertion or invalid access *)
Arguments Returns {A} a s.
Arguments Blocked {A}.
Arguments Fault {A}.

(** The loop condition of line 20. *)
Definition still_waiting (w : ptr) : M state bool :=
  wr <- deref w ;;
  if negb (done wr) && (parallel_execute_id wr <=? 0) then
    f <- front ;;
    ret (negb (bool_decide (w = f)))
  else ret false.

(** The [while] loop of lines 20-34; the result is [timed_out]. *)
Fixpoint wait_loop (w : ptr) (expiration_time : Z) (wakes : list wake)
         (s : state) : outcome bool :=
  match still_waiting w s with
  | None => Fault
  | Some (false, s) => Returns false s
  | Some (true, s) =>
    match wakes with
    | [] => Blocked
    | k :: wakes' =>
      let s' := interference k s in
      if expiration_time =? 0 then wait_loop w expiration_time wakes' s'
      else if expired k then
        match deref w s' with
        | None => Fault
        | Some (wr, s') =>
          if in_batch_group wr then wait_loop w 0 wakes' s'
          else Returns true s'
        end
      else wait_loop w expiration_time wakes' s'
    end
  end.

(** [writers_.erase(iter)] at the first [iter] with [*iter == w]. *)
Fixpoint erase_first (w : ptr) (ws : list ptr) : list ptr :=
  match ws with
  | [] => []
  | p :: ws' => if bool_decide (p = w) then ws' else p :: erase_first w ws'
  end.

(** Lines 59-61, 133-135 and 178-180: wake the head of the queue. *)
Definition signal_front : M state unit :=
  ws <- gets writers_ ;;
  if bool_decide (ws = []) then ret tt
  else h <- front ;; Signal h.

(** Lines 40-63: the writer leaves the queue after its deadline. *)
Definition leave_timed_out (w : ptr) : M state Status :=
  ws <- gets writers_ ;;
  _ <- assert (bool_decide (w ∈ ws)) ;;
  _ <- modify (with_writers (erase_first w ws)) ;;
  _ <- signal_front ;;
  ret TimedOut.

(** Lines 36-64. *)
Definition after_wait (w : ptr) (timed_out : bool) : M state Status :=
  wr <- deref w ;;
  if negb (done wr) && (0 <? parallel_execute_id wr) then ret OK
  else if timed_out then leave_timed_out w
  else ret OK.

Definition EnterWriteThread (w : ptr) (expiration_time : Z)
           (wakes : list wake) (s : state) : outcome Status :=
  let s := with_writers (writers_ s ++ [w]) s in
  match wait_loop w expiration_time wakes s with
  | Returns timed_out s =>
    match after_wait w timed_out s with
    | Some (st, s) => Returns st s
    | None => Fault
    end
  | Blocked => Blocked
  | Fault => Fault
  end.

(** *** StartParallelRun *)

Definition INT_MIN : Z := - 2 ^ 31.

(** The [while] loop of lines 72-87.  [ws] is [writers_] at the top of the
    loop: the only change to the deque is the [pop_front] of line 81. *)
Fixpoint hand_out (w last_writer : ptr) (ws : list ptr) (parallel_id : Z)
  : M state unit :=
  match ws with
  | [] => ret tt
  | parallel_writer :: ws' =>
    _ <- modify (λ s, with_parallel_writers
                        (parallel_writers_ s ++ [parallel_writer]) s) ;;
    _ <- update parallel_writer (set_parallel_execute_id parallel_id) ;;
    pw <- deref parallel_writer ;;
    b <- lift (batch pw) ;;
    let parallel_id := parallel_id + Count b in
    _ <- assert ((INT_MIN <=? parallel_id) && (parallel_id <=? INT_MAX)) ;;
    _ <- (if bool_decide (parallel_writer ≠ w) then Signal parallel_writer
          else ret tt) ;;
    if bool_decide (parallel_writer ≠ last_writer) then
      _ <- modify (with_writers ws') ;;
      hand_out w last_writer ws' parallel_id
    else ret tt
  end.

(** [num_threads] is a [uint32_t], compared with a [size_t]. *)
Definition StartParallelRun (w : ptr) (num_threads : Z) (last_writer : ptr)
  : M state unit :=
  u <- gets unfinished_threads_ ;;
  _ <- assert (u =? 0) ;;
  _ <- modify (with_unfinished num_threads) ;;
  ws <- gets writers_ ;;
  _ <- hand_out w last_writer ws 1 ;;
  ps <- gets parallel_writers_ ;;
  assert (num_threads =? Z.of_nat (length ps)).

(** *** ReportParallelRunFinish *)

(** [unfinished_threads_.fetch_add(-1) == 1] on an unsigned 32-bit atomic:
    the old value is returned and the new one wraps around. *)
Definition ReportParallelRunFinish : M state bool :=
  old <- gets unfinished_threads_ ;;
  _ <- modify (with_unfinished (wrap32 (old + (2 ^ 32 - 1)))) ;;
  ret (old =? 1).

(** [n] calls one after the other (the atomic operation makes any
    interleaving of the callers such a sequence); the results in call
    order. *)
Fixpoint report_times (n : nat) : M state (list bool) :=
  match n with
  | O => ret []
  | S n' =>
    r <- ReportParallelRunFinish ;;
    rs <- report_times n' ;;
    ret (r :: rs)
  end.

(** *** ExitWriteThread *)

(** The [while] loop of lines 166-175; [ws] is [writers_] at the top of the
    loop. *)
Fixpoint pop_ready (w last_writer : ptr) (st : Status) (ws : list ptr)
  : M state unit :=
  match ws with
  | [] => ret tt
  | ready :: ws' =>
    _ <- modify (with_writers ws') ;;
    _ <- (if bool_decide (ready ≠ w) then
            _ <- update ready (set_status st) ;;
            _ <- update ready (set_done true) ;;
            Signal ready
          else ret tt) ;;
    if bool_decide (ready = last_writer) then ret tt
    else pop_ready w last_writer st ws'
  end.

Definition ExitWriteThread (w last_writer : ptr) (st : Status)
  : M state unit :=
  ws <- gets writers_ ;;
  _ <- pop_ready w last_writer st ws ;;
  signal_front.

(** *** The vocabulary of the properties *)

(** The five predicates a candidate [w] must pass to join the group of
    [first] (lines 218-245). *)
Definition compatible (first w : Writer) : bool :=
  negb (sync w && negb (sync first))
  && negb (negb (disableWAL w) && disableWAL first)
  && negb (timeout_hint_us w <? timeout_hint_us first)
  && negb (has_callback w)
  && bool_decide (is_Some (batch w)).

(** [size] after the batches [bs] have been added to it, in 64 bits. *)
Definition grown (size : Z) (bs : list WriteBatch) : Z :=
  foldl (λ a b, wrap64 (a + ByteSize b)) size bs.

(** The mathematical sum of the byte sizes. *)
Definition total_bytes (bs : list WriteBatch) : Z :=
  foldr (λ b a, ByteSize b + a) 0 bs.

(** The memory after the writers [ps] have been marked as absorbed. *)
Definition marked (ps : list ptr) (m m' : gmap ptr Writer) : Prop :=
  ∀ p, m' !! p = if bool_decide (p ∈ ps)
                 then set_in_batch_group true <$> m !! p
                 else m !! p.

(** Why the scan stopped in front of position [n] of [iter]: the end of the
    queue, a writer failing one of the five predicates, or a writer whose
    batch takes the size over [max_size]. *)
Definition stopped (m : gmap ptr Writer) (first : Writer) (max_size : Z)
           (iter : list ptr) (n : nat) (size_in size_out : Z) : Prop :=
  match iter !! n with
  | None => size_out = size_in
  | Some p =>
    ∃ w, m !! p = Some w ∧
         ((compatible first w = false ∧ size_out = size_in) ∨
          (∃ b, compatible first w = true ∧ batch w = Some b ∧
                size_out = wrap64 (size_in + ByteSize b) ∧
                max_size < size_out))
  end.

(** Every pointer in [writers_] refers to a live writer that passes [P]. *)
Definition queue_ok (P : Writer → bool) (s : state) : bool :=
  forallb (λ p, from_option P false (mem s !! p)) (writers_ s).

Definition live (_ : Writer) : bool := true.

(** A batch is a [std::string]: its size is below 2^63. *)
Definition batch_in_range (w : Writer) : bool :=
  match batch w with
  | Some b => (0 <=? ByteSize b) && (ByteSize b <? 2 ^ 63)
  | None => true
  end.

(** [batch->Count()] of the writer at [p]. *)
Definition count_at (m : gmap ptr Writer) (p : ptr) : Z :=
  from_option (λ w, from_option Count 0 (batch w)) 0 (m !! p).

Definition counts (m : gmap ptr Writer) (ps : list ptr) : Z :=
  foldr (λ p a, count_at m p + a) 0 ps.

(** The writers of [group] are live, have a batch, and the ids handed out
    from [parallel_id] on stay within [int]. *)
Fixpoint ids_fit (m : gmap ptr Writer) (group : list ptr) (parallel_id : Z)
  : bool :=
  match group with
  | [] => true
  | p :: group' =>
    match m !! p with
    | Some w =>
      match batch w with
      | Some b =>
        (INT_MIN <=? parallel_id + Count b)
        && (parallel_id + Count b <=? INT_MAX)
        && ids_fit m group' (parallel_id + Count b)
      | None => false
      end
    | None => false
    end
  end.

(** The memory after the writers of [group] got their ids, the first one
    [parallel_id], each next one the id before it plus the batch count
    before it. *)
Definition numbered (parallel_id : Z) (group : list ptr)
           (m m' : gmap ptr Writer) : Prop :=
  (∀ k p, group !! k = Some p →
          m' !! p = set_parallel_execute_id
                      (parallel_id + counts m (take k group)) <$> m !! p)
  ∧ (∀ p, p ∉ group → m' !! p = m !! p).

(** What the leader does to an absorbed writer (lines 170-171). *)
Definition finish (st : Status) (w : Writer) : Writer :=
  set_done true (set_status st w).

(** The memory after the writers of [group] other than [w] were finished. *)
Definition finished (st : Status) (w : ptr) (group : list ptr)
           (m m' : gmap ptr Writer) : Prop :=
  ∀ p, m' !! p = if bool_decide (p ∈ group ∧ p ≠ w)
                 then finish st <$> m !! p
                 else m !! p.

(** The shared state after the wake-ups [wakes]: the waiting thread itself
    changes nothing while it waits. *)
Definition woken (wakes : list wake) (s : state) : state :=
  foldl (λ s k, interference k s) s wakes.

(** Several writers leave the queue on a timeout, one after the other. *)
Fixpoint leave_all (ws : list ptr) : M state unit :=
  match ws with
  | [] => ret tt
  | w :: ws' => _ <- leave_timed_out w ;; leave_all ws'
  end.

(** The head of the queue was the last writer to be signalled. *)
Definition empty_or_head_signalled (s : state) : Prop :=
  match writers_ s with
  | [] => True
  | h :: _ => head (cv_signals s) = Some h
  end.

(** *** Concrete queues *)

(** A writer with default options and a batch of [bytes] bytes holding
    [count] updates. *)
Definition plain_writer (bytes count : Z) : Writer :=
  mkWriter OK (Some (mkBatch bytes count)) false false false false false 0 0.

Definition sync_writer (bytes count : Z) : Writer :=
  mkWriter OK (Some (mkBatch bytes count)) true false false false false 0 0.

Definition queue_of (ws : list (ptr * Writer)) : state :=
  mkState (ws.*1) [] 0 (list_to_map ws) [].

(** A (50 KiB) is at the head; B (10 KiB), C (5 KiB, sync) and D (2 KiB)
    follow. *)
Definition absorption_queue : state :=
  queue_of [(1%nat, plain_writer 51200 1); (2%nat, plain_writer 10240 2);
            (3%nat, sync_writer 5120 1); (4%nat, plain_writer 2048 1)].

(** A single writer whose batch has 2 MiB. *)
Definition large_head_queue : state :=
  queue_of [(1%nat, plain_writer 2097152 1)].

(** A head of 200 KiB followed by a batch of 700 KiB. *)
Definition medium_head_queue : state :=
  queue_of [(1%nat, plain_writer 204800 1); (2%nat, plain_writer 716800 1)].

(** A head of 100 bytes followed by a batch of 1 MiB, which is rejected. *)
Definition rejected_tail_queue : state :=
  queue_of [(1%nat, plain_writer 100 1); (2%nat, plain_writer 1048576 1)].

(** A (3 updates) leads B (2 updates) and C (5 updates); D arrived later. *)
Definition parallel_queue : state :=
  queue_of [(1%nat, plain_writer 100 3); (2%nat, plain_writer 200 2);
            (3%nat, plain_writer 300 5); (4%nat, plain_writer 50 1)].

(** B and C were absorbed by A; D waits behind them. *)
Definition absorbed_queue : state :=
  queue_of [(1%nat, plain_writer 100 1);
            (2%nat, set_in_batch_group true (plain_writer 200 1));
            (3%nat, set_in_batch_group true (plain_writer 300 1));
            (4%nat, sync_writer 50 1)].

(** B, a writer with a timeout hint. *)
Definition late_writer : Writer :=
  mkWriter OK (Some (mkBatch 200 1)) false false false false false 10 0.

(** The leader A is alone in the queue; B is about to enter. *)
Definition leader_running : state :=
  mkState [1%nat] [] 0
          (list_to_map [(1%nat, plain_writer 100 1); (2%nat, late_writer)]) [].

(** The state after the other thread has run [m]. *)
Definition after {A : Type} (m : M state A) (s : state) : state :=
  match m s with
  | Some (_, s') => s'
  | None => s
  end.

(** B's first wake-up is the expiry of its deadline, after the leader has put
    B in its batch group; the second one follows the leader's
    ExitWriteThread. *)
Definition absorbed_then_done : list wake :=
  [mkWake true (after (BuildBatchGroup []));
   mkWake false (after (ExitWriteThread 1%nat 2%nat OK))].

(** The leader stalls: C joins the queue behind B, then B's deadline
    passes. *)
Definition stalled_leader : list wake :=
  [mkWake false (λ s, with_writers (writers_ s ++ [3%nat]) s);
   mkWake true id].

(** A leads; B and C have yet to enter. *)
Definition three_writers : state :=
  mkState [1%nat] [] 0
          (list_to_map [(1%nat, plain_writer 100 1); (2%nat, late_writer);
                        (3%nat, plain_writer 300 1)]) [].

(** The state in which B has left the queue of [three_writers]. *)
Definition after_timeout : state :=
  mkState [1; 3]%nat [] 0
          (list_to_map [(1%nat, plain_writer 100 1); (2%nat, late_writer);
                        (3%nat, plain_writer 300 1)]) [1%nat].

(** *** LeaderWaitEndParallel *)

(** The [while] loop of lines 96-98 against the wake-ups of [self->cv]. *)
Fixpoint LeaderWaitEndParallel (self : ptr) (wakes : list wake) (s : state)
  : outcome unit :=
  if negb (unfinished_threads_ s =? 0) then
    match deref self s with
    | None => Fault
    | Some _ =>
      match wakes with
      | [] => Blocked
      | k :: wakes' => LeaderWaitEndParallel self wakes' (interference k s)
      end
    end
  else Returns tt s.

(** *** EndParallelRun *)

(** Lines 141-152, under [db_mutex]. *)
Definition wake_leader (need_wake_up_leader : bool) : M state unit :=
  if need_wake_up_leader then
    ps <- gets parallel_writers_ ;;
    match ps with
    | [] => ret tt
    | leader :: _ => Signal leader
    end
  else ret tt.

(** The [while] loop of lines 155-157 against the wake-ups of
    [w->self_cv]. *)
Fixpoint wait_done (w : ptr) (wakes : list wake) (s : state) : outcome unit :=
  match deref w s with
  | None => Fault
  | Some (wr, _) =>
    if negb (done wr) then
      match wakes with
      | [] => Blocked
      | k :: wakes' => wait_done w wakes' (interference k s)
      end
    else Returns tt s
  end.

(** [between] is what the other threads do after [db_mutex] is released and
    before [w->self_mutex] is taken. *)
Definition EndParallelRun (w : ptr) (need_wake_up_leader : bool)
           (between : state → state) (wakes : list wake) (s : state)
  : outcome unit :=
  match wake_leader need_wake_up_leader s with
  | None => Fault
  | Some (_, s) => wait_done w wakes (between s)
  end.

(** Wake-ups that each follow one ReportParallelRunFinish of a worker. *)
Definition reports (n : nat) : list wake :=
  replicate n (mkWake false (after ReportParallelRunFinish)).

(** The state in which the leader has absorbed and finished B. *)
Definition absorbed_and_done : state :=
  after (ExitWriteThread 1%nat 2%nat OK)
        (after (BuildBatchGroup [])
               (with_writers [1; 2]%nat leader_running)).

(** *** LeaderEndParallel *)

(** [ColumnFamilyData*] *)
Definition cfd : Type := nat.

(** The calls of lines 121-123 on the memtable of a column family and on the
    flush scheduler, over the state [D] they act on. *)
Class FlushOps (D : Type) : Type := {
  ShouldScheduleFlush : cfd → D → bool;
  ScheduleFlush : cfd → D → D;
  MarkFlushScheduled : cfd → D → D
}.

Section Parallel.
Context {D : Type} `{!FlushOps D}.

(** The write thread with the parts of the writers that only the parallel
    run uses: the [cfd_set] of each writer, the signals on [self_cv] (the
    most recent first) and the state of memtables and flush scheduler. *)
Record pstate : Type := mkPar {
  core : state;
  cfd_set : gmap ptr (gset cfd);
  self_cv_signals : list ptr;
  flush : D
}.

Definition with_core (c : state) (P : pstate) : pstate :=
  mkPar c (cfd_set P) (self_cv_signals P) (flush P).

Definition with_cfd_set (cs : gmap ptr (gset cfd)) (P : pstate) : pstate :=
  mkPar (core P) cs (self_cv_signals P) (flush P).

Definition with_self_signal (p : ptr) (P : pstate) : pstate :=
  mkPar (core P) (cfd_set P) (p :: self_cv_signals P) (flush P).

Definition with_flush (d : D) (P : pstate) : pstate :=
  mkPar (core P) (cfd_set P) (self_cv_signals P) d.

(** An operation on the write thread proper. *)
Definition on_core {A : Type} (m : M state A) : M pstate A :=
  λ P, match m (core P) with
       | Some (a, c) => Some (a, with_core c P)
       | None => None
       end.

(** [p->cfd_set] *)
Definition cfds_of (p : ptr) (P : pstate) : gset cfd :=
  default ∅ (cfd_set P !! p).

(** The loop of lines 106-115 over [parallel_writers_]. *)
Fixpoint tag_done (self : ptr) (ps : list ptr) : M pstate unit :=
  match ps with
  | [] => ret tt
  | parallel_writer :: ps' =>
    _ <- (if bool_decide (parallel_writer ≠ self) then
            _ <- on_core (deref self) ;;
            _ <- on_core (deref parallel_writer) ;;
            _ <- modify (λ P, with_cfd_set
                                (<[self := cfds_of self P
                                           ∪ cfds_of parallel_writer P]>
                                   (cfd_set P)) P) ;;
            _ <- on_core (update parallel_writer (set_done true)) ;;
            modify (with_self_signal parallel_writer)
          else ret tt) ;;
    tag_done self ps'
  end.

(** One turn of the loop of lines 120-125. *)
Definition flush_step (d : D) (c : cfd) : D :=
  if ShouldScheduleFlush c d then MarkFlushScheduled c (ScheduleFlush c d)
  else d.

(** The loop of lines 120-125 over the elements of [self->cfd_set], in the
    order of the container. *)
Fixpoint schedule_flushes (cfds : list cfd) : M pstate unit :=
  match cfds with
  | [] => ret tt
  | c :: cfds' =>
    _ <- modify (λ P, with_flush (flush_step (flush P) c) P) ;;
    schedule_flushes cfds'
  end.

Definition LeaderEndParallel (self last_writer : ptr) : M pstate unit :=
  u <- on_core (gets unfinished_threads_) ;;
  _ <- assert (u =? 0) ;;
  ps <- on_core (gets parallel_writers_) ;;
  _ <- tag_done self ps ;;
  ws <- on_core (gets writers_) ;;
  _ <- assert (negb (bool_decide (ws = []))) ;;
  back <- lift (last ps) ;;
  h <- on_core front ;;
  _ <- assert (bool_decide (back = h)) ;;
  _ <- assert (bool_decide (back = last_writer)) ;;
  _ <- on_core (deref self) ;;
  cfds <- gets (cfds_of self) ;;
  _ <- schedule_flushes (elements cfds) ;;
  _ <- on_core (modify (with_parallel_writers [])) ;;
  ws <- on_core (gets writers_) ;;
  _ <- assert (negb (bool_decide (ws = []))) ;;
  h <- on_core front ;;
  _ <- assert (bool_decide (h = last_writer)) ;;
  _ <- on_core (modify (with_writers (tail ws))) ;;
  on_core signal_front.

(** The memory after the writers of [ps] other than [self] were tagged as
    done. *)
Definition tagged (self : ptr) (ps : list ptr) (m m' : gmap ptr Writer)
  : Prop :=
  ∀ p, m' !! p = if bool_decide (p ∈ ps ∧ p ≠ self)
                 then set_done true <$> m !! p
                 else m !! p.

(** The column families of the writers [ps]. *)
Definition cfds_of_all (ps : list ptr) (P : pstate) : gset cfd :=
  ⋃ ((λ p, cfds_of p P) <$> ps).

End Parallel.

Arguments pstate : clear implicits.

(** A sample of memtables and flush scheduler: the column families whose
    memtable asks for a flush, and the queue of the scheduler. *)
Global Instance requested_flushes : FlushOps (gset cfd * list cfd) :=
  {| ShouldScheduleFlush c d := bool_decide (c ∈ d.1);
     ScheduleFlush c d := (d.1, c :: d.2);
     MarkFlushScheduled c d := (d.1 ∖ {[c]}, d.2) |}.

(** A, B and C of [parallel_queue] wrote to the column families 0 and 1, to
    1, and to 2; the memtables of 1 and 7 ask for a flush. *)
Definition parallel_sample : pstate (gset cfd * list cfd) :=
  mkPar parallel_queue
        (list_to_map [(1%nat, {[0%nat; 1%nat]}); (2%nat, {[1%nat]});
                      (3%nat, {[2%nat]})])
        [] ({[1%nat; 7%nat]}, []).

(** [parallel_sample] once A has started the run of A, B and C and the three
    of them have reported. *)
Definition parallel_run_reported : pstate (gset cfd * list cfd) :=
  with_core (with_unfinished 0
               (after (StartParallelRun 1%nat 3 3%nat) parallel_queue))
            parallel_sample.

End WriteThread.

(** ** nvm/env_nvm.cc *)

Module EnvNVM.

Local Open Scope monad_scope.

(** [NvmFile*]: an address in the store of file objects. *)
Definition fptr : Type := nat.

(** [FPathInfo] as EnvNVM reads it: the path split into directory and file
    name, and whether the file is kept on the NVM device. *)
Record FPathInfo : Type := mkInfo {
  dpath : string;
  fname : string;
  nvm_managed : bool
}.

(** The declarations of env_nvm.h that are not part of env_nvm.cc: the
    constructor [FPathInfo(fpath)] and the static members [ends_with] and
    [sep]. *)
Class PathOps : Type := {
  mk_info : string → FPathInfo;
  ends_with : string → string → bool;
  sep : string
}.

(** What EnvNVM calls of the class [NvmFile], over a representation [F] of
    its objects and the default environment [P] the meta files live in.  The
    constructor from a meta file returns [None] when it throws
    [std::runtime_error]; [Unref] returns [None] when the object deletes
    itself. *)
Class NvmFileOps (P F : Type) : Type := {
  NvmFile_from_meta : FPathInfo → string → P → option F;
  IsNamed : F → string → bool;
  Rename : F → string → F;
  Unref : F → option F
}.

(** [Env::Default()], the interface [posix_] points to, over the state [P]
    of the default file system; [posix_holds] tells whether [P] has a file
    of that name. *)
Class Env (P : Type) : Type := {
  posix_holds : string → P → bool;
  posix_FileExists : string → P → Status * P;
  posix_RenameFile : string → string → P → Status * P;
  posix_GetChildren : string → P → Status * list string * P
}.

(** [Env::FileExists] is a query: OK for a file that exists, NotFound
    otherwise. *)
Class EnvLaws (P : Type) `{Env P} : Prop := {
  posix_FileExists_spec :
    ∀ f p, posix_FileExists f p
           = (if posix_holds f p then OK else NotFound, p)
}.

Section WithExternals.
Context {P F : Type} `{!PathOps, !NvmFileOps P F, !Env P}.

(** The object [EnvNVM]: [posix_], [fs_] and the memory the file pointers
    refer to. *)
Record env : Type := mkEnv {
  posix_ : P;
  fs_ : gmap string (list fptr);
  files : gmap fptr F
}.

Definition with_posix (p : P) (e : env) : env :=
  mkEnv p (fs_ e) (files e).

Definition with_fs (fs : gmap string (list fptr)) (e : env) : env :=
  mkEnv (posix_ e) fs (files e).

Definition with_files (h : gmap fptr F) (e : env) : env :=
  mkEnv (posix_ e) (fs_ e) h.

(** A call through [posix_]. *)
Definition posix {A : Type} (call : P → A * P) : M env A :=
  λ e, let '(a, p) := call (posix_ e) in Some (a, with_posix p e).

(** Reading the file object at [p]. *)
Definition file_at (p : fptr) : M env F :=
  λ e, lift (files e !! p) e.

(** [new NvmFile(...)]: the object gets an address not in use. *)
Definition alloc (f : F) : M env fptr :=
  λ e, let p := fresh (dom (files e)) in
       Some (p, with_files (<[p := f]> (files e)) e).

(** [p->Rename(name)] *)
Definition rename_at (p : fptr) (name : string) : M env unit :=
  f <- file_at p ;;
  modify (λ e, with_files (<[p := Rename f name]> (files e)) e).

(** [p->Unref()] *)
Definition unref_at (p : fptr) : M env unit :=
  f <- file_at p ;;
  modify (λ e, with_files (match Unref f with
                           | Some f' => <[p := f']> (files e)
                           | None => delete p (files e)
                           end) e).

(** The loop of lines 245-250 (and of 159-168 up to the erasure): the first
    file of the vector with the name. *)
Fixpoint find_named (name : string) (vec : list fptr) : M env (option fptr) :=
  match vec with
  | [] => ret None
  | p :: vec' =>
    f <- file_at p ;;
    if IsNamed f name then ret (Some p) else find_named name vec'
  end.

(** The loop of lines 259-274 over the listing of the default
    environment. *)
Fixpoint from_listing (info : FPathInfo) (listing : list string)
  : M env (option fptr) :=
  match listing with
  | [] => ret None
  | entry :: listing' =>
    if negb (ends_with entry "meta") then from_listing info listing'
    else if negb (String.prefix (fname info) entry)
         then from_listing info listing'
    else
      px <- gets posix_ ;;
      match NvmFile_from_meta info (dpath info +:+ sep +:+ entry) px with
      | Some f => p <- alloc f ;; ret (Some p)
      | None => ret None
      end
  end.

Definition FindFileUnguarded (info : FPathInfo) : M env (option fptr) :=
  fs <- gets fs_ ;;
  match fs !! dpath info with
  | None => ret None
  | Some vec =>
    found <- find_named (fname info) vec ;;
    match found with
    | Some p => ret (Some p)
    | None =>
      r <- posix (posix_GetChildren (dpath info)) ;;
      if negb (ok r.1) then ret None
      else from_listing info r.2
    end
  end.

(** The loop of lines 159-168: the vector without its first file of that
    name, which is unreferenced; [None] when no file has the name. *)
Fixpoint erase_named (name : string) (vec : list fptr)
  : M env (option (list fptr)) :=
  match vec with
  | [] => ret None
  | p :: vec' =>
    f <- file_at p ;;
    if IsNamed f name then
      _ <- unref_at p ;;
      ret (Some vec')
    else
      r <- erase_named name vec' ;;
      ret (cons p <$> r)
  end.

Definition DeleteFileUnguarded (info : FPathInfo) : M env Status :=
  fs <- gets fs_ ;;
  match fs !! dpath info with
  | None => ret NotFound
  | Some vec =>
    r <- erase_named (fname info) vec ;;
    match r with
    | Some vec' =>
      _ <- modify (λ e, with_fs (<[dpath info := vec']> (fs_ e)) e) ;;
      ret OK
    | None => ret NotFound
    end
  end.

Definition DeleteFile (fpath : string) : M env Status :=
  let info := mk_info fpath in
  if negb (nvm_managed info) then posix (posix_FileExists fpath)
  else DeleteFileUnguarded info.

Definition FileExists (fpath : string) : M env Status :=
  let info := mk_info fpath in
  if negb (nvm_managed info) then posix (posix_FileExists fpath)
  else
    file <- FindFileUnguarded info ;;
    if file is Some _ then ret OK else ret NotFound.

Definition RenameFile (fpath_src fpath_tgt : string) : M env Status :=
  let info_src := mk_info fpath_src in
  let info_tgt := mk_info fpath_tgt in
  if xorb (nvm_managed info_src) (nvm_managed info_src) then ret IOError
  else if negb (nvm_managed info_src)
       then posix (posix_RenameFile fpath_src fpath_tgt)
  else if negb (String.eqb (dpath info_src) (dpath info_tgt))
       then ret IOError
  else
    file <- FindFileUnguarded info_src ;;
    match file with
    | None => ret NotFound
    | Some file =>
      file_target <- FindFileUnguarded info_tgt ;;
      _ <- (if file_target is Some _
            then _ <- DeleteFileUnguarded info_tgt ;; ret tt
            else ret tt) ;;
      _ <- rename_at file (fname info_tgt) ;;
      ret OK
    end.

(** The files in front of the one that is found are live and have another
    name. *)
Definition others (name : string) (e : env) (l : list fptr) : Prop :=
  Forall (λ q, ∃ fq, files e !! q = Some fq ∧ IsNamed fq name = false) l.

(** The memory after [p->Unref()] on the object [f]. *)
Definition unreferenced (p : fptr) (f : F) (h : gmap fptr F) : gmap fptr F :=
  match Unref f with
  | Some f' => <[p := f']> h
  | None => delete p h
  end.

End WithExternals.

Arguments env : clear implicits.

(** *** The constructor, NewWritableFile and GetChildren *)

(** Members of [NvmFile] and [NvmWritableFile] that NewWritableFile and
    GetChildren call and env_nvm.cc does not define: the constructor
    [NvmFile(env, info)], which returns [None] when it throws
    [std::runtime_error], [GetFname], and what the constructor of
    [NvmWritableFile] does to the file it wraps. *)
Class NvmFileMore (P F : Type) : Type := {
  NvmFile_new : FPathInfo → P → option F;
  GetFname : F → string;
  NvmWritableFile_new : F → F
}.

(** [Env::NewWritableFile] of the default environment; the handle it stores
    in [result] is its own. *)
Class EnvMore (P : Type) : Type := {
  posix_NewWritableFile : string → P → Status * P
}.

Section MoreOfEnvNVM.
Context {P F : Type}
        `{!PathOps, !NvmFileOps P F, !Env P, !NvmFileMore P F, !EnvMore P}.

Definition uri_prefix : string := "nvm://".

(** [s.find(sub)]: the position of the first occurrence of [sub] in [s],
    [None] for [npos]. *)
Definition find (s sub : string) : option nat := String.index 0 sub s.

(** [s.substr(pos)], which throws [std::out_of_range] when [pos] is behind
    the end of [s]. *)
Definition substr (pos : nat) (s : string) : option string :=
  if (pos <=? String.length s)%nat
  then Some (String.substring pos (String.length s - pos) s)
  else None.

(** The members the constructor initialises. *)
Record EnvNVM_members : Type := mkEnvNVM {
  this : env P F;
  uri_ : string;
  dev_name_ : string
}.

(** The constructor (lines 22-34), [None] when it throws: [find] returns a
    position, and every position but 0, [npos] included, counts as true. *)
Definition EnvNVM_new (posix_default : P) (uri : string)
  : option EnvNVM_members :=
  match find uri uri_prefix with
  | Some 0%nat =>
    dev_name ← substr (String.length uri_prefix) uri;
    Some (mkEnvNVM (mkEnv posix_default ∅ ∅) uri dev_name)
  | _ => None
  end.

(** [new NvmFile(this, info)] inside the try block of lines 130-134: when
    the constructor throws, [file] keeps the value it had. *)
Definition try_new (info : FPathInfo) (file : option fptr)
  : M (env P F) (option fptr) :=
  px <- gets posix_ ;;
  match NvmFile_new info px with
  | Some f => p <- alloc f ;; ret (Some p)
  | None => ret file
  end.

(** [fs_[dpath].push_back(file)]: [operator[]] makes the entry when the
    directory has none. *)
Definition push_back (dpath : string) (file : fptr) : M (env P F) unit :=
  modify (λ e, with_fs (<[dpath := default [] (fs_ e !! dpath) ++ [file]]>
                          (fs_ e)) e).

(** [new NvmWritableFile(file, options)] *)
Definition wrap_writable (file : fptr) : M (env P F) unit :=
  f <- file_at file ;;
  modify (λ e, with_files (<[file := NvmWritableFile_new f]> (files e)) e).

(** NewWritableFile (lines 107-145).  The second component is the file of
    the handle stored in [result], [None] when EnvNVM stores none. *)
Definition NewWritableFile (fpath : string)
  : M (env P F) (Status * option fptr) :=
  let info := mk_info fpath in
  if negb (nvm_managed info) then
    st <- posix (posix_NewWritableFile fpath) ;;
    ret (st, None)
  else
    file <- FindFileUnguarded info ;;
    _ <- (if file is Some _
          then _ <- DeleteFileUnguarded info ;; ret tt
          else ret tt) ;;
    file <- try_new info file ;;
    match file with
    | None => ret (IOError, None)
    | Some file =>
      _ <- push_back (dpath info) file ;;
      _ <- wrap_writable file ;;
      ret (OK, Some file)
    end.

(** The loop of lines 216-218 *)
Fixpoint names_of (vec : list fptr) : M (env P F) (list string) :=
  match vec with
  | [] => ret []
  | p :: vec' =>
    f <- file_at p ;;
    names <- names_of vec' ;;
    ret (GetFname f :: names)
  end.

(** GetChildren (lines 207-225): the status of the default environment is
    dropped, and [fs_[dpath]] makes an entry for a directory that has
    none. *)
Definition GetChildren (dpath : string) : M (env P F) (Status * list string) :=
  r <- posix (posix_GetChildren dpath) ;;
  fs <- gets fs_ ;;
  _ <- (if fs !! dpath is None
        then modify (with_fs (<[dpath := []]> fs))
        else ret tt) ;;
  names <- names_of (default [] (fs !! dpath)) ;;
  ret (OK, r.2 ++ names).

(** No entry of the listing passes the two tests of lines 260-263. *)
Definition no_meta (name : string) (listing : list string) : Prop :=
  Forall (λ entry, ends_with entry "meta" = false
                   ∨ String.prefix name entry = false) listing.

End MoreOfEnvNVM.

Arguments EnvNVM_members : clear implicits.

(** *** A sample platform

    Paths are split at the last ['/']; the files whose name ends in [sst]
    are NVM-managed; a file object is its name and a reference count; the
    default file system is the list of the paths of its files. *)

Fixpoint split_path (s : string) : option string * string :=
  match s with
  | EmptyString => (None, EmptyString)
  | String c s' =>
    match split_path s' with
    | (Some d, f) => (Some (String c d), f)
    | (None, f) =>
      if Ascii.eqb c "/"%char then (Some EmptyString, f) else (None, String c f)
    end
  end.

Definition has_suffix (s suffix : string) : bool :=
  let n := String.length s in
  let m := String.length suffix in
  (m <=? n)%nat && String.eqb (String.substring (n - m) m s) suffix.

Definition sst_info (fpath : string) : FPathInfo :=
  let '(d, f) := split_path fpath in
  mkInfo (default EmptyString d) f (has_suffix fpath "sst").

Global Instance sst_paths : PathOps :=
  {| mk_info := sst_info; ends_with := has_suffix; sep := "/" |}.

Record file_obj : Type := mkObj {
  obj_name : string;
  obj_refs : nat
}.

Global Instance counted_files : NvmFileOps (list string) file_obj :=
  {| NvmFile_from_meta info mpath px :=
       if bool_decide (mpath ∈ px) then Some (mkObj (fname info) 1) else None;
     IsNamed f name := String.eqb (obj_name f) name;
     Rename f name := mkObj name (obj_refs f);
     Unref f := match obj_refs f with
                | S (S n) => Some (mkObj (obj_name f) (S n))
                | _ => None
                end |}.

Global Instance listed_files : Env (list string) :=
  {| posix_holds f p := bool_decide (f ∈ p);
     posix_FileExists f p := (if bool_decide (f ∈ p) then OK else NotFound, p);
     posix_RenameFile src tgt p :=
       if bool_decide (src ∈ p)
       then (OK, tgt :: filter (λ x, x ≠ src ∧ x ≠ tgt) p)
       else (IOError, p);
     posix_GetChildren d p :=
       (OK, omap (λ x, let i := sst_info x in
                       if String.eqb (dpath i) d then Some (fname i) else None)
                 p, p) |}.

(** The directory /db: the log 000001.log in the default file system, the
    tables 000002.sst and 000003.sst on the device. *)
Definition sample_env : env (list string) file_obj :=
  mkEnv ["/db/000001.log"; "/db/LOG"]
        {["/db" := [1; 2]]}
        (list_to_map [(1, mkObj "000002.sst" 1); (2, mkObj "000003.sst" 1)]).

(** The constructor of a file fails when the default file system holds the
    entry /dev/full; a handle takes a reference to its file. *)
Global Instance counted_files_more : NvmFileMore (list string) file_obj :=
  {| NvmFile_new info px :=
       if bool_decide ("/dev/full" ∈ px) then None
       else Some (mkObj (fname info) 1);
     GetFname := obj_name;
     NvmWritableFile_new f := mkObj (obj_name f) (S (obj_refs f)) |}.

Global Instance listed_files_more : EnvMore (list string) :=
  {| posix_NewWritableFile f p := (OK, f :: filter (λ x, x ≠ f) p) |}.

(** The table 000005.sst is known by its meta file only; the directory /db
    has an entry without files. *)
Definition meta_env : env (list string) file_obj :=
  mkEnv ["/db/000005.sst.meta"; "/db/LOG"] {["/db" := []]} ∅.

(** [sample_env] with 000002.sst open elsewhere and the device full. *)
Definition full_env : env (list string) file_obj :=
  mkEnv ["/dev/full"]
        {["/db" := [1; 2]]}
        (list_to_map [(1, mkObj "000002.sst" 2); (2, mkObj "000003.sst" 1)]).


(** [meta_env] before anything was done in /db. *)
Definition unlisted_env : env (list string) file_obj :=
  mkEnv ["/db/000005.sst.meta"; "/db/LOG"] ∅ ∅.

(** [sample_env] with the new table 000007.sst open for writing. *)
Definition created_env : env (list string) file_obj :=
  mkEnv ["/db/000001.log"; "/db/LOG"]
        {["/db" := [1; 2; 3]]}
        (list_to_map [(1, mkObj "000002.sst" 1); (2, mkObj "000003.sst" 1);
                      (3, mkObj "000007.sst" 2)]).

(** The table 000002.sst is loaded in /db; the table 000005.sst is known by
    its meta file only. *)
Definition meta_target_env : env (list string) file_obj :=
  mkEnv ["/db/000005.sst.meta"; "/db/LOG"] {["/db" := [1]]}
        {[1 := mkObj "000002.sst" 1]}.

(** [meta_target_env] after a lookup of 000005.sst. *)
Definition meta_target_found : env (list string) file_obj :=
  mkEnv ["/db/000005.sst.meta"; "/db/LOG"] {["/db" := [1]]}
        (list_to_map [(1, mkObj "000002.sst" 1); (2, mkObj "000005.sst" 1)]).

End EnvNVM.

(** * Properties *)

(** Inversion of the monadic steps. *)
Lemma bind_inv {S A B : Type} (m : M S A) (k : A → M S B) (s : S)
      (r : B * S) :
  bind m k s = Some r → ∃ a s1, m s = Some (a, s1) ∧ k a s1 = Some r.
Proof.
  unfold bind. destruct (m s) as [[a s1]|]; [|done]. eauto.
Qed.

Lemma assert_inv {S : Type} (c : bool) (s : S) (r : unit * S) :
  assert c s = Some r → c = true ∧ r = (tt, s).
Proof. destruct c; simpl; [|done]. unfold ret. by intros [= <-]. Qed.

Lemma lift_inv {S A : Type} (o : option A) (s : S) (r : A * S) :
  lift o s = Some r → ∃ a, o = Some a ∧ r = (a, s).
Proof. destruct o; simpl; [|done]. unfold ret. intros [= <-]. eauto. Qed.

Lemma bind_Some {S A B : Type} (m : M S A) (k : A → M S B) (s s' : S)
      (a : A) :
  m s = Some (a, s') → bind m k s = k a s'.
Proof. intros Hm. unfold bind. by rewrite Hm. Qed.

(** One step of a run: the first action of the sequence is evaluated
    by [tac]. *)
Tactic Notation "mstep" "by" tactic3(tac) :=
  erewrite bind_Some by tac; cbv beta.
Tactic Notation "mstep" := mstep by reflexivity.

(** ** The write thread *)

Module WriteThreadFacts.
Import WriteThread.

Local Open Scope Z_scope.
Local Open Scope monad_scope.

Arguments deref : simpl never.
Arguments update : simpl never.
Arguments Signal : simpl never.
Arguments with_writers _ _ /.
Arguments with_parallel_writers _ _ /.
Arguments with_unfinished _ _ /.
Arguments with_mem _ _ /.
Arguments with_signal _ _ /.

(** *** Running the monad *)

Lemma deref_Some (p : ptr) (s : state) (w : Writer) :
  mem s !! p = Some w → deref p s = Some (w, s).
Proof. intros H. unfold deref. by rewrite H. Qed.

Lemma deref_inv (p : ptr) (s s' : state) (w : Writer) :
  deref p s = Some (w, s') → mem s !! p = Some w ∧ s' = s.
Proof.
  unfold deref. destruct (mem s !! p) as [w0|]; simpl; [|done].
  unfold ret. by intros [= -> ->].
Qed.

Lemma update_Some (p : ptr) (f : Writer → Writer) (s : state) (w : Writer) :
  mem s !! p = Some w →
  update p f s = Some (tt, with_mem (<[p := f w]> (mem s)) s).
Proof. intros H. unfold update, bind. by rewrite (deref_Some _ _ _ H). Qed.

Lemma Signal_Some (p : ptr) (s : state) (w : Writer) :
  mem s !! p = Some w → Signal p s = Some (tt, with_signal p s).
Proof. intros H. unfold Signal, bind. by rewrite (deref_Some _ _ _ H). Qed.

(** *** BuildBatchGroup *)

Lemma compatible_flag_l (b : bool) (f w : Writer) :
  compatible (set_in_batch_group b f) w = compatible f w.
Proof. reflexivity. Qed.

Lemma compatible_flag_r (b : bool) (f w : Writer) :
  compatible f (set_in_batch_group b w) = compatible f w.
Proof. reflexivity. Qed.

Lemma last_writer_cons (lw wp : ptr) (ps : list ptr) :
  List.last (wp :: ps) lw = List.last ps wp.
Proof.
  revert lw wp. induction ps as [|q ps IH]; intros lw wp; [done|].
  change (List.last (wp :: q :: ps) lw) with (List.last (q :: ps) lw).
  by rewrite !IH.
Qed.

Lemma scan_spec (first : ptr) (max_size : Z) (iter : list ptr) :
  ∀ (size : Z) (last_writer : ptr) (group : list WriteBatch) (s : state)
    (f0 : Writer),
    mem s !! first = Some f0 →
    (∀ p, p ∈ iter → is_Some (mem s !! p)) →
    ∃ (n : nat) (bs : list WriteBatch) (size' : Z) (m' : gmap ptr Writer),
      scan first max_size iter size last_writer group s
      = Some ((size', List.last (take n iter) last_writer, group ++ bs),
              with_mem m' s)
      ∧ (n ≤ length iter)%nat
      ∧ marked (take n iter) (mem s) m'
      ∧ Forall2 (λ p b, ∃ w, mem s !! p = Some w ∧ compatible f0 w = true
                             ∧ batch w = Some b) (take n iter) bs
      ∧ (∀ k, (0 < k ≤ n)%nat → grown size (take k bs) ≤ max_size)
      ∧ stopped (mem s) f0 max_size iter n (grown size bs) size'.
Proof.
  induction iter as [|wp iter IH]; intros size lw group s f0 Hf Hv.
  { exists 0%nat, [], size, (mem s). simpl. unfold ret.
    rewrite app_nil_r. destruct s; simpl.
    repeat split; try done; try lia;
      try (intros p; by rewrite bool_decide_eq_false_2 by set_solver). }
  destruct (Hv wp) as [w Hw]; [set_solver|].
  assert (Hstop : compatible f0 w = false →
    ∃ (n : nat) (bs : list WriteBatch) (size' : Z) (m' : gmap ptr Writer),
      ret (size, lw, group) s
      = Some ((size', List.last (take n (wp :: iter)) lw, group ++ bs),
              with_mem m' s)
      ∧ (n ≤ length (wp :: iter))%nat
      ∧ marked (take n (wp :: iter)) (mem s) m'
      ∧ Forall2 (λ p b, ∃ w, mem s !! p = Some w ∧ compatible f0 w = true
                             ∧ batch w = Some b) (take n (wp :: iter)) bs
      ∧ (∀ k, (0 < k ≤ n)%nat → grown size (take k bs) ≤ max_size)
      ∧ stopped (mem s) f0 max_size (wp :: iter) n (grown size bs) size').
  { intros Hc. exists 0%nat, [], size, (mem s). simpl. unfold ret.
    rewrite app_nil_r. destruct s; simpl in *.
    repeat split; try done; try lia;
      try (intros p; by rewrite bool_decide_eq_false_2 by set_solver);
      try (unfold stopped; simpl; exists w; by auto). }
  cbn [scan]. unfold bind at 1. rewrite (deref_Some _ _ _ Hw).
  unfold bind at 1. rewrite (deref_Some _ _ _ Hf).
  destruct (sync w && negb (sync f0)) eqn:E1.
  { apply Hstop. unfold compatible. by rewrite E1. }
  destruct (negb (disableWAL w) && disableWAL f0) eqn:E2.
  { apply Hstop. unfold compatible. by rewrite E1, E2. }
  destruct (timeout_hint_us w <? timeout_hint_us f0) eqn:E3.
  { apply Hstop. unfold compatible. by rewrite E1, E2, E3. }
  destruct (has_callback w) eqn:E4.
  { apply Hstop. unfold compatible. by rewrite E1, E2, E3, E4. }
  destruct (batch w) as [b|] eqn:E5.
  2:{ apply Hstop. unfold compatible. by rewrite E1, E2, E3, E4, E5. }
  assert (Hc : compatible f0 w = true).
  { unfold compatible. by rewrite E1, E2, E3, E4, E5. }
  cbv zeta.
  destruct (max_size <? wrap64 (size + ByteSize b)) eqn:E6.
  { exists 0%nat, [], (wrap64 (size + ByteSize b)), (mem s). simpl.
    rewrite app_nil_r. destruct s; simpl in *. unfold ret.
    repeat split; try done; try lia;
      try (intros p; by rewrite bool_decide_eq_false_2 by set_solver);
      try (unfold stopped; simpl; exists w; split; [done|]; right; exists b;
           repeat split; try done; lia). }
  unfold bind at 1. rewrite (update_Some _ _ _ _ Hw).
  set (s1 := with_mem (<[wp:=set_in_batch_group true w]> (mem s)) s).
  set (f1 := if bool_decide (first = wp) then set_in_batch_group true f0
             else f0).
  assert (Hs1 : ∀ p, mem s1 !! p
                     = if bool_decide (p = wp)
                       then set_in_batch_group true <$> mem s !! p
                       else mem s !! p).
  { intros p. subst s1. simpl. case_bool_decide as Hp.
    - subst p. by rewrite lookup_insert_eq, Hw.
    - by rewrite lookup_insert_ne. }
  assert (Hf1 : mem s1 !! first = Some f1).
  { rewrite Hs1. subst f1. case_bool_decide; by rewrite Hf. }
  assert (Hcf : ∀ x, compatible f1 x = compatible f0 x).
  { intros x. subst f1. by case_bool_decide. }
  destruct (IH (wrap64 (size + ByteSize b)) wp (group ++ [b]) s1 f1 Hf1)
    as (n & bs & size' & m' & Hrun & Hn & Hm & Hall & Hcap & Hst).
  { intros p Hp. rewrite Hs1. destruct (Hv p) as [x Hx]; [set_solver|].
    rewrite Hx. case_bool_decide; simpl; eauto. }
  exists (S n), (b :: bs), size', m'.
  rewrite Hrun. simpl take. rewrite last_writer_cons, <- app_assoc. simpl.
  split; [by destruct s|].
  split; [lia|].
  split.
  { intros p. rewrite (Hm p), Hs1.
    destruct (decide (p = wp)) as [->|Hne].
    - rewrite (bool_decide_eq_true_2 (wp = wp)) by done.
      rewrite (bool_decide_eq_true_2 (wp ∈ wp :: take n iter)) by set_solver.
      rewrite Hw. simpl. by case_bool_decide.
    - rewrite (bool_decide_eq_false_2 (p = wp)) by done.
      destruct (decide (p ∈ take n iter)) as [Hin|Hni].
      + rewrite (bool_decide_eq_true_2 (p ∈ take n iter)) by done.
        rewrite (bool_decide_eq_true_2 (p ∈ wp :: take n iter));
          [done | by apply elem_of_cons; right].
      + rewrite (bool_decide_eq_false_2 (p ∈ take n iter)) by done.
        rewrite (bool_decide_eq_false_2 (p ∈ wp :: take n iter));
          [done | rewrite elem_of_cons; tauto]. }
  split.
  { constructor; [by exists w|].
    eapply Forall2_impl; [exact Hall|]. simpl.
    intros p b' (x & Hx & Hcx & Hbx). rewrite Hs1 in Hx. rewrite Hcf in Hcx.
    case_bool_decide.
    - destruct (mem s !! p) as [y|]; [|done]. simpl in Hx.
      exists y. by simplify_eq.
    - exists x. auto. }
  split.
  { intros [|k] Hk; [lia|]. simpl.
    destruct k as [|k].
    - rewrite take_0. simpl. lia.
    - apply (Hcap (S k)). lia. }
  unfold stopped in *. simpl.
  destruct (iter !! n) as [q|]; [|done].
  destruct Hst as (x & Hx & Hd). rewrite Hs1 in Hx.
  assert (∃ y, mem s !! q = Some y ∧ compatible f0 y = compatible f0 x
               ∧ batch y = batch x) as (y & Hy & Hcy & Hby).
  { case_bool_decide.
    - destruct (mem s !! q) as [y|]; [|done]. simpl in Hx.
      exists y. by simplify_eq.
    - exists x. auto. }
  exists y. split; [done|]. rewrite Hcy, Hby.
  setoid_rewrite Hcf in Hd. exact Hd.
Qed.

Lemma queue_ok_lookup (P : Writer → bool) (s : state) (p : ptr) :
  queue_ok P s = true → p ∈ writers_ s →
  ∃ w, mem s !! p = Some w ∧ P w = true.
Proof.
  unfold queue_ok. rewrite forallb_forall. intros H Hp.
  apply list_elem_of_In in Hp. specialize (H p Hp).
  destruct (mem s !! p) as [w|]; [eauto|done].
Qed.

Lemma BuildBatchGroup_spec (g : list WriteBatch) (s : state)
      (first : ptr) (rest : list ptr) (fw : Writer) (fb : WriteBatch) :
  writers_ s = first :: rest →
  mem s !! first = Some fw →
  batch fw = Some fb →
  queue_ok live s = true →
  ∃ (n : nat) (bs : list WriteBatch) (size' : Z) (m' : gmap ptr Writer),
    BuildBatchGroup g s
    = Some ((size', List.last (take n rest) first, g ++ fb :: bs),
            with_mem m' s)
    ∧ (n ≤ length rest)%nat
    ∧ marked (take n rest) (mem s) m'
    ∧ Forall2 (λ p b, ∃ w, mem s !! p = Some w ∧ compatible fw w = true
                           ∧ batch w = Some b) (take n rest) bs
    ∧ (∀ k, (0 < k ≤ n)%nat →
            grown (ByteSize fb) (take k bs) ≤ max_size_of (ByteSize fb))
    ∧ (if has_callback fw then n = 0%nat ∧ size' = ByteSize fb
       else stopped (mem s) fw (max_size_of (ByteSize fb)) rest n
                    (grown (ByteSize fb) bs) size').
Proof.
  intros Hws Hf Hb Hok.
  destruct (scan_spec first (max_size_of (ByteSize fb)) rest (ByteSize fb)
                      first (g ++ [fb]) s fw Hf)
    as (n & bs & size' & m' & Hrun & Hn & Hm & Hall & Hcap & Hst).
  { intros p Hp. destruct (queue_ok_lookup live s p Hok) as (w & Hw & _).
    - rewrite Hws. by right.
    - eauto. }
  destruct s as [ws ps u m sig]; simpl in *; subst ws.
  unfold BuildBatchGroup, bind, gets, front. simpl.
  erewrite deref_Some by (simpl; eassumption). rewrite Hb. simpl.
  destruct (has_callback fw) eqn:Hcb.
  { exists 0%nat, [], (ByteSize fb), m. unfold ret. simpl.
    repeat split; try done; try lia;
      try (intros p; by rewrite bool_decide_eq_false_2
             by apply not_elem_of_nil). }
  exists n, bs, size', m'. rewrite Hrun, <- app_assoc. done.
Qed.

Lemma last_cons_default (x : ptr) (l : list ptr) :
  last (x :: l) = Some (List.last l x).
Proof.
  revert x. induction l as [|y l IH]; intros x; [done|].
  change (last (x :: y :: l)) with (last (y :: l)). rewrite IH.
  by rewrite last_writer_cons.
Qed.

Lemma max_size_of_bounds (size : Z) :
  0 ≤ size →
  max_size_of size
  = (if size <=? 128 * 1024 then size + 128 * 1024 else 1024 * 1024)
  ∧ max_size_of size ≤ 1024 * 1024.
Proof.
  intros H. unfold max_size_of, wrap64.
  change (Z.shiftl 128 10) with 131072. change (Z.shiftl 1 20) with 1048576.
  destruct (size <=? 131072) eqn:E; simpl.
  - apply Z.leb_le in E. rewrite Z.mod_small by lia.
    change (128 * 1024) with 131072. rewrite (proj2 (Z.leb_le _ _) E). lia.
  - change (128 * 1024) with 131072. rewrite E. lia.
Qed.

(** Without wrap-around the 64-bit running size is the sum of the sizes. *)
Lemma grown_total (max_size : Z) (bs : list WriteBatch) :
  ∀ size : Z,
    0 ≤ size < 2 ^ 63 →
    max_size ≤ 1024 * 1024 →
    Forall (λ b, 0 ≤ ByteSize b < 2 ^ 63) bs →
    (∀ k, (0 < k ≤ length bs)%nat → grown size (take k bs) ≤ max_size) →
    grown size bs = size + total_bytes bs.
Proof.
  induction bs as [|b bs IH]; intros size Hs Hm Hr Hcap; simpl.
  { unfold grown, total_bytes. simpl. lia. }
  apply Forall_cons in Hr as [Hb Hr].
  assert (E : wrap64 (size + ByteSize b) = size + ByteSize b).
  { unfold wrap64. apply Z.mod_small. lia. }
  assert (H1 : wrap64 (size + ByteSize b) ≤ max_size).
  { apply (Hcap 1%nat). simpl. lia. }
  unfold grown in *. simpl. rewrite IH; try done.
  - rewrite E. unfold total_bytes. simpl. lia.
  - rewrite E in *. lia.
  - intros k Hk. apply (Hcap (S k)). simpl. lia.
Qed.

Example absorption_group :
  ∃ s', BuildBatchGroup [] absorption_queue
        = Some ((61440, 2%nat, [mkBatch 51200 1; mkBatch 10240 2]), s')
        ∧ in_batch_group <$> mem s' !! 2%nat = Some true
        ∧ in_batch_group <$> mem s' !! 3%nat = Some false.
Proof. eexists. split; [vm_compute; reflexivity|]. by vm_compute. Qed.

Example rejected_tail_size :
  BuildBatchGroup [] rejected_tail_queue
  = Some ((1048676, 1%nat, [mkBatch 100 1]), rejected_tail_queue).
Proof. by vm_compute. Qed.

Lemma queue_ok_weaken (P : Writer → bool) (s : state) :
  queue_ok P s = true → queue_ok live s = true.
Proof.
  unfold queue_ok. rewrite !forallb_forall. intros H p Hp.
  specialize (H p Hp). by destruct (mem s !! p).
Qed.

Lemma max_size_of_eq (size : Z) :
  max_size_of size
  = if size <=? 128 * 1024 then wrap64 (size + 128 * 1024) else 1024 * 1024.
Proof. reflexivity. Qed.

(** C3: the batch group is a contiguous prefix of [writers_] that begins at
    the head: the initiator and the [n] writers behind it.  Every writer in
    it behind the initiator passes the five compatibility predicates, is
    flagged [in_batch_group], and kept the running size within the limit of
    lines 201-204; nothing but these flags changes.  The scan stops in front
    of position [n], which is pinned by the running size of exactly the
    batches of the group: the queue ends there, or the writer there fails a
    predicate, or its batch takes that size over the limit.  So no writer at
    or behind one that fails a predicate is in the group, and every writer
    in front of the first one that fails a predicate or exceeds the limit
    is.  An initiator with a callback is alone in its group, and the size
    returned is that of its batch. *)
Theorem BuildBatchGroup_contiguous_compatible_prefix
        (g : list WriteBatch) (s : state) (first : ptr) (rest : list ptr)
        (fw : Writer) (fb : WriteBatch) :
  writers_ s = first :: rest →
  mem s !! first = Some fw →
  batch fw = Some fb →
  queue_ok live s = true →
  ∃ (n : nat) (size' : Z) (last_writer : ptr) (bs : list WriteBatch)
    (s' : state),
    BuildBatchGroup g s = Some ((size', last_writer, g ++ fb :: bs), s')
    ∧ (n ≤ length rest)%nat
    ∧ last (take (S n) (writers_ s)) = Some last_writer
    ∧ Forall2 (λ p b, ∃ w, mem s !! p = Some w ∧ batch w = Some b)
              (take n rest) bs
    ∧ writers_ s' = writers_ s
    ∧ s' = with_mem (mem s') s
    ∧ marked (take n rest) (mem s) (mem s')
    ∧ Forall (λ p, ∃ w, mem s !! p = Some w ∧ compatible fw w = true)
             (take n rest)
    ∧ (∀ i p w, rest !! i = Some p → mem s !! p = Some w →
                compatible fw w = false → (n ≤ i)%nat)
    ∧ (∀ k, (0 < k ≤ n)%nat →
            grown (ByteSize fb) (take k bs)
            ≤ if ByteSize fb <=? 128 * 1024
              then wrap64 (ByteSize fb + 128 * 1024) else 1024 * 1024)
    ∧ (has_callback fw = false →
       stopped (mem s) fw
               (if ByteSize fb <=? 128 * 1024
                then wrap64 (ByteSize fb + 128 * 1024) else 1024 * 1024)
               rest n (grown (ByteSize fb) bs) size')
    ∧ (has_callback fw = true →
       n = 0%nat ∧ bs = [] ∧ last_writer = first ∧ size' = ByteSize fb).
Proof.
  intros Hws Hf Hb Hok.
  destruct (BuildBatchGroup_spec g s first rest fw fb Hws Hf Hb Hok)
    as (n & bs & size' & m' & Hrun & Hn & Hm & Hall & Hcap & Hst).
  rewrite max_size_of_eq in Hcap, Hst.
  assert (Hcompat : Forall (λ p, ∃ w, mem s !! p = Some w
                                      ∧ compatible fw w = true)
                           (take n rest)).
  { clear -Hall. induction Hall as [|p b ps bs' (w & ? & ? & ?) _ IH];
      constructor; eauto. }
  exists n, size', (List.last (take n rest) first), bs, (with_mem m' s).
  split; [done|]. split; [done|]. rewrite Hws. simpl take.
  split; [apply last_cons_default|].
  split.
  { eapply Forall2_impl; [exact Hall|]. simpl.
    intros p b (w & ? & ? & ?). eauto. }
  split; [by destruct s|].
  split; [by destruct s|].
  split; [by destruct s|].
  split; [done|].
  split.
  { intros i p w Hi Hw Hc. destruct (decide (n ≤ i)%nat) as [|Hlt]; [done|].
    exfalso. rewrite Forall_forall in Hcompat.
    destruct (Hcompat p) as (w' & Hw' & Hc').
    - apply list_elem_of_lookup. exists i. rewrite lookup_take_lt by lia. done.
    - congruence. }
  split; [exact Hcap|].
  split.
  { intros Hcb. by rewrite Hcb in Hst. }
  intros Hcb. rewrite Hcb in Hst. destruct Hst as [-> ->].
  rewrite take_0 in Hall. by inversion Hall.
Qed.

Lemma BuildBatchGroup_contiguous_compatible_prefix_witness :
  ∃ s' : state,
    BuildBatchGroup [] absorption_queue
    = Some ((61440, 2%nat, [mkBatch 51200 1; mkBatch 10240 2]), s')
    ∧ last (take 2 (writers_ absorption_queue)) = Some 2%nat
    ∧ writers_ s' = writers_ absorption_queue
    ∧ marked [2%nat] (mem absorption_queue) (mem s')
    ∧ Forall (λ p, ∃ w, mem absorption_queue !! p = Some w
                        ∧ compatible (plain_writer 51200 1) w = true)
             [2%nat]
    ∧ (∀ i p w, [2; 3; 4]%nat !! i = Some p →
                mem absorption_queue !! p = Some w →
                compatible (plain_writer 51200 1) w = false → (1 ≤ i)%nat)
    ∧ stopped (mem absorption_queue) (plain_writer 51200 1) 182272
              [2; 3; 4]%nat 1 61440 61440.
Proof.
  destruct (BuildBatchGroup_contiguous_compatible_prefix
              [] absorption_queue 1%nat [2; 3; 4]%nat (plain_writer 51200 1)
              (mkBatch 51200 1))
    as (n & size' & last_writer & bs & s' & Hrun & Hn & Hlast & Hall & Hws
        & _ & Hm & Hcompat & Hfirst & _ & Hst & _);
    try reflexivity.
  assert (Hc : ∃ s0, BuildBatchGroup [] absorption_queue
                     = Some ((61440, 2%nat,
                              [mkBatch 51200 1; mkBatch 10240 2]), s0)).
  { eexists. vm_compute. reflexivity. }
  destruct Hc as [s0 Hc]. rewrite Hc in Hrun.
  injection Hrun as <- <- <- <-.
  assert (n = 1%nat) as ->.
  { apply Forall2_length in Hall. rewrite length_take in Hall.
    simpl in Hall, Hn. lia. }
  exists s0. repeat split; try assumption.
  exact (Hst eq_refl).
Defined.

(** C2, as the code has it: the bytes of the batches put in the group stay
    within [max_size] as soon as a second batch is in it, where [max_size] is
    [size + 128 KiB] for an initiator of at most 128 KiB and 1 MiB for a
    larger one; hence within 1 MiB unless the initiator alone is larger.  The
    returned size is that total whenever the scan did not end on the size
    check. *)
Theorem BuildBatchGroup_group_bytes_bounded
        (g : list WriteBatch) (s : state) (first : ptr) (rest : list ptr)
        (fw : Writer) (fb : WriteBatch) :
  writers_ s = first :: rest →
  mem s !! first = Some fw →
  batch fw = Some fb →
  queue_ok batch_in_range s = true →
  ∃ (size' : Z) (last_writer : ptr) (bs : list WriteBatch) (s' : state),
    BuildBatchGroup g s = Some ((size', last_writer, g ++ bs), s')
    ∧ let size := ByteSize fb in
      let max_size :=
        if size <=? 128 * 1024 then size + 128 * 1024 else 1024 * 1024 in
      total_bytes bs ≤ Z.max size max_size
      ∧ (size ≤ 1024 * 1024 → total_bytes bs ≤ 1024 * 1024)
      ∧ (size' = total_bytes bs ∨ max_size < size').
Proof.
  intros Hws Hf Hb Hok.
  destruct (BuildBatchGroup_spec g s first rest fw fb Hws Hf Hb
              (queue_ok_weaken _ _ Hok))
    as (n & bs & size' & m' & Hrun & Hn & Hm & Hall & Hcap & Hst).
  exists size', (List.last (take n rest) first), (fb :: bs), (with_mem m' s).
  split; [done|].
  assert (Hfb : 0 ≤ ByteSize fb < 2 ^ 63).
  { destruct (queue_ok_lookup _ s first Hok) as (w & Hw & Hr).
    - rewrite Hws. by left.
    - unfold batch_in_range in Hr. rewrite Hf in Hw. simplify_eq.
      rewrite Hb in Hr. lia. }
  destruct (max_size_of_bounds (ByteSize fb)) as [Hmax Hle]; [lia|].
  assert (Hlen : length bs = n).
  { apply Forall2_length in Hall. rewrite length_take in Hall. lia. }
  assert (Hbs : Forall (λ b, 0 ≤ ByteSize b < 2 ^ 63) bs).
  { clear -Hall Hok Hws. rewrite Forall_forall. intros b Hbin.
    apply list_elem_of_lookup in Hbin as [i Hi].
    destruct (Forall2_lookup_r _ _ _ _ _ Hall Hi) as (p & Hp & w & Hw & _ & Hbw).
    destruct (queue_ok_lookup _ s p Hok) as (w' & Hw' & Hr).
    - rewrite Hws. right. apply list_elem_of_lookup_2 in Hp.
      by apply (subseteq_take n rest).
    - unfold batch_in_range in Hr. simplify_eq. rewrite Hbw in Hr. lia. }
  assert (Hg : grown (ByteSize fb) bs = ByteSize fb + total_bytes bs).
  { apply (grown_total (max_size_of (ByteSize fb))); try done.
    intros k Hk. apply Hcap. lia. }
  assert (Htot : total_bytes (fb :: bs) = ByteSize fb + total_bytes bs)
    by reflexivity.
  assert (Hgrp : total_bytes (fb :: bs) = ByteSize fb
                 ∨ total_bytes (fb :: bs) ≤ max_size_of (ByteSize fb)).
  { destruct bs as [|b bs]; [left; unfold total_bytes; simpl; lia|].
    right. rewrite Htot, <- Hg.
    rewrite <- (firstn_all (b :: bs)) at 1. apply Hcap. simpl in *. lia. }
  cbv zeta. rewrite <- Hmax.
  split; [lia|]. split; [lia|].
  rewrite Htot, <- Hg.
  destruct (has_callback fw).
  { destruct Hst as [-> ->]. left. by destruct bs. }
  unfold stopped in Hst. destruct (rest !! n) as [q|]; [|by left].
  destruct Hst as (w & _ & [[_ ->]|(b & _ & _ & -> & Hlt)]); [by left|].
  by right.
Qed.

Lemma BuildBatchGroup_group_bytes_bounded_witness :
  ∃ (size' : Z) (last_writer : ptr) (bs : list WriteBatch) (s' : state),
    BuildBatchGroup [] absorption_queue
    = Some ((size', last_writer, [] ++ bs), s')
    ∧ let size := 51200 in
      let max_size :=
        if size <=? 128 * 1024 then size + 128 * 1024 else 1024 * 1024 in
      total_bytes bs ≤ Z.max size max_size
      ∧ (size ≤ 1024 * 1024 → total_bytes bs ≤ 1024 * 1024)
      ∧ (size' = total_bytes bs ∨ max_size < size').
Proof.
  apply (BuildBatchGroup_group_bytes_bounded
           [] absorption_queue 1%nat [2; 3; 4]%nat (plain_writer 51200 1)
           (mkBatch 51200 1)); reflexivity.
Defined.

(** C2 as stated fails: an initiator of 2 MiB gives a returned size above
    1 MiB, and an initiator of 200 KiB followed by 700 KiB gives 900 KiB,
    above [min (1 MiB, 200 KiB + 128 KiB)]. *)
Lemma BuildBatchGroup_exceeds_stated_cap :
  (∃ size' lw bs s',
      BuildBatchGroup [] large_head_queue = Some ((size', lw, bs), s')
      ∧ ¬ size' ≤ 1024 * 1024)
  ∧ (∃ size' lw bs s',
        BuildBatchGroup [] medium_head_queue = Some ((size', lw, bs), s')
        ∧ ¬ size' ≤ Z.min (1024 * 1024) (204800 + 128 * 1024)).
Proof.
  split.
  - exists 2097152, 1%nat, [mkBatch 2097152 1], large_head_queue.
    split; [by vm_compute|]. lia.
  - eexists 921600, 2%nat, _, _. split; [vm_compute; reflexivity|]. lia.
Qed.

(** *** StartParallelRun and ReportParallelRunFinish *)

Lemma ids_fit_ext (m m' : gmap ptr Writer) (group : list ptr) :
  (∀ p, batch <$> m' !! p = batch <$> m !! p) →
  ∀ pid, ids_fit m' group pid = ids_fit m group pid.
Proof.
  intros H. induction group as [|p group IH]; intros pid; [done|].
  simpl. specialize (H p).
  destruct (m' !! p) as [w'|], (m !! p) as [w|]; simpl in H; try done.
  injection H as H. rewrite H. destruct (batch w); [|done]. by rewrite IH.
Qed.

Lemma counts_ext (m m' : gmap ptr Writer) (ps : list ptr) :
  (∀ p, batch <$> m' !! p = batch <$> m !! p) →
  counts m' ps = counts m ps.
Proof.
  intros H. induction ps as [|p ps IH]; [done|].
  unfold counts in *. simpl. rewrite IH. f_equal.
  unfold count_at. specialize (H p).
  destruct (m' !! p) as [w'|], (m !! p) as [w|]; simpl in H; try done.
  injection H as H. simpl. by rewrite H.
Qed.

Lemma hand_out_run (w last_writer : ptr) (post : list ptr) :
  ∀ (pre : list ptr) (pid : Z) (s : state),
    writers_ s = pre ++ last_writer :: post →
    last_writer ∉ pre →
    NoDup pre →
    ids_fit (mem s) (pre ++ [last_writer]) pid = true →
    ∃ m',
      hand_out w last_writer (pre ++ last_writer :: post) pid s
      = Some (tt, mkState (last_writer :: post)
                          (parallel_writers_ s ++ pre ++ [last_writer])
                          (unfinished_threads_ s) m'
                          (reverse (filter (λ p, p ≠ w) (pre ++ [last_writer]))
                           ++ cv_signals s))
      ∧ numbered pid (pre ++ [last_writer]) (mem s) m'.
Proof.
  induction pre as [|p0 pre IH]; intros pid s Hws Hlw Hnd Hfit;
    destruct s as [ws ps u m sig]; simpl in *; subst ws.
  - destruct (m !! last_writer) as [wr|] eqn:Hwr; [|done].
    destruct (batch wr) as [b|] eqn:Hb; [|done].
    rewrite andb_true_r in Hfit.
    unfold bind, modify. simpl.
    erewrite update_Some by (simpl; eassumption). simpl.
    erewrite deref_Some by (simpl; apply lookup_insert_eq). simpl.
    rewrite Hb. simpl. rewrite Hfit. simpl.
    rewrite (bool_decide_eq_false_2 (last_writer ≠ last_writer)) by tauto.
    exists (<[last_writer := set_parallel_execute_id pid wr]> m).
    split.
    + rewrite filter_cons. destruct (decide (last_writer ≠ w)) as [Hw|Hw].
      * rewrite (bool_decide_eq_true_2 (last_writer ≠ w)) by done.
        erewrite Signal_Some by (simpl; apply lookup_insert_eq). reflexivity.
      * rewrite (bool_decide_eq_false_2 (last_writer ≠ w)) by done.
        reflexivity.
    + split.
      * intros [|k] p Hk; [|done]. simpl in Hk. injection Hk as <-.
        rewrite lookup_insert_eq, Hwr. simpl. unfold counts. simpl.
        by rewrite Z.add_0_r.
      * intros p Hp. rewrite lookup_insert_ne; [done|].
        intros ->. apply Hp. by left.
  - destruct (m !! p0) as [wr|] eqn:Hwr; [|done].
    destruct (batch wr) as [b|] eqn:Hb; [|done].
    apply andb_true_iff in Hfit as [Hrange Hfit].
    apply NoDup_cons in Hnd as [Hp0 Hnd].
    assert (Hne : p0 ≠ last_writer).
    { intros ->. apply Hlw. by left. }
    assert (Hlw' : last_writer ∉ pre).
    { intros Hin. apply Hlw. by right. }
    set (m1 := <[p0 := set_parallel_execute_id pid wr]> m).
    assert (Hbatch : ∀ p, batch <$> m1 !! p = batch <$> m !! p).
    { intros p. subst m1. destruct (decide (p = p0)) as [->|Hp].
      - by rewrite lookup_insert_eq, Hwr.
      - by rewrite lookup_insert_ne. }
    unfold bind, modify. simpl.
    erewrite update_Some by (simpl; eassumption). simpl.
    erewrite deref_Some by (simpl; apply lookup_insert_eq). simpl.
    rewrite Hb. simpl. rewrite Hrange. simpl.
    rewrite (bool_decide_eq_true_2 (p0 ≠ last_writer)) by done.
    fold m1.
    set (sig1 := if bool_decide (p0 ≠ w) then p0 :: sig else sig).
    destruct (IH (pid + Count b)
                 (mkState (pre ++ last_writer :: post) (ps ++ [p0]) u m1 sig1))
      as (m' & Hrun & Hnum & Hframe); simpl; try done.
    { by rewrite (ids_fit_ext m m1). }
    simpl in Hnum, Hframe.
    exists m'. split.
    + assert (Hstep :
        (if bool_decide (p0 ≠ w) then Signal p0 else ret tt)
          (mkState (p0 :: pre ++ last_writer :: post) (ps ++ [p0]) u m1 sig)
        = Some (tt, mkState (p0 :: pre ++ last_writer :: post) (ps ++ [p0])
                            u m1 sig1)).
      { subst sig1. case_bool_decide; [|done].
        erewrite Signal_Some by (simpl; apply lookup_insert_eq).
        reflexivity. }
      rewrite Hstep. simpl. unfold bind, modify in Hrun. simpl in Hrun.
      rewrite Hrun. simpl. do 2 f_equal. f_equal.
      { by rewrite <- app_assoc. }
      subst sig1. rewrite filter_cons.
      destruct (decide (p0 ≠ w)) as [Hd|Hd].
      * rewrite (bool_decide_eq_true_2 (p0 ≠ w)) by done.
        by rewrite reverse_cons, <- app_assoc.
      * by rewrite (bool_decide_eq_false_2 (p0 ≠ w)) by done.
    + split.
      * intros [|k] p Hk; simpl in Hk.
        -- injection Hk as <-. rewrite Hframe.
           ++ subst m1. rewrite lookup_insert_eq, Hwr. simpl.
              unfold counts. simpl. by rewrite Z.add_0_r.
           ++ rewrite elem_of_app, list_elem_of_singleton. tauto.
        -- rewrite (Hnum k p Hk). rewrite (counts_ext m m1) by done.
           assert (p ≠ p0).
           { intros ->. apply list_elem_of_lookup_2 in Hk.
             rewrite elem_of_app, list_elem_of_singleton in Hk. tauto. }
           subst m1. rewrite lookup_insert_ne by done.
           simpl take. unfold counts at 2. simpl. fold (counts m (take k (pre ++ [last_writer]))).
           unfold count_at. rewrite Hwr. simpl. rewrite Hb. simpl.
           by rewrite Z.add_assoc.
      * intros p Hp. rewrite Hframe.
        -- subst m1. rewrite lookup_insert_ne; [done|].
           intros ->. apply Hp. by left.
        -- intros Hin. apply Hp. by right.
Qed.

Lemma update_inv (p : ptr) (f : Writer → Writer) (s : state)
      (r : unit * state) :
  update p f s = Some r →
  ∃ w, mem s !! p = Some w ∧ r = (tt, with_mem (<[p := f w]> (mem s)) s).
Proof.
  unfold update. intros H. apply bind_inv in H as (w & s1 & H1 & H2).
  apply deref_inv in H1 as [H1 ->]. unfold modify in H2. exists w.
  split; [done|]. by injection H2 as <-.
Qed.

Lemma Signal_inv (p : ptr) (s : state) (r : unit * state) :
  Signal p s = Some r → is_Some (mem s !! p) ∧ r = (tt, with_signal p s).
Proof.
  unfold Signal. intros H. apply bind_inv in H as (w & s1 & H1 & H2).
  apply deref_inv in H1 as [H1 ->]. unfold modify in H2.
  split; [eauto|]. by injection H2 as <-.
Qed.

(** The loop moves at least one writer to [parallel_writers_] and leaves the
    counter alone. *)
Lemma hand_out_moves (w last_writer : ptr) (ws : list ptr) :
  ∀ (pid : Z) (s s' : state),
    hand_out w last_writer ws pid s = Some (tt, s') →
    unfinished_threads_ s' = unfinished_threads_ s
    ∧ (length (parallel_writers_ s) + (if ws is [] then 0 else 1)
       ≤ length (parallel_writers_ s'))%nat.
Proof.
  induction ws as [|p ws IH]; intros pid s s' H; simpl in H.
  { unfold ret in H. simplify_eq. simpl. lia. }
  apply bind_inv in H as ([] & s1 & H1 & H).
  unfold modify in H1. simplify_eq.
  apply bind_inv in H as ([] & s2 & H2 & H).
  apply update_inv in H2 as (wr & _ & ?). simplify_eq.
  apply bind_inv in H as (pw & s3 & H3 & H).
  apply deref_inv in H3 as [_ ?]. subst s3.
  apply bind_inv in H as (b & s4 & H4 & H).
  apply lift_inv in H4 as (b' & _ & ?). simplify_eq.
  apply bind_inv in H as ([] & s5 & H5 & H).
  apply assert_inv in H5 as [_ ?]. simplify_eq.
  apply bind_inv in H as ([] & s6 & H6 & H).
  assert (Hs6 : unfinished_threads_ s6 = unfinished_threads_ s
                ∧ parallel_writers_ s6 = parallel_writers_ s ++ [p]).
  { destruct (bool_decide (p ≠ w)).
    - apply Signal_inv in H6 as [_ ?]. by simplify_eq.
    - unfold ret in H6. by simplify_eq. }
  destruct Hs6 as [Hu Hp].
  destruct (bool_decide (p ≠ last_writer)).
  - apply bind_inv in H as ([] & s7 & H7 & H).
    unfold modify in H7. simplify_eq.
    apply IH in H as [Hu' Hp']. simpl in *. rewrite Hu', Hu. split; [done|].
    rewrite Hp, length_app in Hp'. simpl in Hp'. lia.
  - unfold ret in H. simplify_eq. rewrite Hu, Hp, length_app. simpl.
    split; [done|lia].
Qed.

Lemma ReportParallelRunFinish_run (s : state) :
  ReportParallelRunFinish s
  = Some (unfinished_threads_ s =? 1,
          with_unfinished (wrap32 (unfinished_threads_ s - 1)) s).
Proof.
  unfold ReportParallelRunFinish, bind, gets, modify, ret. simpl.
  do 3 f_equal. unfold wrap32.
  replace (unfinished_threads_ s + (2 ^ 32 - 1))
    with (unfinished_threads_ s - 1 + 1 * 2 ^ 32) by lia.
  by rewrite Z.mod_add.
Qed.

Lemma report_times_run (k : nat) :
  ∀ s, unfinished_threads_ s = Z.of_nat (S k) →
       Z.of_nat (S k) < 2 ^ 32 →
       report_times (S k) s
       = Some (replicate k false ++ [true], with_unfinished 0 s).
Proof.
  induction k as [|k IH]; intros s Hu Hlt.
  - cbn [report_times]. unfold bind. rewrite ReportParallelRunFinish_run.
    rewrite Hu. simpl. unfold ret. by destruct s.
  - change (report_times (S (S k)))
      with (r <- ReportParallelRunFinish ;;
            rs <- report_times (S k) ;; ret (r :: rs)).
    unfold bind at 1. rewrite ReportParallelRunFinish_run.
    unfold bind. rewrite IH.
    + unfold ret. simpl. rewrite Hu.
      by rewrite (proj2 (Z.eqb_neq (Z.of_nat (S (S k))) 1)) by lia.
    + simpl. rewrite Hu. unfold wrap32. rewrite Z.mod_small; lia.
    + lia.
Qed.

Example parallel_run_ids :
  ∃ s', StartParallelRun 1%nat 3 3%nat parallel_queue = Some (tt, s')
        ∧ parallel_writers_ s' = [1; 2; 3]%nat
        ∧ writers_ s' = [3; 4]%nat
        ∧ (λ p, parallel_execute_id <$> mem s' !! p) <$> [1; 2; 3; 4]%nat
          = [Some 1; Some 4; Some 6; Some 0]
        ∧ cv_signals s' = [3; 2]%nat.
Proof. eexists. split; [vm_compute; reflexivity|]. by vm_compute. Qed.

Lemma StartParallelRun_run (w : ptr) (num_threads : Z) (last_writer : ptr)
      (s : state) (pre post : list ptr) :
  unfinished_threads_ s = 0 →
  writers_ s = pre ++ last_writer :: post →
  last_writer ∉ pre →
  NoDup pre →
  ids_fit (mem s) (pre ++ [last_writer]) 1 = true →
  ∃ m',
    numbered 1 (pre ++ [last_writer]) (mem s) m'
    ∧ StartParallelRun w num_threads last_writer s
      = if num_threads
           =? Z.of_nat (length (parallel_writers_ s ++ pre ++ [last_writer]))
        then Some (tt, mkState (last_writer :: post)
                               (parallel_writers_ s ++ pre ++ [last_writer])
                               num_threads m'
                               (reverse (filter (λ p, p ≠ w)
                                                (pre ++ [last_writer]))
                                ++ cv_signals s))
        else None.
Proof.
  intros Hu Hws Hlw Hnd Hfit.
  destruct s as [ws ps u m sig]; simpl in *; subst ws u.
  destruct (hand_out_run w last_writer post pre 1
              (mkState (pre ++ last_writer :: post) ps num_threads m sig))
    as (m' & Hrun & Hnum); try done.
  exists m'. split; [done|].
  unfold StartParallelRun, bind, gets, modify. simpl.
  rewrite Hrun. simpl.
  by destruct (_ =? _).
Qed.

(** C5: with [unfinished_threads_ == 0], the leader at the head and
    [last_writer] in the queue behind the writers [pre] of its group (distinct
    writers with batches), StartParallelRun returns when [num_threads] is the
    size of the group added to [parallel_writers_], and whenever it returns:
    [parallel_writers_.size() == num_threads],
    [parallel_writers_.back() == writers_.front() == last_writer], the
    writers behind [last_writer] stay queued, the counter is [num_threads],
    the k-th writer of the group has parallel_execute_id 1 plus the batch
    counts of the writers before it, and every writer but the leader is
    signalled. *)
Theorem StartParallelRun_postcondition
        (w : ptr) (num_threads : Z) (last_writer : ptr) (s : state)
        (pre post : list ptr) :
  unfinished_threads_ s = 0 →
  head (writers_ s) = Some w →
  writers_ s = pre ++ last_writer :: post →
  last_writer ∉ pre →
  NoDup pre →
  ids_fit (mem s) (pre ++ [last_writer]) 1 = true →
  (num_threads
   = Z.of_nat (length (parallel_writers_ s ++ pre ++ [last_writer])) →
   is_Some (StartParallelRun w num_threads last_writer s))
  ∧ ∀ s', StartParallelRun w num_threads last_writer s = Some (tt, s') →
          Z.of_nat (length (parallel_writers_ s')) = num_threads
          ∧ last (parallel_writers_ s') = Some last_writer
          ∧ head (writers_ s') = Some last_writer
          ∧ writers_ s' = last_writer :: post
          ∧ parallel_writers_ s'
            = parallel_writers_ s ++ pre ++ [last_writer]
          ∧ unfinished_threads_ s' = num_threads
          ∧ (∀ k p, (pre ++ [last_writer]) !! k = Some p →
                    parallel_execute_id <$> mem s' !! p
                    = Some (1 + counts (mem s)
                                       (take k (pre ++ [last_writer]))))
          ∧ cv_signals s'
            = reverse (filter (λ p, p ≠ w) (pre ++ [last_writer]))
              ++ cv_signals s.
Proof.
  intros Hu _ Hws Hlw Hnd Hfit.
  destruct (StartParallelRun_run w num_threads last_writer s pre post)
    as (m' & [Hnum _] & Hrun); try done.
  rewrite Hrun. split.
  { intros ->. rewrite Z.eqb_refl. eauto. }
  intros s'. destruct (_ =? _) eqn:E; [|done]. intros [= <-]. simpl.
  apply Z.eqb_eq in E.
  split; [done|].
  split; [by rewrite !app_assoc, last_snoc|].
  repeat (split; [done|]).
  split; [|done].
  intros k p Hk. rewrite (Hnum k p Hk).
  assert (is_Some (mem s !! p)) as [wr ->]; [|done].
  clear -Hfit Hk. apply list_elem_of_lookup_2 in Hk.
  revert Hfit. generalize 1. induction (pre ++ [last_writer]) as [|q l IH];
    intros pid Hfit; [by apply elem_of_nil in Hk|].
  simpl in Hfit. destruct (mem s !! q) as [wq|] eqn:Hq; [|done].
  destruct (batch wq); [|done]. apply andb_true_iff in Hfit as [_ Hfit].
  apply elem_of_cons in Hk as [->|Hk]; [by rewrite Hq|]. eauto.
Qed.

Lemma StartParallelRun_postcondition_witness :
  (3 = Z.of_nat (length ([] ++ [1; 2] ++ [3]))%nat →
   is_Some (StartParallelRun 1%nat 3 3%nat parallel_queue))
  ∧ ∀ s', StartParallelRun 1%nat 3 3%nat parallel_queue = Some (tt, s') →
          Z.of_nat (length (parallel_writers_ s')) = 3
          ∧ last (parallel_writers_ s') = Some 3%nat
          ∧ head (writers_ s') = Some 3%nat
          ∧ writers_ s' = [3; 4]%nat
          ∧ parallel_writers_ s' = [] ++ [1; 2]%nat ++ [3%nat]
          ∧ unfinished_threads_ s' = 3
          ∧ (∀ k p, ([1; 2] ++ [3])%nat !! k = Some p →
                    parallel_execute_id <$> mem s' !! p
                    = Some (1 + counts (mem parallel_queue)
                                       (take k ([1; 2] ++ [3])%nat)))
          ∧ cv_signals s'
            = reverse (filter (λ p, p ≠ 1%nat) ([1; 2] ++ [3])%nat) ++ [].
Proof.
  apply (StartParallelRun_postcondition 1%nat 3 3%nat parallel_queue
                                        [1; 2]%nat [4%nat]);
    try reflexivity.
  - apply (bool_decide_unpack _). vm_compute. exact I.
  - apply (bool_decide_unpack _). vm_compute. exact I.
Defined.

Lemma StartParallelRun_inv (w : ptr) (num_threads : Z) (last_writer : ptr)
      (s s1 : state) :
  StartParallelRun w num_threads last_writer s = Some (tt, s1) →
  unfinished_threads_ s1 = num_threads
  ∧ num_threads = Z.of_nat (length (parallel_writers_ s1))
  ∧ (writers_ s ≠ [] → (1 ≤ length (parallel_writers_ s1))%nat).
Proof.
  intros Hrun. unfold StartParallelRun in Hrun.
  apply bind_inv in Hrun as (u & s2 & H2 & Hrun).
  unfold gets in H2. simplify_eq.
  apply bind_inv in Hrun as ([] & s3 & H3 & Hrun).
  apply assert_inv in H3 as [_ ?]. simplify_eq.
  apply bind_inv in Hrun as ([] & s4 & H4 & Hrun).
  unfold modify in H4. simplify_eq.
  apply bind_inv in Hrun as (ws & s5 & H5 & Hrun).
  unfold gets in H5. simplify_eq.
  apply bind_inv in Hrun as ([] & s6 & H6 & Hrun).
  apply hand_out_moves in H6 as [Hu Hlen]. simpl in Hu, Hlen.
  apply bind_inv in Hrun as (ps & s7 & H7 & Hrun).
  unfold gets in H7. simplify_eq.
  apply assert_inv in Hrun as [Heq ?]. simplify_eq.
  apply Z.eqb_eq in Heq.
  split; [done|]. split; [done|].
  intros Hne. destruct (writers_ _); [done|]. lia.
Qed.

(** C8: ReportParallelRunFinish takes one from [unfinished_threads_] and
    returns true exactly when the counter was 1, that is when this call moved
    it to 0; of the [num_threads] calls that follow a StartParallelRun all
    return false but the last, which returns true. *)
Theorem ReportParallelRunFinish_true_exactly_once
        (w : ptr) (num_threads : Z) (last_writer : ptr) (s s1 : state) :
  writers_ s ≠ [] →
  0 ≤ num_threads < 2 ^ 32 →
  StartParallelRun w num_threads last_writer s = Some (tt, s1) →
  (∀ s0, ∃ r s0',
      ReportParallelRunFinish s0 = Some (r, s0')
      ∧ s0' = with_unfinished (wrap32 (unfinished_threads_ s0 - 1)) s0
      ∧ (r = true ↔ unfinished_threads_ s0 = 1 ∧ unfinished_threads_ s0' = 0))
  ∧ ∃ k, num_threads = Z.of_nat (S k)
         ∧ report_times (S k) s1
           = Some (replicate k false ++ [true], with_unfinished 0 s1).
Proof.
  intros Hne Hrange Hrun. split.
  { intros s0. eexists _, _. split; [apply ReportParallelRunFinish_run|].
    split; [done|]. simpl. rewrite Z.eqb_eq. split; [|tauto].
    intros ->. done. }
  destruct (StartParallelRun_inv _ _ _ _ _ Hrun) as (Hu & Hn & Hpos).
  specialize (Hpos Hne).
  destruct (length (parallel_writers_ s1)) as [|k] eqn:Hk; [lia|].
  exists k. split; [done|].
  apply report_times_run; lia.
Qed.

Lemma ReportParallelRunFinish_true_exactly_once_witness :
  (∀ s0, ∃ r s0',
      ReportParallelRunFinish s0 = Some (r, s0')
      ∧ s0' = with_unfinished (wrap32 (unfinished_threads_ s0 - 1)) s0
      ∧ (r = true ↔ unfinished_threads_ s0 = 1 ∧ unfinished_threads_ s0' = 0))
  ∧ ∃ k, 3 = Z.of_nat (S k)
         ∧ report_times (S k)
             (mkState [3; 4]%nat [1; 2; 3]%nat 3
                (list_to_map
                   [(1%nat, set_parallel_execute_id 1 (plain_writer 100 3));
                    (2%nat, set_parallel_execute_id 4 (plain_writer 200 2));
                    (3%nat, set_parallel_execute_id 6 (plain_writer 300 5));
                    (4%nat, plain_writer 50 1)])
                [3; 2]%nat)
           = Some (replicate k false ++ [true],
                   with_unfinished 0
                     (mkState [3; 4]%nat [1; 2; 3]%nat 3
                        (list_to_map
                           [(1%nat,
                             set_parallel_execute_id 1 (plain_writer 100 3));
                            (2%nat,
                             set_parallel_execute_id 4 (plain_writer 200 2));
                            (3%nat,
                             set_parallel_execute_id 6 (plain_writer 300 5));
                            (4%nat, plain_writer 50 1)])
                        [3; 2]%nat)).
Proof.
  apply (ReportParallelRunFinish_true_exactly_once
           1%nat 3 3%nat parallel_queue).
  - discriminate.
  - lia.
  - vm_compute. reflexivity.
Defined.

(** *** ExitWriteThread *)

Lemma pop_ready_run (w last_writer : ptr) (st : Status) (post : list ptr) :
  ∀ (pre : list ptr) (s : state),
    last_writer ∉ pre →
    (∀ p, p ∈ pre ++ [last_writer] → is_Some (mem s !! p)) →
    ∃ m',
      pop_ready w last_writer st (pre ++ last_writer :: post) s
      = Some (tt, mkState post (parallel_writers_ s) (unfinished_threads_ s)
                          m'
                          (reverse (filter (λ p, p ≠ w) (pre ++ [last_writer]))
                           ++ cv_signals s))
      ∧ finished st w (pre ++ [last_writer]) (mem s) m'.
Proof.
  induction pre as [|p0 pre IH]; intros s Hlw Hlive;
    destruct s as [ws ps u m sig]; simpl in *.
  - destruct (Hlive last_writer) as [wr Hwr]; [by left|].
    unfold bind, modify. simpl.
    rewrite (bool_decide_eq_true_2 (last_writer = last_writer)) by done.
    rewrite filter_cons.
    destruct (decide (last_writer ≠ w)) as [Hw|Hw].
    + rewrite (bool_decide_eq_true_2 (last_writer ≠ w)) by done.
      erewrite update_Some by (simpl; eassumption). simpl.
      erewrite update_Some by (simpl; apply lookup_insert_eq). simpl.
      erewrite Signal_Some by (simpl; apply lookup_insert_eq). simpl.
      eexists. split; [reflexivity|].
      intros p. rewrite insert_insert_eq.
      destruct (decide (p = last_writer)) as [->|Hp].
      * rewrite lookup_insert_eq, Hwr.
        rewrite bool_decide_eq_true_2; [done|]. split; [by left|done].
      * rewrite lookup_insert_ne by done.
        rewrite bool_decide_eq_false_2; [done|].
        rewrite list_elem_of_singleton. tauto.
    + rewrite (bool_decide_eq_false_2 (last_writer ≠ w)) by done.
      exists m. split; [reflexivity|].
      intros p. rewrite bool_decide_eq_false_2; [done|].
      rewrite list_elem_of_singleton. intros [-> ?]. done.
  - assert (Hne : p0 ≠ last_writer).
    { intros ->. apply Hlw. by left. }
    destruct (Hlive p0) as [wr Hwr]; [by left|].
    unfold bind, modify. simpl.
    rewrite (bool_decide_eq_false_2 (p0 = last_writer)) by done.
    set (m1 := if bool_decide (p0 ≠ w) then <[p0 := finish st wr]> m else m).
    set (sig1 := if bool_decide (p0 ≠ w) then p0 :: sig else sig).
    assert (Hm1 : ∀ p, m1 !! p = if bool_decide (p = p0 ∧ p ≠ w)
                                 then finish st <$> m !! p else m !! p).
    { intros p. subst m1. destruct (decide (p0 ≠ w)) as [Hw|Hw].
      - rewrite (bool_decide_eq_true_2 (p0 ≠ w)) by done.
        destruct (decide (p = p0)) as [->|Hp].
        + rewrite lookup_insert_eq, Hwr. by rewrite bool_decide_eq_true_2.
        + rewrite lookup_insert_ne by done.
          rewrite bool_decide_eq_false_2; [done|]. tauto.
      - rewrite (bool_decide_eq_false_2 (p0 ≠ w)) by done.
        rewrite bool_decide_eq_false_2; [done|]. intros [-> ?]. done. }
    destruct (IH (mkState (pre ++ last_writer :: post) ps u m1 sig1))
      as (m' & Hrun & Hfin); simpl.
    { intros Hin. apply Hlw. by right. }
    { intros p Hp. rewrite Hm1. destruct (Hlive p) as [x Hx]; [by right|].
      rewrite Hx. case_bool_decide; simpl; eauto. }
    simpl in Hfin. exists m'.
    split.
    + clear Hm1 Hfin. subst m1 sig1. rewrite filter_cons.
      destruct (decide (p0 ≠ w)) as [Hd|Hd].
      * rewrite (bool_decide_eq_true_2 (p0 ≠ w)) in Hrun |- * by done.
        erewrite update_Some by (simpl; eassumption). simpl.
        erewrite update_Some by (simpl; apply lookup_insert_eq). simpl.
        erewrite Signal_Some by (simpl; apply lookup_insert_eq). simpl.
        rewrite insert_insert_eq. unfold finish in Hrun. rewrite Hrun.
        by rewrite reverse_cons, <- app_assoc.
      * rewrite (bool_decide_eq_false_2 (p0 ≠ w)) in Hrun |- * by done.
        simpl. by rewrite Hrun.
    + intros p. rewrite (Hfin p), (Hm1 p).
      assert (Hc : p ∈ p0 :: pre ++ [last_writer]
                   ↔ p = p0 ∨ p ∈ pre ++ [last_writer]) by apply elem_of_cons.
      repeat case_bool_decide; try tauto; by destruct (m !! p).
Qed.

Example exit_absorbed :
  ∃ s', ExitWriteThread 1%nat 3%nat IOError absorbed_queue = Some (tt, s')
        ∧ writers_ s' = [4%nat]
        ∧ (λ p, (λ w, (status w, done w)) <$> mem s' !! p)
            <$> [1; 2; 3; 4]%nat
          = [Some (OK, false); Some (IOError, true); Some (IOError, true);
             Some (OK, false)]
        ∧ cv_signals s' = [4; 3; 2]%nat.
Proof. eexists. split; [vm_compute; reflexivity|]. by vm_compute. Qed.

(** C7: ExitWriteThread pops the writers from the head up to and including
    [last_writer]; each of them other than [w] gets [status], [done = true]
    and a signal on its cv, [w] and the writers left in the queue are not
    touched; at the end the new head, if there is one, is signalled. *)
Theorem ExitWriteThread_pops_and_signals
        (w last_writer : ptr) (st : Status) (s : state)
        (pre post : list ptr) :
  writers_ s = pre ++ last_writer :: post →
  last_writer ∉ pre →
  queue_ok live s = true →
  ∃ s',
    ExitWriteThread w last_writer st s = Some (tt, s')
    ∧ writers_ s' = post
    ∧ finished st w (pre ++ [last_writer]) (mem s) (mem s')
    ∧ (∀ p, p ∈ pre ++ [last_writer] → p ≠ w →
            ∃ wr, mem s' !! p = Some wr ∧ status wr = st ∧ done wr = true)
    ∧ mem s' !! w = mem s !! w
    ∧ cv_signals s'
      = (if post is h :: _ then [h] else [])
        ++ reverse (filter (λ p, p ≠ w) (pre ++ [last_writer]))
        ++ cv_signals s
    ∧ parallel_writers_ s' = parallel_writers_ s
    ∧ unfinished_threads_ s' = unfinished_threads_ s.
Proof.
  intros Hws Hlw Hok.
  assert (Hlive : ∀ p, p ∈ writers_ s → is_Some (mem s !! p)).
  { intros p Hp. destruct (queue_ok_lookup live s p Hok Hp) as (x & -> & _).
    eauto. }
  destruct (pop_ready_run w last_writer st post pre s Hlw)
    as (m' & Hrun & Hfin).
  { intros p Hp. apply Hlive. rewrite Hws.
    rewrite elem_of_app, list_elem_of_singleton in Hp.
    rewrite elem_of_app, elem_of_cons. tauto. }
  assert (Hfacts :
    (∀ p, p ∈ pre ++ [last_writer] → p ≠ w →
          ∃ wr, m' !! p = Some wr ∧ status wr = st ∧ done wr = true)
    ∧ m' !! w = mem s !! w).
  { split.
    - intros p Hp Hpw. rewrite (Hfin p), bool_decide_eq_true_2 by done.
      destruct (Hlive p) as [x ->]; [|by exists (finish st x)].
      rewrite Hws. rewrite elem_of_app, list_elem_of_singleton in Hp.
      rewrite elem_of_app, elem_of_cons. tauto.
    - rewrite (Hfin w), bool_decide_eq_false_2; [done|tauto]. }
  destruct Hfacts as [Hdone Hw].
  unfold ExitWriteThread, bind, gets. rewrite Hws, Hrun.
  unfold signal_front, bind, gets, front. simpl.
  destruct post as [|h post].
  - simpl. unfold ret. eexists. split; [reflexivity|]. simpl. done.
  - simpl.
    assert (is_Some (m' !! h)) as [x Hx].
    { rewrite (Hfin h). destruct (Hlive h) as [y ->].
      - rewrite Hws, elem_of_app, !elem_of_cons. tauto.
      - case_bool_decide; simpl; eauto. }
    erewrite Signal_Some by (simpl; eassumption).
    eexists. split; [reflexivity|]. simpl. done.
Qed.

Lemma ExitWriteThread_pops_and_signals_witness :
  ∃ s',
    ExitWriteThread 1%nat 3%nat IOError absorbed_queue = Some (tt, s')
    ∧ writers_ s' = [4%nat]
    ∧ finished IOError 1%nat ([1; 2] ++ [3])%nat (mem absorbed_queue) (mem s')
    ∧ (∀ p, p ∈ ([1; 2] ++ [3])%nat → p ≠ 1%nat →
            ∃ wr, mem s' !! p = Some wr ∧ status wr = IOError
                  ∧ done wr = true)
    ∧ mem s' !! 1%nat = mem absorbed_queue !! 1%nat
    ∧ cv_signals s'
      = [4%nat]
        ++ reverse (filter (λ p, p ≠ 1%nat) ([1; 2] ++ [3])%nat)
        ++ cv_signals absorbed_queue
    ∧ parallel_writers_ s' = parallel_writers_ absorbed_queue
    ∧ unfinished_threads_ s' = unfinished_threads_ absorbed_queue.
Proof.
  apply (ExitWriteThread_pops_and_signals
           1%nat 3%nat IOError absorbed_queue [1; 2]%nat [4%nat]);
    try reflexivity.
  apply (bool_decide_unpack _). vm_compute. exact I.
Defined.

(** *** EnterWriteThread *)

Lemma still_waiting_state (w : ptr) (s s1 : state) (b : bool) :
  still_waiting w s = Some (b, s1) → s1 = s.
Proof.
  unfold still_waiting. intros H.
  apply bind_inv in H as (wr & s2 & H1 & H).
  apply deref_inv in H1 as [_ ->].
  destruct (negb (done wr) && (parallel_execute_id wr <=? 0)).
  - apply bind_inv in H as (f & s3 & H3 & H). unfold front in H3.
    apply lift_inv in H3 as (h & _ & ?). unfold ret in H. by simplify_eq.
  - unfold ret in H. by simplify_eq.
Qed.

(** An untimed wait never ends in a timeout. *)
Lemma wait_loop_untimed (w : ptr) (wakes : list wake) :
  ∀ s s', wait_loop w 0 wakes s ≠ Returns true s'.
Proof.
  induction wakes as [|k wakes IH]; intros s s'; simpl;
    destruct (still_waiting w s) as [[[] s1]|]; try done; try apply IH.
Qed.

(** A timeout is the first expired timed wait, met with [in_batch_group]
    false. *)
Lemma wait_loop_timed_out (w : ptr) (expiration_time : Z)
      (wakes : list wake) :
  ∀ s s',
    wait_loop w expiration_time wakes s = Returns true s' →
    expiration_time ≠ 0
    ∧ ∃ pre k post wr,
        wakes = pre ++ k :: post
        ∧ Forall (λ k', expired k' = false) pre
        ∧ expired k = true
        ∧ s' = woken (pre ++ [k]) s
        ∧ mem s' !! w = Some wr
        ∧ in_batch_group wr = false.
Proof.
  induction wakes as [|k wakes IH]; intros s s'; simpl;
    destruct (still_waiting w s) as [[[] s1]|] eqn:Hsw; try done.
  apply still_waiting_state in Hsw as ->.
  destruct (expiration_time =? 0) eqn:E0.
  { apply Z.eqb_eq in E0 as ->. intros H. by apply wait_loop_untimed in H. }
  apply Z.eqb_neq in E0.
  destruct (expired k) eqn:Ek.
  - destruct (deref w (interference k s)) as [[wr s2]|] eqn:Hd; [|done].
    apply deref_inv in Hd as [Hwr ->].
    destruct (in_batch_group wr) eqn:Hg.
    + intros H. by apply wait_loop_untimed in H.
    + intros [= <-]. split; [done|].
      exists [], k, wakes, wr. repeat split; done.
  - intros H.
    apply IH in H as (_ & pre & k' & post & wr & -> & ? & ? & ? & ? & ?).
    split; [done|]. exists (k :: pre), k', post, wr.
    repeat split; try done. by constructor.
Qed.

Lemma elem_of_erase_first (w p : ptr) (ws : list ptr) :
  p ∈ erase_first w ws → p ∈ ws.
Proof.
  induction ws as [|q ws IH]; simpl; [done|].
  case_bool_decide; rewrite !elem_of_cons; tauto.
Qed.

Lemma erase_first_NoDup (w : ptr) (ws : list ptr) :
  NoDup ws → (w ∉ erase_first w ws) ∧ NoDup (erase_first w ws).
Proof.
  induction 1 as [|q ws Hq Hnd IH]; simpl.
  { split; [apply not_elem_of_nil|constructor]. }
  case_bool_decide as Hqw.
  - subst q. done.
  - destruct IH as [IH1 IH2]. split.
    + rewrite elem_of_cons. intros [->|?]; tauto.
    + constructor; [|done]. intros Hin. by apply elem_of_erase_first in Hin.
Qed.

Lemma leave_timed_out_inv (w : ptr) (s s' : state) (st : Status) :
  leave_timed_out w s = Some (st, s') →
  st = TimedOut
  ∧ w ∈ writers_ s
  ∧ writers_ s' = erase_first w (writers_ s)
  ∧ mem s' = mem s
  ∧ cv_signals s' = (if writers_ s' is h :: _ then [h] else [])
                    ++ cv_signals s.
Proof.
  destruct s as [ws ps u m sig].
  unfold leave_timed_out, bind, gets, modify, signal_front, bind, gets, front.
  simpl. destruct (decide (w ∈ ws)) as [Hin|Hin].
  2:{ by rewrite bool_decide_eq_false_2 by done. }
  rewrite bool_decide_eq_true_2 by done. simpl.
  destruct (erase_first w ws) as [|h t] eqn:He; simpl.
  - unfold ret. intros ?. by simplify_eq.
  - destruct (Signal h (mkState (h :: t) ps u m sig)) as [[[] s1]|] eqn:Hs;
      [|done].
    apply Signal_inv in Hs as [_ ?]. unfold ret. intros ?. by simplify_eq.
Qed.

Lemma leave_timed_out_run (w : ptr) (s : state) :
  w ∈ writers_ s →
  queue_ok live s = true →
  ∃ s', leave_timed_out w s = Some (TimedOut, s')
        ∧ queue_ok live s' = true.
Proof.
  intros Hin Hok.
  assert (Hlive : ∀ p, p ∈ erase_first w (writers_ s) →
                       is_Some (mem s !! p)).
  { intros p Hp. apply elem_of_erase_first in Hp.
    destruct (queue_ok_lookup live s p Hok Hp) as (x & -> & _). eauto. }
  assert (Hok' : ∀ sig, queue_ok live
                   (mkState (erase_first w (writers_ s)) (parallel_writers_ s)
                            (unfinished_threads_ s) (mem s) sig) = true).
  { intros sig. unfold queue_ok. simpl. apply forallb_forall.
    intros p Hp. apply list_elem_of_In in Hp.
    by destruct (Hlive p Hp) as [x ->]. }
  unfold leave_timed_out, bind, gets, modify. simpl.
  rewrite bool_decide_eq_true_2 by done. simpl.
  unfold signal_front, bind, gets, front. simpl.
  destruct (erase_first w (writers_ s)) as [|h t] eqn:He; simpl.
  - unfold ret. eexists. split; [reflexivity|]. apply Hok'.
  - destruct (Hlive h) as [x Hx]; [by left|].
    erewrite Signal_Some by (simpl; eassumption). simpl.
    unfold ret. eexists. split; [reflexivity|]. apply Hok'.
Qed.

Lemma after_wait_TimedOut (w : ptr) (timed_out : bool) (s s' : state) :
  after_wait w timed_out s = Some (TimedOut, s') →
  timed_out = true ∧ leave_timed_out w s = Some (TimedOut, s').
Proof.
  unfold after_wait. intros H.
  apply bind_inv in H as (wr & s1 & H1 & H).
  apply deref_inv in H1 as [_ ->].
  destruct (negb (done wr) && (0 <? parallel_execute_id wr)); [done|].
  by destruct timed_out.
Qed.

Lemma EnterWriteThread_TimedOut (w : ptr) (expiration_time : Z)
      (wakes : list wake) (s s' : state) :
  EnterWriteThread w expiration_time wakes s = Returns TimedOut s' →
  ∃ s_t,
    wait_loop w expiration_time wakes (with_writers (writers_ s ++ [w]) s)
    = Returns true s_t
    ∧ leave_timed_out w s_t = Some (TimedOut, s').
Proof.
  unfold EnterWriteThread.
  destruct (wait_loop _ _ _ _) as [t s_t| |]; [|done..].
  destruct (after_wait w t s_t) as [[st s1]|] eqn:Ha; [|done].
  intros [= -> ->]. apply after_wait_TimedOut in Ha as [-> Ha]. eauto.
Qed.

Lemma first_expired_unique (pre pre' post post' : list wake) (k k' : wake) :
  pre ++ k :: post = pre' ++ k' :: post' →
  Forall (λ x, expired x = false) pre →
  Forall (λ x, expired x = false) pre' →
  expired k = true → expired k' = true →
  pre = pre' ∧ k = k'.
Proof.
  revert pre'. induction pre as [|x pre IH]; intros [|x' pre'] Heq Hp Hp' Hk Hk';
    simpl in Heq; simplify_eq.
  - done.
  - apply Forall_cons in Hp' as [Hx _]. congruence.
  - apply Forall_cons in Hp as [Hx _]. congruence.
  - apply Forall_cons in Hp as [_ Hp]. apply Forall_cons in Hp' as [_ Hp'].
    destruct (IH pre' H0 Hp Hp' Hk Hk') as [-> ->]. done.
Qed.

Lemma woken_snoc (pre : list wake) (k : wake) (s : state) :
  woken (pre ++ [k]) s = interference k (woken pre s).
Proof. unfold woken. by rewrite foldl_snoc. Qed.

Example absorbed_writer_returns_OK :
  ∃ s', EnterWriteThread 2%nat 1000 absorbed_then_done leader_running
        = Returns OK s'
        ∧ writers_ s' = []
        ∧ done <$> mem s' !! 2%nat = Some true.
Proof. eexists. split; [vm_compute; reflexivity|]. by vm_compute. Qed.

Example follower_times_out :
  ∃ s', EnterWriteThread 2%nat 1000 stalled_leader three_writers
        = Returns TimedOut s'
        ∧ writers_ s' = [1; 3]%nat
        ∧ cv_signals s' = [1%nat].
Proof. eexists. split; [vm_compute; reflexivity|]. by vm_compute. Qed.

(** C4: EnterWriteThread returns TimedOut only with a non-zero
    [expiration_time] and a timed wait that expired while [in_batch_group]
    was false; when the first expired timed wait finds [in_batch_group] true
    the loop goes on with [expiration_time = 0], and the call does not
    return TimedOut. *)
Theorem EnterWriteThread_timed_out_only_as_follower
        (w : ptr) (expiration_time : Z) (wakes : list wake) (s : state) :
  let s0 := with_writers (writers_ s ++ [w]) s in
  (∀ s', EnterWriteThread w expiration_time wakes s = Returns TimedOut s' →
         expiration_time ≠ 0
         ∧ ∃ pre k post wr,
             wakes = pre ++ k :: post
             ∧ Forall (λ k', expired k' = false) pre
             ∧ expired k = true
             ∧ mem (woken (pre ++ [k]) s0) !! w = Some wr
             ∧ in_batch_group wr = false)
  ∧ (∀ pre k post wr,
        wakes = pre ++ k :: post →
        Forall (λ k', expired k' = false) pre →
        expired k = true →
        mem (woken (pre ++ [k]) s0) !! w = Some wr →
        in_batch_group wr = true →
        (expiration_time ≠ 0 →
         still_waiting w (woken pre s0) = Some (true, woken pre s0) →
         wait_loop w expiration_time (k :: post) (woken pre s0)
         = wait_loop w 0 post (woken (pre ++ [k]) s0))
        ∧ ∀ s', EnterWriteThread w expiration_time wakes s
                ≠ Returns TimedOut s').
Proof.
  intros s0.
  assert (Hfirst :
    ∀ s', EnterWriteThread w expiration_time wakes s = Returns TimedOut s' →
          expiration_time ≠ 0
          ∧ ∃ pre k post wr,
              wakes = pre ++ k :: post
              ∧ Forall (λ k', expired k' = false) pre
              ∧ expired k = true
              ∧ mem (woken (pre ++ [k]) s0) !! w = Some wr
              ∧ in_batch_group wr = false).
  { intros s' H. apply EnterWriteThread_TimedOut in H as (s_t & Hloop & _).
    apply wait_loop_timed_out in Hloop
      as (? & pre & k & post & wr & ? & ? & ? & -> & ? & ?).
    split; [done|]. exists pre, k, post, wr. done. }
  split; [exact Hfirst|].
  intros pre k post wr Hw Hpre Hk Hwr Hg. split.
  - intros Hexp Hsw. simpl. rewrite Hsw.
    rewrite (proj2 (Z.eqb_neq _ _) Hexp), Hk.
    rewrite woken_snoc in Hwr |- *.
    by rewrite (deref_Some _ _ _ Hwr), Hg.
  - intros s' H. apply Hfirst in H
      as (_ & pre' & k' & post' & wr' & Hw' & Hpre' & Hk' & Hwr' & Hg').
    rewrite Hw in Hw'.
    destruct (first_expired_unique _ _ _ _ _ _ Hw' Hpre Hpre' Hk Hk')
      as [<- <-].
    congruence.
Qed.

Lemma EnterWriteThread_timed_out_only_as_follower_witness :
  (1000 ≠ 0
   ∧ ∃ pre k post wr,
       stalled_leader = pre ++ k :: post
       ∧ Forall (λ k', expired k' = false) pre
       ∧ expired k = true
       ∧ mem (woken (pre ++ [k])
                    (with_writers (writers_ three_writers ++ [2%nat])
                                  three_writers)) !! 2%nat = Some wr
       ∧ in_batch_group wr = false)
  ∧ ∀ s', EnterWriteThread 2%nat 1000 absorbed_then_done leader_running
          ≠ Returns TimedOut s'.
Proof.
  split.
  - apply (proj1 (EnterWriteThread_timed_out_only_as_follower
                    2%nat 1000 stalled_leader three_writers) after_timeout).
    vm_compute. reflexivity.
  - refine (proj2 (proj2 (EnterWriteThread_timed_out_only_as_follower
                            2%nat 1000 absorbed_then_done leader_running)
                         [] (mkWake true (after (BuildBatchGroup [])))
                         [mkWake false
                                 (after (ExitWriteThread 1%nat 2%nat OK))]
                         (set_in_batch_group true late_writer) _ _ _ _ _)).
    + reflexivity.
    + constructor.
    + reflexivity.
    + vm_compute. reflexivity.
    + reflexivity.
Defined.

Lemma elem_of_erase_first_ne (w p : ptr) (ws : list ptr) :
  p ∈ ws → p ≠ w → p ∈ erase_first w ws.
Proof.
  induction ws as [|q ws IH]; simpl; [done|].
  rewrite elem_of_cons. intros [->|Hin] Hne.
  - rewrite bool_decide_eq_false_2 by done. by left.
  - case_bool_decide; [done|]. right. by apply IH.
Qed.

Lemma leave_timed_out_head (w : ptr) (s s' : state) (st : Status) :
  leave_timed_out w s = Some (st, s') → empty_or_head_signalled s'.
Proof.
  intros H. apply leave_timed_out_inv in H as (_ & _ & _ & _ & Hsig).
  unfold empty_or_head_signalled. destruct (writers_ s'); [done|].
  by rewrite Hsig.
Qed.

Lemma leave_all_run (ws : list ptr) :
  ∀ s, ws ≠ [] → NoDup ws → ws ⊆ writers_ s → queue_ok live s = true →
       ∃ s', leave_all ws s = Some (tt, s')
             ∧ writers_ s' = foldl (λ l x, erase_first x l) (writers_ s) ws
             ∧ empty_or_head_signalled s'.
Proof.
  induction ws as [|w ws IH]; intros s Hne Hnd Hsub Hok; [done|].
  apply NoDup_cons in Hnd as [Hw Hnd].
  destruct (leave_timed_out_run w s) as (s1 & Hrun & Hok1); [|done|].
  { apply Hsub. by left. }
  pose proof (leave_timed_out_inv _ _ _ _ Hrun) as (_ & _ & Hws1 & _ & _).
  cbn [leave_all]. unfold bind. rewrite Hrun.
  destruct ws as [|w2 ws].
  - exists s1. simpl. unfold ret. split; [done|]. split; [done|].
    by apply (leave_timed_out_head _ _ _ _ Hrun).
  - destruct (IH s1) as (s' & Hrun' & Hws' & Hhead); try done.
    { intros p Hp. rewrite Hws1. apply elem_of_erase_first_ne.
      - apply Hsub. by right.
      - intros ->. done. }
    exists s'. split; [done|]. split; [|done].
    rewrite Hws'. simpl. by rewrite Hws1.
Qed.

(** C6: when EnterWriteThread times out, the writer is erased from
    [writers_] as the wait left it, and the head of what remains, if any, is
    signalled; so after writers have left on a timeout one after the other
    the queue is empty or its head was the last writer signalled. *)
Theorem EnterWriteThread_timeout_signals_new_head
        (w : ptr) (expiration_time : Z) (wakes : list wake) (s s' : state) :
  EnterWriteThread w expiration_time wakes s = Returns TimedOut s' →
  (∃ pre k post,
      wakes = pre ++ k :: post
      ∧ let s_t := woken (pre ++ [k]) (with_writers (writers_ s ++ [w]) s) in
        w ∈ writers_ s_t
        ∧ writers_ s' = erase_first w (writers_ s_t)
        ∧ (NoDup (writers_ s_t) → w ∉ writers_ s')
        ∧ mem s' = mem s_t
        ∧ cv_signals s'
          = (if writers_ s' is h :: _ then [h] else []) ++ cv_signals s_t)
  ∧ empty_or_head_signalled s'
  ∧ ∀ ws s1,
      ws ≠ [] → NoDup ws → ws ⊆ writers_ s1 → queue_ok live s1 = true →
      ∃ s2, leave_all ws s1 = Some (tt, s2)
            ∧ writers_ s2 = foldl (λ l x, erase_first x l) (writers_ s1) ws
            ∧ empty_or_head_signalled s2.
Proof.
  intros H. apply EnterWriteThread_TimedOut in H as (s_t & Hloop & Hleave).
  apply wait_loop_timed_out in Hloop
    as (_ & pre & k & post & wr & -> & _ & _ & -> & _ & _).
  pose proof (leave_timed_out_inv _ _ _ _ Hleave)
    as (_ & Hin & Hws & Hmem & Hsig).
  split; [|split].
  - exists pre, k, post. split; [done|]. cbv zeta.
    repeat split; try done.
    intros Hnd. rewrite Hws. by apply erase_first_NoDup.
  - by apply (leave_timed_out_head _ _ _ _ Hleave).
  - intros ws s1. apply leave_all_run.
Qed.

Lemma EnterWriteThread_timeout_signals_new_head_witness :
  (∃ pre k post,
      stalled_leader = pre ++ k :: post
      ∧ let s_t := woken (pre ++ [k])
                         (with_writers (writers_ three_writers ++ [2%nat])
                                       three_writers) in
        2%nat ∈ writers_ s_t
        ∧ writers_ after_timeout = erase_first 2%nat (writers_ s_t)
        ∧ (NoDup (writers_ s_t) → 2%nat ∉ writers_ after_timeout)
        ∧ mem after_timeout = mem s_t
        ∧ cv_signals after_timeout
          = (if writers_ after_timeout is h :: _ then [h] else [])
            ++ cv_signals s_t)
  ∧ empty_or_head_signalled after_timeout
  ∧ ∀ ws s1,
      ws ≠ [] → NoDup ws → ws ⊆ writers_ s1 → queue_ok live s1 = true →
      ∃ s2, leave_all ws s1 = Some (tt, s2)
            ∧ writers_ s2 = foldl (λ l x, erase_first x l) (writers_ s1) ws
            ∧ empty_or_head_signalled s2.
Proof.
  apply (EnterWriteThread_timeout_signals_new_head
           2%nat 1000 stalled_leader three_writers after_timeout).
  vm_compute. reflexivity.
Defined.

Example two_timeouts :
  ∃ s', leave_all [3; 2]%nat
                  (mkState [1; 2; 3; 4]%nat [] 0 (mem absorbed_queue) [])
        = Some (tt, s')
        ∧ writers_ s' = [1; 4]%nat ∧ cv_signals s' = [1; 1]%nat.
Proof. eexists. split; [vm_compute; reflexivity|]. by vm_compute. Qed.

(** *** More on EnterWriteThread *)

Lemma wait_loop_left (w : ptr) (expiration_time : Z) (wakes : list wake) :
  ∀ s s', wait_loop w expiration_time wakes s = Returns false s' →
          still_waiting w s' = Some (false, s').
Proof.
  revert expiration_time.
  induction wakes as [|k wakes IH]; intros expiration_time s s'; simpl;
    destruct (still_waiting w s) as [[[] s1]|] eqn:Hsw; try done;
    try (apply still_waiting_state in Hsw as Hs; subst s1;
         intros [= <-]; exact Hsw).
  apply still_waiting_state in Hsw as ->.
  destruct (expiration_time =? 0); [apply IH|].
  destruct (expired k); [|apply IH].
  destruct (deref w (interference k s)) as [[wr s2]|] eqn:Hd; [|done].
  apply deref_inv in Hd as [_ ->].
  destruct (in_batch_group wr); [apply IH|done].
Qed.

Lemma after_wait_OK (w : ptr) (timed_out : bool) (s s' : state) :
  after_wait w timed_out s = Some (OK, s') →
  s' = s
  ∧ ∃ wr, mem s !! w = Some wr
          ∧ ((done wr = false ∧ 0 < parallel_execute_id wr)
             ∨ timed_out = false).
Proof.
  unfold after_wait. intros H.
  apply bind_inv in H as (wr & s1 & H1 & H).
  apply deref_inv in H1 as [Hwr ->].
  destruct (negb (done wr) && (0 <? parallel_execute_id wr)) eqn:E.
  - unfold ret in H. simplify_eq. split; [done|]. exists wr.
    split; [done|]. left. apply andb_true_iff in E as [E1 E2].
    apply negb_true_iff in E1. apply Z.ltb_lt in E2. done.
  - destruct timed_out.
    + by apply leave_timed_out_inv in H as [? _].
    + unfold ret in H. simplify_eq. split; [done|]. exists wr. auto.
Qed.

(** X1: when EnterWriteThread returns OK, the writer is done, or has a
    parallel_execute_id above 0, or is the head of [writers_]: the three
    outcomes of lines 13-15, the third one also for a writer whose deadline
    passed. *)
Theorem EnterWriteThread_OK_done_promoted_or_leader
        (w : ptr) (expiration_time : Z) (wakes : list wake) (s s' : state) :
  EnterWriteThread w expiration_time wakes s = Returns OK s' →
  ∃ wr, mem s' !! w = Some wr
        ∧ (done wr = true
           ∨ 0 < parallel_execute_id wr
           ∨ head (writers_ s') = Some w).
Proof.
  unfold EnterWriteThread.
  destruct (wait_loop _ _ _ _) as [t s_t| |] eqn:Hloop; [|done..].
  destruct (after_wait w t s_t) as [[st s1]|] eqn:Ha; [|done].
  intros [= -> ->].
  apply after_wait_OK in Ha as (-> & wr & Hwr & [[_ Hp]| ->]).
  { exists wr. auto. }
  apply wait_loop_left in Hloop. exists wr. split; [done|].
  unfold still_waiting in Hloop.
  apply bind_inv in Hloop as (wr' & s2 & H1 & Hloop).
  apply deref_inv in H1 as [Hwr' ->]. rewrite Hwr in Hwr'.
  injection Hwr' as <-.
  destruct (negb (done wr)) eqn:Hd; simpl in Hloop.
  2:{ apply negb_false_iff in Hd. auto. }
  destruct (parallel_execute_id wr <=? 0) eqn:Hp; simpl in Hloop.
  2:{ apply Z.leb_gt in Hp. auto. }
  apply bind_inv in Hloop as (f & s3 & H3 & Hloop).
  unfold front in H3. apply lift_inv in H3 as (h & Hh & ?).
  unfold ret in Hloop. simplify_eq. right. right.
  case_bool_decide; [by subst|done].
Qed.

Lemma EnterWriteThread_OK_done_promoted_or_leader_witness :
  ∃ wr, mem absorbed_and_done !! 2%nat = Some wr
        ∧ (done wr = true
           ∨ 0 < parallel_execute_id wr
           ∨ head (writers_ absorbed_and_done) = Some 2%nat).
Proof.
  apply (EnterWriteThread_OK_done_promoted_or_leader
           2%nat 1000 absorbed_then_done leader_running).
  vm_compute. reflexivity.
Defined.

(** X2: a writer that enters an empty queue is the leader at once:
    EnterWriteThread returns OK without a wait, whatever the deadline, and
    the writer is the only one queued. *)
Theorem EnterWriteThread_empty_queue_leads
        (w : ptr) (expiration_time : Z) (wakes : list wake) (s : state)
        (wr : Writer) :
  writers_ s = [] →
  mem s !! w = Some wr →
  EnterWriteThread w expiration_time wakes s
  = Returns OK (with_writers [w] s).
Proof.
  intros Hws Hwr. unfold EnterWriteThread. rewrite Hws. simpl.
  assert (Hsw : still_waiting w (with_writers [w] s)
                = Some (false, with_writers [w] s)).
  { unfold still_waiting, bind.
    erewrite deref_Some by (simpl; eassumption).
    destruct (negb (done wr) && (parallel_execute_id wr <=? 0)); [|done].
    unfold front. simpl. unfold ret. by rewrite bool_decide_eq_true_2. }
  assert (Hloop : wait_loop w expiration_time wakes (with_writers [w] s)
                  = Returns false (with_writers [w] s)).
  { destruct wakes; simpl in *; by rewrite Hsw. }
  simpl in Hloop. rewrite Hloop.
  unfold after_wait, bind. erewrite deref_Some by (simpl; eassumption).
  by destruct (negb (done wr) && (0 <? parallel_execute_id wr)).
Qed.

Lemma EnterWriteThread_empty_queue_leads_witness :
  EnterWriteThread 2%nat 1000 stalled_leader
                   (with_writers [] leader_running)
  = Returns OK (with_writers [2%nat] (with_writers [] leader_running)).
Proof.
  apply (EnterWriteThread_empty_queue_leads
           2%nat 1000 stalled_leader (with_writers [] leader_running)
           late_writer); reflexivity.
Defined.

(** *** LeaderWaitEndParallel and EndParallelRun *)

Lemma woken_cons (k : wake) (wakes : list wake) (s : state) :
  woken (k :: wakes) s = woken wakes (interference k s).
Proof. reflexivity. Qed.

(** X3: LeaderWaitEndParallel returns only with [unfinished_threads_] at 0,
    in the first state after a wake-up in which it is 0: no wake-up is used
    once the counter is 0, and every earlier state had a counter other than
    0. *)
Theorem LeaderWaitEndParallel_returns_at_zero
        (self : ptr) (wakes : list wake) (s s' : state) :
  LeaderWaitEndParallel self wakes s = Returns tt s' →
  unfinished_threads_ s' = 0
  ∧ ∃ pre post,
      wakes = pre ++ post
      ∧ s' = woken pre s
      ∧ ∀ i, (i < length pre)%nat →
             unfinished_threads_ (woken (take i pre) s) ≠ 0.
Proof.
  revert s. induction wakes as [|k wakes IH]; intros s; simpl;
    destruct (unfinished_threads_ s =? 0) eqn:E; simpl.
  - intros [= <-]. apply Z.eqb_eq in E. split; [done|].
    exists [], []. repeat split; try done. simpl. lia.
  - by destruct (deref self s).
  - intros [= <-]. apply Z.eqb_eq in E. split; [done|].
    exists [], (k :: wakes). repeat split; try done. simpl. lia.
  - destruct (deref self s); [|done]. intros H.
    apply IH in H as (Hz & pre & post & -> & -> & Hne).
    split; [done|]. exists (k :: pre), post. repeat split; try done.
    intros [|i] Hi; simpl in *.
    + by apply Z.eqb_neq in E.
    + apply Hne. lia.
Qed.

Lemma LeaderWaitEndParallel_returns_at_zero_witness :
  unfinished_threads_ (with_unfinished 0 parallel_queue) = 0
  ∧ ∃ pre post,
      reports 2 = pre ++ post
      ∧ with_unfinished 0 parallel_queue
        = woken pre (with_unfinished 2 parallel_queue)
      ∧ ∀ i, (i < length pre)%nat →
             unfinished_threads_
               (woken (take i pre) (with_unfinished 2 parallel_queue)) ≠ 0.
Proof.
  apply (LeaderWaitEndParallel_returns_at_zero
           1%nat (reports 2) (with_unfinished 2 parallel_queue)).
  vm_compute. reflexivity.
Defined.

Lemma after_report (s : state) :
  after ReportParallelRunFinish s
  = with_unfinished (wrap32 (unfinished_threads_ s - 1)) s.
Proof. unfold after. by rewrite ReportParallelRunFinish_run. Qed.

(** X4: with [n] threads unfinished, the leader that waits in
    LeaderWaitEndParallel while the workers call ReportParallelRunFinish
    resumes after the [n]-th report, with the counter at 0 and nothing else
    changed, and is still blocked after fewer reports. *)
Theorem LeaderWaitEndParallel_resumes_after_last_report
        (self : ptr) (more : list wake) (n : nat) (s : state) :
  unfinished_threads_ s = Z.of_nat n →
  Z.of_nat n < 2 ^ 32 →
  is_Some (mem s !! self) →
  LeaderWaitEndParallel self (reports n ++ more) s
  = Returns tt (with_unfinished 0 s)
  ∧ ∀ m, (m < n)%nat → LeaderWaitEndParallel self (reports m) s = Blocked.
Proof.
  revert s. induction n as [|n IH]; intros s Hu Hlt [wr Hwr].
  - split; [|lia]. destruct s; simpl in *. subst.
    by destruct more.
  - assert (Hnz : (unfinished_threads_ s =? 0) = false).
    { apply Z.eqb_neq. lia. }
    assert (Hs1 : after ReportParallelRunFinish s
                  = with_unfinished (Z.of_nat n) s).
    { rewrite after_report, Hu. unfold wrap32.
      rewrite Z.mod_small by lia. f_equal. lia. }
    destruct (IH (with_unfinished (Z.of_nat n) s)) as [Hrun Hblk];
      [done|lia|by exists wr|].
    split.
    + change (reports (S n) ++ more)
        with (mkWake false (after ReportParallelRunFinish)
                :: (reports n ++ more)).
      cbn [LeaderWaitEndParallel interference]. rewrite Hnz. simpl negb.
      cbv iota. rewrite (deref_Some _ _ _ Hwr), Hs1, Hrun.
      by destruct s.
    + intros [|m] Hm.
      * simpl. rewrite Hnz. simpl. by rewrite (deref_Some _ _ _ Hwr).
      * change (reports (S m))
          with (mkWake false (after ReportParallelRunFinish) :: reports m).
        cbn [LeaderWaitEndParallel interference]. rewrite Hnz. simpl negb.
        cbv iota. rewrite (deref_Some _ _ _ Hwr), Hs1. apply Hblk. lia.
Qed.

Lemma LeaderWaitEndParallel_resumes_after_last_report_witness :
  LeaderWaitEndParallel 1%nat (reports 3 ++ stalled_leader)
                        (with_unfinished 3 parallel_queue)
  = Returns tt (with_unfinished 0 (with_unfinished 3 parallel_queue))
  ∧ ∀ m, (m < 3)%nat →
         LeaderWaitEndParallel 1%nat (reports m)
                               (with_unfinished 3 parallel_queue)
         = Blocked.
Proof.
  apply (LeaderWaitEndParallel_resumes_after_last_report
           1%nat stalled_leader 3 (with_unfinished 3 parallel_queue)).
  - reflexivity.
  - reflexivity.
  - by eexists.
Defined.

Lemma wait_done_returns (w : ptr) (wakes : list wake) :
  ∀ s s', wait_done w wakes s = Returns tt s' →
          ∃ pre post wr,
            wakes = pre ++ post
            ∧ s' = woken pre s
            ∧ mem s' !! w = Some wr
            ∧ done wr = true.
Proof.
  induction wakes as [|k wakes IH]; intros s s'; simpl;
    destruct (deref w s) as [[wr s1]|] eqn:Hd; try done;
    apply deref_inv in Hd as [Hwr ->];
    destruct (done wr) eqn:Hdone; simpl; try done.
  - intros [= <-]. by exists [], [], wr.
  - intros [= <-]. by exists [], (k :: wakes), wr.
  - intros H. apply IH in H as (pre & post & wr' & -> & -> & ? & ?).
    by exists (k :: pre), post, wr'.
Qed.

(** X5: EndParallelRun returns only once [w->done] is set, and all it does
    itself is one signal on the cv of [parallel_writers_.front()], given
    when [need_wake_up_leader] holds and [parallel_writers_] is not empty;
    a worker that is done already returns without a wait. *)
Theorem EndParallelRun_waits_for_done
        (w : ptr) (need_wake_up_leader : bool) (between : state → state)
        (wakes : list wake) (s : state) :
  (∀ s', EndParallelRun w need_wake_up_leader between wakes s
         = Returns tt s' →
         ∃ s0 pre post wr,
           s0 = (if need_wake_up_leader
                 then if parallel_writers_ s is leader :: _
                      then with_signal leader s else s
                 else s)
           ∧ wakes = pre ++ post
           ∧ s' = woken pre (between s0)
           ∧ mem s' !! w = Some wr
           ∧ done wr = true)
  ∧ (∀ s0 wr, wake_leader need_wake_up_leader s = Some (tt, s0) →
              mem (between s0) !! w = Some wr →
              done wr = true →
              EndParallelRun w need_wake_up_leader between wakes s
              = Returns tt (between s0)).
Proof.
  split.
  - intros s'. unfold EndParallelRun.
    destruct (wake_leader need_wake_up_leader s) as [[[] s0]|] eqn:Hl;
      [|done].
    intros H. apply wait_done_returns in H as (pre & post & wr & ? & ? & ? & ?).
    exists s0, pre, post, wr. repeat split; try done.
    unfold wake_leader in Hl. destruct need_wake_up_leader.
    + apply bind_inv in Hl as (ps & s1 & Hg & Hl). unfold gets in Hg.
      injection Hg as <- <-.
      destruct (parallel_writers_ s) as [|leader ps'].
      * unfold ret in Hl. by injection Hl as <-.
      * apply Signal_inv in Hl as [_ Hl]. by injection Hl as ->.
    + unfold ret in Hl. by injection Hl as <-.
  - intros s0 wr Hl Hwr Hdone. unfold EndParallelRun. rewrite Hl.
    destruct wakes; simpl; by rewrite (deref_Some _ _ _ Hwr), Hdone.
Qed.

Lemma EndParallelRun_waits_for_done_witness :
  EndParallelRun 2%nat true id []
                 (with_parallel_writers [1; 2]%nat absorbed_and_done)
  = Returns tt (with_signal 1%nat
                  (with_parallel_writers [1; 2]%nat absorbed_and_done)).
Proof.
  refine (proj2 (EndParallelRun_waits_for_done
                   2%nat true id []
                   (with_parallel_writers [1; 2]%nat absorbed_and_done))
                (with_signal 1%nat
                   (with_parallel_writers [1; 2]%nat absorbed_and_done))
                (finish OK (set_in_batch_group true late_writer)) _ _ _).
  - vm_compute. reflexivity.
  - vm_compute. reflexivity.
  - reflexivity.
Defined.

(** *** BuildBatchGroup followed by ExitWriteThread *)

Lemma ExitWriteThread_run (w last_writer : ptr) (st : Status) (s : state)
      (pre post : list ptr) :
  writers_ s = pre ++ last_writer :: post →
  last_writer ∉ pre →
  (∀ p, p ∈ writers_ s → is_Some (mem s !! p)) →
  ∃ m',
    ExitWriteThread w last_writer st s
    = Some (tt, mkState post (parallel_writers_ s) (unfinished_threads_ s) m'
                        ((if post is h :: _ then [h] else [])
                         ++ reverse (filter (λ p, p ≠ w)
                                            (pre ++ [last_writer]))
                         ++ cv_signals s))
    ∧ finished st w (pre ++ [last_writer]) (mem s) m'.
Proof.
  intros Hws Hlw Hlive.
  destruct (pop_ready_run w last_writer st post pre s Hlw)
    as (m' & Hrun & Hfin).
  { intros p Hp. apply Hlive. rewrite Hws.
    rewrite elem_of_app, list_elem_of_singleton in Hp.
    rewrite elem_of_app, elem_of_cons. tauto. }
  exists m'. split; [|done].
  unfold ExitWriteThread, bind, gets. rewrite Hws, Hrun.
  unfold signal_front, bind, gets, front. simpl.
  destruct post as [|h post]; [reflexivity|]. simpl.
  assert (is_Some (m' !! h)) as [x Hx].
  { rewrite (Hfin h). destruct (Hlive h) as [y ->].
    - rewrite Hws, elem_of_app, !elem_of_cons. tauto.
    - case_bool_decide; simpl; eauto. }
  erewrite Signal_Some by (simpl; eassumption). reflexivity.
Qed.

Lemma group_ends_with_last (first : ptr) (l : list ptr) :
  ∃ pre, first :: l = pre ++ [List.last l first].
Proof.
  destruct l as [|x l _] using rev_ind.
  - by exists [].
  - exists (first :: l). by rewrite List.last_last.
Qed.

Lemma filter_ne_not_elem (x : ptr) (l : list ptr) :
  x ∉ l → filter (λ p, p ≠ x) l = l.
Proof.
  induction l as [|y l IH]; intros Hx; [done|].
  rewrite filter_cons. rewrite not_elem_of_cons in Hx.
  destruct Hx as [Hne Hx].
  destruct (decide (y ≠ x)) as [_|Hd]; [by rewrite IH|].
  exfalso. apply Hd. congruence.
Qed.

(** X6: the leader that builds its batch group and then calls
    ExitWriteThread with the [last_writer] it got pops the group and nothing
    else: the queue goes on with the first writer left out of the group,
    which is signalled, the writers BuildBatchGroup absorbed are flagged,
    done and carry the leader's status, and no other writer is changed. *)
Theorem BuildBatchGroup_then_ExitWriteThread
        (g : list WriteBatch) (s : state) (first : ptr) (rest : list ptr)
        (fw : Writer) (fb : WriteBatch) (st : Status) :
  writers_ s = first :: rest →
  NoDup (writers_ s) →
  mem s !! first = Some fw →
  batch fw = Some fb →
  queue_ok live s = true →
  ∃ (n : nat) (size : Z) (last_writer : ptr) (bs : list WriteBatch)
    (s1 s2 : state),
    BuildBatchGroup g s = Some ((size, last_writer, g ++ bs), s1)
    ∧ length bs = S n
    ∧ ExitWriteThread first last_writer st s1 = Some (tt, s2)
    ∧ writers_ s2 = drop n rest
    ∧ (∀ p, mem s2 !! p
            = if bool_decide (p ∈ take n rest)
              then finish st <$> (set_in_batch_group true <$> mem s !! p)
              else mem s !! p)
    ∧ cv_signals s2
      = (if drop n rest is h :: _ then [h] else [])
        ++ reverse (take n rest) ++ cv_signals s.
Proof.
  intros Hws Hnd Hf Hb Hok.
  destruct (BuildBatchGroup_spec g s first rest fw fb Hws Hf Hb Hok)
    as (n & bs & size' & m' & Hrun & Hn & Hm & Hall & _ & _).
  rewrite Hws in Hnd. apply NoDup_cons in Hnd as [Hfirst Hnd].
  destruct (group_ends_with_last first (take n rest)) as [pre Hpre].
  set (lw := List.last (take n rest) first) in *.
  assert (Hws1 : writers_ (with_mem m' s) = pre ++ lw :: drop n rest).
  { simpl. rewrite Hws, <- (take_drop n rest) at 1.
    rewrite app_comm_cons, Hpre, <- app_assoc. done. }
  assert (Hnd' : NoDup (pre ++ [lw])).
  { rewrite <- Hpre. constructor.
    - intros Hin. apply Hfirst. by apply (subseteq_take n rest).
    - eapply sublist_NoDup; [exact Hnd|apply sublist_take]. }
  assert (Hlw : lw ∉ pre).
  { apply NoDup_app in Hnd' as (_ & Hd & _). intros Hin.
    apply (Hd lw Hin). by left. }
  destruct (ExitWriteThread_run first lw st (with_mem m' s) pre (drop n rest)
                                Hws1 Hlw) as (m2 & Hexit & Hfin).
  { intros p Hp. change (p ∈ writers_ s) in Hp.
    change (is_Some (m' !! p)). rewrite (Hm p).
    destruct (queue_ok_lookup live s p Hok Hp) as (x & -> & _).
    case_bool_decide; simpl; eauto. }
  unfold finished in Hfin. simpl in Hfin.
  eexists n, size', lw, (fb :: bs), (with_mem m' s), _.
  split; [exact Hrun|].
  split.
  { simpl. f_equal. apply Forall2_length in Hall.
    rewrite length_take in Hall. lia. }
  split; [exact Hexit|].
  split; [done|]. simpl.
  split.
  - intros p. rewrite (Hfin p), <- Hpre, (Hm p).
    destruct (decide (p ∈ take n rest)) as [Hin|Hin].
    + rewrite (bool_decide_eq_true_2 (p ∈ take n rest)) by done.
      rewrite bool_decide_eq_true_2; [done|]. split; [by right|].
      intros ->. apply Hfirst. by apply (subseteq_take n rest).
    + rewrite (bool_decide_eq_false_2 (p ∈ take n rest)) by done.
      rewrite bool_decide_eq_false_2; [done|].
      rewrite elem_of_cons. tauto.
  - rewrite <- Hpre. rewrite filter_cons.
    destruct (decide (first ≠ first)); [done|].
    rewrite filter_ne_not_elem; [done|].
    intros Hin. apply Hfirst. by apply (subseteq_take n rest).
Qed.

Lemma BuildBatchGroup_then_ExitWriteThread_witness :
  ∃ (n : nat) (size : Z) (last_writer : ptr) (bs : list WriteBatch)
    (s1 s2 : state),
    BuildBatchGroup [] absorption_queue
    = Some ((size, last_writer, [] ++ bs), s1)
    ∧ length bs = S n
    ∧ ExitWriteThread 1%nat last_writer IOError s1 = Some (tt, s2)
    ∧ writers_ s2 = drop n [2; 3; 4]%nat
    ∧ (∀ p, mem s2 !! p
            = if bool_decide (p ∈ take n [2; 3; 4]%nat)
              then finish IOError
                     <$> (set_in_batch_group true
                            <$> mem absorption_queue !! p)
              else mem absorption_queue !! p)
    ∧ cv_signals s2
      = (if drop n [2; 3; 4]%nat is h :: _ then [h] else [])
        ++ reverse (take n [2; 3; 4]%nat) ++ cv_signals absorption_queue.
Proof.
  apply (BuildBatchGroup_then_ExitWriteThread
           [] absorption_queue 1%nat [2; 3; 4]%nat (plain_writer 51200 1)
           (mkBatch 51200 1) IOError); try reflexivity.
  apply (bool_decide_unpack _). vm_compute. exact I.
Defined.

(** *** LeaderEndParallel *)

(** *** ExitWriteThread without its last writer *)

Lemma pop_ready_all (w last_writer : ptr) (st : Status) :
  ∀ (ws : list ptr) (s : state),
    writers_ s = ws →
    last_writer ∉ ws →
    (∀ p, p ∈ ws → is_Some (mem s !! p)) →
    ∃ m',
      pop_ready w last_writer st ws s
      = Some (tt, mkState [] (parallel_writers_ s) (unfinished_threads_ s) m'
                          (reverse (filter (λ p, p ≠ w) ws) ++ cv_signals s))
      ∧ finished st w ws (mem s) m'.
Proof.
  induction ws as [|p0 ws IH]; intros s Hws Hlw Hlive;
    destruct s as [ws0 ps u m sig]; simpl in *.
  - subst ws0. exists m. split; [reflexivity|].
    intros p. rewrite bool_decide_eq_false_2; [done|].
    intros [Hin _]. by apply elem_of_nil in Hin.
  - assert (Hne : p0 ≠ last_writer).
    { intros ->. apply Hlw. by left. }
    destruct (Hlive p0) as [wr Hwr]; [by left|].
    unfold bind, modify. simpl.
    rewrite (bool_decide_eq_false_2 (p0 = last_writer)) by done.
    set (m1 := if bool_decide (p0 ≠ w) then <[p0 := finish st wr]> m else m).
    set (sig1 := if bool_decide (p0 ≠ w) then p0 :: sig else sig).
    assert (Hm1 : ∀ p, m1 !! p = if bool_decide (p = p0 ∧ p ≠ w)
                                 then finish st <$> m !! p else m !! p).
    { intros p. subst m1. destruct (decide (p0 ≠ w)) as [Hw|Hw].
      - rewrite (bool_decide_eq_true_2 (p0 ≠ w)) by done.
        destruct (decide (p = p0)) as [->|Hp].
        + rewrite lookup_insert_eq, Hwr. by rewrite bool_decide_eq_true_2.
        + rewrite lookup_insert_ne by done.
          rewrite bool_decide_eq_false_2; [done|]. tauto.
      - rewrite (bool_decide_eq_false_2 (p0 ≠ w)) by done.
        rewrite bool_decide_eq_false_2; [done|]. intros [-> ?]. done. }
    destruct (IH (mkState ws ps u m1 sig1)) as (m' & Hrun & Hfin); simpl.
    { done. }
    { intros Hin. apply Hlw. by right. }
    { intros p Hp. rewrite Hm1. destruct (Hlive p) as [x Hx]; [by right|].
      rewrite Hx. case_bool_decide; simpl; eauto. }
    simpl in Hfin. exists m'.
    split.
    + clear Hm1 Hfin. subst m1 sig1. rewrite filter_cons.
      destruct (decide (p0 ≠ w)) as [Hd|Hd].
      * rewrite (bool_decide_eq_true_2 (p0 ≠ w)) in Hrun |- * by done.
        erewrite update_Some by (simpl; eassumption). simpl.
        erewrite update_Some by (simpl; apply lookup_insert_eq). simpl.
        erewrite Signal_Some by (simpl; apply lookup_insert_eq). simpl.
        rewrite insert_insert_eq. unfold finish in Hrun. rewrite Hrun.
        by rewrite reverse_cons, <- app_assoc.
      * rewrite (bool_decide_eq_false_2 (p0 ≠ w)) in Hrun |- * by done.
        simpl. by rewrite Hrun.
    + intros p. rewrite (Hfin p), (Hm1 p).
      assert (Hc : p ∈ p0 :: ws ↔ p = p0 ∨ p ∈ ws) by apply elem_of_cons.
      repeat case_bool_decide; try tauto; by destruct (m !! p).
Qed.

(** X20: the loop of ExitWriteThread ends at [last_writer] or at the end of
    the queue.  With a [last_writer] that is not queued the whole queue is
    popped: every writer but [w] gets the status, is set done and is
    signalled, whether it was part of a group or not, and no head is left
    to wake. *)
Theorem ExitWriteThread_without_last_writer_empties_queue
        (w last_writer : ptr) (st : Status) (s : state) :
  last_writer ∉ writers_ s →
  queue_ok live s = true →
  ∃ s',
    ExitWriteThread w last_writer st s = Some (tt, s')
    ∧ writers_ s' = []
    ∧ finished st w (writers_ s) (mem s) (mem s')
    ∧ cv_signals s'
      = reverse (filter (λ p, p ≠ w) (writers_ s)) ++ cv_signals s
    ∧ parallel_writers_ s' = parallel_writers_ s
    ∧ unfinished_threads_ s' = unfinished_threads_ s.
Proof.
  intros Hlw Hok.
  assert (Hlive : ∀ p, p ∈ writers_ s → is_Some (mem s !! p)).
  { intros p Hp. destruct (queue_ok_lookup live s p Hok Hp) as (x & -> & _).
    eauto. }
  destruct (pop_ready_all w last_writer st (writers_ s) s eq_refl Hlw Hlive)
    as (m' & Hrun & Hfin).
  eexists. split.
  - unfold ExitWriteThread, bind, gets. rewrite Hrun.
    unfold signal_front, bind, gets. simpl. reflexivity.
  - by repeat split.
Qed.

Lemma ExitWriteThread_without_last_writer_empties_queue_witness :
  ∃ s',
    ExitWriteThread 1%nat 9%nat OK absorbed_queue = Some (tt, s')
    ∧ writers_ s' = []
    ∧ finished OK 1%nat (writers_ absorbed_queue) (mem absorbed_queue)
               (mem s')
    ∧ cv_signals s'
      = reverse (filter (λ p, p ≠ 1%nat) (writers_ absorbed_queue))
        ++ cv_signals absorbed_queue
    ∧ parallel_writers_ s' = parallel_writers_ absorbed_queue
    ∧ unfinished_threads_ s' = unfinished_threads_ absorbed_queue.
Proof.
  apply (ExitWriteThread_without_last_writer_empties_queue
           1%nat 9%nat OK absorbed_queue).
  - apply (bool_decide_unpack _). vm_compute. exact I.
  - reflexivity.
Defined.

Section ParallelFacts.
Context {D : Type} `{!FlushOps D}.

Lemma on_core_Some {A : Type} (m : M state A) (P : pstate D) (a : A)
      (c : state) :
  m (core P) = Some (a, c) → on_core m P = Some (a, with_core c P).
Proof. intros Hm. unfold on_core. by rewrite Hm. Qed.

Lemma cfds_of_all_cons (p : ptr) (ps : list ptr) (P : pstate D) :
  cfds_of_all (p :: ps) P = cfds_of p P ∪ cfds_of_all ps P.
Proof. reflexivity. Qed.

Lemma cfds_of_all_ext (ps : list ptr) (P P' : pstate D) :
  (∀ p, p ∈ ps → cfd_set P' !! p = cfd_set P !! p) →
  cfds_of_all ps P' = cfds_of_all ps P.
Proof.
  induction ps as [|q ps IH]; intros Hext; [done|].
  rewrite !cfds_of_all_cons. rewrite IH.
  - unfold cfds_of. rewrite Hext; [done|by left].
  - intros p Hp. apply Hext. by right.
Qed.

Lemma tag_done_run (self : ptr) (ps : list ptr) :
  ∀ (c : state) (cs : gmap ptr (gset cfd)) (sigs : list ptr) (d : D),
    is_Some (mem c !! self) →
    (∀ p, p ∈ ps → is_Some (mem c !! p)) →
    ∃ m' cs',
      tag_done self ps (mkPar c cs sigs d)
      = Some (tt, mkPar (with_mem m' c) cs'
                        (reverse (filter (λ p, p ≠ self) ps) ++ sigs) d)
      ∧ tagged self ps (mem c) m'
      ∧ default ∅ (cs' !! self)
        = default ∅ (cs !! self)
          ∪ cfds_of_all (filter (λ p, p ≠ self) ps) (mkPar c cs sigs d)
      ∧ ∀ q, q ≠ self → cs' !! q = cs !! q.
Proof.
  induction ps as [|pw ps IH]; intros c cs sigs d Hself Hlive.
  { exists (mem c), cs. simpl. unfold ret. split; [by destruct c|].
    split; [|split; [|done]].
    - intros p. rewrite bool_decide_eq_false_2; [done|].
      intros [Hp _]. by apply elem_of_nil in Hp.
    - unfold cfds_of_all. simpl. by rewrite (right_id_L ∅ (∪)). }
  destruct Hself as [ws Hws].
  destruct (Hlive pw) as [wr Hwr]; [by left|].
  cbn [tag_done]. unfold bind at 1. rewrite filter_cons.
  destruct (decide (pw ≠ self)) as [Hne|Heq].
  - rewrite (bool_decide_eq_true_2 (pw ≠ self)) by done.
    unfold bind at 1.
    erewrite on_core_Some by (apply deref_Some; eassumption).
    unfold bind at 1.
    erewrite on_core_Some by (apply deref_Some; eassumption).
    unfold bind at 1. unfold modify at 1.
    unfold bind at 1.
    erewrite on_core_Some by (apply update_Some; eassumption).
    unfold modify at 1. simpl.
    set (cs1 := <[self := cfds_of self (mkPar c cs sigs d)
                           ∪ cfds_of pw (mkPar c cs sigs d)]> cs).
    set (c1 := mkState (writers_ c) (parallel_writers_ c)
                       (unfinished_threads_ c)
                       (<[pw := set_done true wr]> (mem c)) (cv_signals c)).
    destruct (IH c1 cs1 (pw :: sigs) d) as (m' & cs' & Hrun & Htag & Hcs & Ho).
    { subst c1. simpl. rewrite lookup_insert_ne by done. eauto. }
    { intros p Hp. subst c1. simpl.
      destruct (decide (p = pw)) as [->|Hp'].
      - rewrite lookup_insert_eq. eauto.
      - rewrite lookup_insert_ne by done. apply Hlive. by right. }
    exists m', cs'.
    split.
    { etrans; [exact Hrun|]. subst c1. simpl.
      by rewrite reverse_cons, <- app_assoc. }
    split; [|split].
    + intros p. rewrite (Htag p). subst c1. simpl.
      assert (Hc : p ∈ pw :: ps ↔ p = pw ∨ p ∈ ps) by apply elem_of_cons.
      destruct (decide (p = pw)) as [->|Hp'].
      * rewrite lookup_insert_eq, Hwr.
        rewrite (bool_decide_eq_true_2 (pw ∈ pw :: ps ∧ pw ≠ self))
          by tauto.
        by case_bool_decide.
      * rewrite lookup_insert_ne by done.
        repeat case_bool_decide; try tauto; done.
    + rewrite Hcs. subst cs1. rewrite lookup_insert_eq. simpl.
      rewrite cfds_of_all_cons.
      rewrite (cfds_of_all_ext _ (mkPar c cs sigs d)
                               (mkPar c1 (<[self:=_]> cs) (pw :: sigs) d)).
      * unfold cfds_of at 1 2 3. simpl. by rewrite (assoc_L (∪)).
      * intros p Hp. apply list_elem_of_filter in Hp as [Hp _].
        simpl. by rewrite lookup_insert_ne.
    + intros q Hq. rewrite (Ho q Hq). subst cs1.
      by rewrite lookup_insert_ne.
  - assert (pw = self) as -> by (destruct (decide (pw = self)); tauto).
    rewrite (bool_decide_eq_false_2 (self ≠ self)) by done.
    unfold ret at 1.
    destruct (IH c cs sigs d) as (m' & cs' & Hrun & Htag & Hcs & Ho);
      [eauto|intros p Hp; apply Hlive; by right|].
    exists m', cs'. rewrite Hrun. split; [done|].
    split; [|done].
    intros p. rewrite (Htag p).
    assert (Hc : p ∈ self :: ps ↔ p = self ∨ p ∈ ps) by apply elem_of_cons.
    repeat case_bool_decide; try tauto; done.
Qed.

Lemma schedule_flushes_run (cfds : list cfd) :
  ∀ (c : state) (cs : gmap ptr (gset cfd)) (sigs : list ptr) (d : D),
    schedule_flushes cfds (mkPar c cs sigs d)
    = Some (tt, mkPar c cs sigs (foldl flush_step d cfds)).
Proof.
  induction cfds as [|x cfds IH]; intros c cs sigs d; [done|].
  cbn [schedule_flushes]. unfold bind, modify. simpl.
  etrans; [apply (IH c cs sigs (flush_step d x))|done].
Qed.

Lemma LeaderEndParallel_run (self last_writer : ptr) (P : pstate D)
      (post : list ptr) :
  unfinished_threads_ (core P) = 0 →
  last (parallel_writers_ (core P)) = Some last_writer →
  writers_ (core P) = last_writer :: post →
  is_Some (mem (core P) !! self) →
  (∀ p, p ∈ parallel_writers_ (core P) ++ post →
        is_Some (mem (core P) !! p)) →
  ∃ m' cs',
    LeaderEndParallel self last_writer P
    = Some (tt,
            mkPar (mkState post [] 0 m'
                           ((if post is h :: _ then [h] else [])
                            ++ cv_signals (core P)))
                  cs'
                  (reverse (filter (λ p, p ≠ self)
                                   (parallel_writers_ (core P)))
                   ++ self_cv_signals P)
                  (foldl flush_step (flush P)
                         (elements (default ∅ (cs' !! self)))))
    ∧ tagged self (parallel_writers_ (core P)) (mem (core P)) m'
    ∧ default ∅ (cs' !! self)
      = cfds_of self P
        ∪ cfds_of_all (filter (λ p, p ≠ self) (parallel_writers_ (core P))) P
    ∧ ∀ q, q ≠ self → cs' !! q = cfd_set P !! q.
Proof.
  destruct P as [[ws ps u m sig] cs sigs d]. simpl.
  intros -> Hlast -> Hself Hlive.
  destruct (tag_done_run self ps
              (mkState (last_writer :: post) ps 0 m sig) cs sigs d)
    as (m' & cs' & Hrun & Htag & Hcs & Ho); [done|..].
  { intros p Hp. apply Hlive. apply elem_of_app. by left. }
  simpl in Htag.
  assert (Hself' : is_Some (m' !! self)).
  { destruct Hself as [x Hx]. rewrite (Htag self), Hx.
    case_bool_decide; simpl; eauto. }
  destruct Hself' as [x Hx].
  exists m', cs'. split; [|done].
  unfold LeaderEndParallel.
  mstep. mstep. mstep.
  mstep by (exact Hrun).
  mstep. mstep.
  mstep by (simpl; rewrite Hlast; reflexivity).
  mstep.
  mstep by (simpl; rewrite bool_decide_eq_true_2 by done; reflexivity).
  mstep by (rewrite bool_decide_eq_true_2 by done; reflexivity).
  mstep by (apply on_core_Some, deref_Some; exact Hx).
  mstep.
  mstep by (simpl; apply schedule_flushes_run).
  mstep. mstep. mstep.
  mstep.
  mstep by (simpl; rewrite bool_decide_eq_true_2 by done; reflexivity).
  mstep.
  unfold on_core, signal_front, bind, gets, front. simpl.
  destruct post as [|h post]; [reflexivity|]. simpl.
  assert (is_Some (m' !! h)) as [y Hy].
  { rewrite (Htag h). destruct (Hlive h) as [z ->].
    - apply elem_of_app. right. by left.
    - case_bool_decide; simpl; eauto. }
  erewrite Signal_Some by (simpl; exact Hy). reflexivity.
Qed.

(** X7: with the counter at 0, [last_writer] at the back of
    [parallel_writers_] and at the head of [writers_], LeaderEndParallel
    passes its assertions and returns: [parallel_writers_] is cleared,
    [last_writer] is popped and the next head signalled; every parallel
    writer but the leader is set done and signalled on its self_cv, and no
    other writer is touched; the leader's cfd_set is joined with theirs;
    the flush loop runs over that set;
    and a worker that calls EndParallelRun afterwards returns without a
    wait. *)
Theorem LeaderEndParallel_completes_the_run
        (self last_writer : ptr) (P : pstate D) (post : list ptr) :
  unfinished_threads_ (core P) = 0 →
  last (parallel_writers_ (core P)) = Some last_writer →
  writers_ (core P) = last_writer :: post →
  is_Some (mem (core P) !! self) →
  (∀ p, p ∈ parallel_writers_ (core P) ++ post →
        is_Some (mem (core P) !! p)) →
  ∃ P',
    LeaderEndParallel self last_writer P = Some (tt, P')
    ∧ writers_ (core P') = post
    ∧ parallel_writers_ (core P') = []
    ∧ unfinished_threads_ (core P') = 0
    ∧ tagged self (parallel_writers_ (core P)) (mem (core P)) (mem (core P'))
    ∧ cfds_of self P'
      = cfds_of self P
        ∪ cfds_of_all (filter (λ p, p ≠ self) (parallel_writers_ (core P))) P
    ∧ (∀ q, q ≠ self → cfd_set P' !! q = cfd_set P !! q)
    ∧ self_cv_signals P'
      = reverse (filter (λ p, p ≠ self) (parallel_writers_ (core P)))
        ++ self_cv_signals P
    ∧ cv_signals (core P')
      = (if post is h :: _ then [h] else []) ++ cv_signals (core P)
    ∧ flush P' = foldl flush_step (flush P) (elements (cfds_of self P'))
    ∧ ∀ p need wakes,
        p ∈ parallel_writers_ (core P) → p ≠ self →
        EndParallelRun p need id wakes (core P') = Returns tt (core P').
Proof.
  intros Hu Hlast Hws Hself Hlive.
  destruct (LeaderEndParallel_run self last_writer P post Hu Hlast Hws Hself
                                  Hlive) as (m' & cs' & Hrun & Htag & Hcs & Ho).
  eexists. split; [exact Hrun|]. simpl.
  repeat (split; [done|]).
  intros p need wakes Hp Hne.
  destruct (Hlive p) as [wr Hwr]; [apply elem_of_app; by left|].
  assert (Hp' : m' !! p = Some (set_done true wr)).
  { rewrite (Htag p), Hwr. by rewrite bool_decide_eq_true_2. }
  unfold EndParallelRun.
  assert (Hl : ∀ sig, wake_leader need (mkState post [] 0 m' sig)
                      = Some (tt, mkState post [] 0 m' sig)).
  { intros sig. by destruct need. }
  rewrite Hl. unfold id.
  destruct wakes; simpl; by erewrite deref_Some by (simpl; exact Hp').
Qed.

Lemma numbered_live (pid : Z) (group : list ptr) (m m' : gmap ptr Writer)
      (p : ptr) :
  numbered pid group m m' → is_Some (m !! p) → is_Some (m' !! p).
Proof.
  intros [Hnum Hframe] [x Hx].
  destruct (decide (p ∈ group)) as [Hin|Hin].
  - apply list_elem_of_lookup in Hin as [k Hk].
    rewrite (Hnum k p Hk), Hx. simpl. eauto.
  - rewrite (Hframe p Hin), Hx. eauto.
Qed.

(** X8: a whole parallel run.  From a queue of distinct live writers led by
    [w], with no run under way, StartParallelRun for the group up to
    [last_writer], the reports of all its threads and LeaderEndParallel
    all return, no assertion failing on the way; the last report alone
    returns true; at the end the group has left the queue, whose next head
    is signalled, every writer of the group has its parallel_execute_id,
    every one but the leader is done, and the leader's cfd_set holds the
    column families of the whole group. *)
Theorem parallel_run_start_to_end
        (w last_writer : ptr) (P : pstate D) (pre post : list ptr) :
  unfinished_threads_ (core P) = 0 →
  parallel_writers_ (core P) = [] →
  writers_ (core P) = pre ++ last_writer :: post →
  head (writers_ (core P)) = Some w →
  NoDup (writers_ (core P)) →
  ids_fit (mem (core P)) (pre ++ [last_writer]) 1 = true →
  queue_ok live (core P) = true →
  Z.of_nat (length (pre ++ [last_writer])) < 2 ^ 32 →
  ∃ s1 s2 P3,
    StartParallelRun w (Z.of_nat (length (pre ++ [last_writer]))) last_writer
                     (core P) = Some (tt, s1)
    ∧ report_times (length (pre ++ [last_writer])) s1
      = Some (replicate (length pre) false ++ [true], s2)
    ∧ LeaderEndParallel w last_writer (with_core s2 P) = Some (tt, P3)
    ∧ writers_ (core P3) = post
    ∧ parallel_writers_ (core P3) = []
    ∧ unfinished_threads_ (core P3) = 0
    ∧ (∀ k p, (pre ++ [last_writer]) !! k = Some p →
              ∃ wr, mem (core P) !! p = Some wr
                    ∧ mem (core P3) !! p
                      = Some ((if bool_decide (p ≠ w)
                               then set_done true else id)
                                (set_parallel_execute_id
                                   (1 + counts (mem (core P))
                                          (take k (pre ++ [last_writer])))
                                   wr)))
    ∧ (∀ p, p ∉ pre ++ [last_writer] →
            mem (core P3) !! p = mem (core P) !! p)
    ∧ cfds_of w P3 = cfds_of_all (pre ++ [last_writer]) P
    ∧ cv_signals (core P3)
      = (if post is h :: _ then [h] else [])
        ++ reverse (filter (λ p, p ≠ w) (pre ++ [last_writer]))
        ++ cv_signals (core P)
    ∧ self_cv_signals P3
      = reverse (filter (λ p, p ≠ w) (pre ++ [last_writer]))
        ++ self_cv_signals P.
Proof.
  intros Hu Hps Hws Hhead Hnd Hfit Hok Hlt.
  set (group := pre ++ [last_writer]) in *.
  assert (Hlive : ∀ p, p ∈ writers_ (core P) → is_Some (mem (core P) !! p)).
  { intros p Hp. destruct (queue_ok_lookup live _ p Hok Hp) as (x & -> & _).
    eauto. }
  rewrite Hws in Hnd.
  apply NoDup_app in Hnd as (Hnd_pre & Hdisj & Hnd_post).
  assert (Hlw : last_writer ∉ pre).
  { intros Hin. apply (Hdisj _ Hin). by left. }
  assert (Hnd_group : NoDup group).
  { subst group. apply NoDup_app. repeat split; try done.
    - intros x Hx Hx'. apply list_elem_of_singleton in Hx' as ->. done.
    - apply NoDup_singleton. }
  destruct (StartParallelRun_run w (Z.of_nat (length group)) last_writer
              (core P) pre post Hu Hws Hlw Hnd_pre Hfit)
    as (m1 & Hnum & Hstart).
  rewrite Hps in Hstart. simpl app in Hstart. fold group in Hstart.
  rewrite Z.eqb_refl in Hstart.
  set (s1 := mkState (last_writer :: post) group
                     (Z.of_nat (length group)) m1
                     (reverse (filter (λ p, p ≠ w) group)
                      ++ cv_signals (core P))) in *.
  assert (Hlen : length group = S (length pre)).
  { subst group. rewrite length_app. simpl. lia. }
  assert (Hrep : report_times (length group) s1
                 = Some (replicate (length pre) false ++ [true],
                         with_unfinished 0 s1)).
  { rewrite Hlen. apply report_times_run; simpl; lia. }
  assert (Hlive1 : ∀ p, p ∈ writers_ (core P) → is_Some (m1 !! p)).
  { intros p Hp. eapply numbered_live; [exact Hnum|]. by apply Hlive. }
  assert (Hw_in : w ∈ writers_ (core P)).
  { destruct (writers_ (core P)) as [|x l]; simpl in Hhead; [done|].
    injection Hhead as ->. by left. }
  destruct (LeaderEndParallel_run w last_writer
              (with_core (with_unfinished 0 s1) P) post)
    as (m3 & cs3 & Hend & Htag & Hcs & Ho); simpl.
  { done. }
  { subst group. by rewrite last_snoc. }
  { done. }
  { by apply Hlive1. }
  { intros p Hp. apply Hlive1. rewrite Hws. subst group.
    rewrite !elem_of_app, list_elem_of_singleton in Hp.
    rewrite elem_of_app, elem_of_cons. tauto. }
  simpl in Htag, Hcs, Ho.
  exists s1, (with_unfinished 0 s1). eexists.
  split; [exact Hstart|]. split; [exact Hrep|]. split; [exact Hend|].
  simpl. repeat (split; [done|]).
  destruct Hnum as [Hnum Hframe].
  split; [|split; [|split; [|split]]].
  - intros k p Hk.
    assert (Hin : p ∈ group) by (by eapply list_elem_of_lookup_2).
    destruct (Hlive p) as [wr Hwr].
    { rewrite Hws. subst group.
      rewrite !elem_of_app, list_elem_of_singleton in Hin.
      rewrite elem_of_app, elem_of_cons. tauto. }
    exists wr. split; [done|].
    rewrite (Htag p), (Hnum k p Hk), Hwr. simpl.
    destruct (decide (p ≠ w)) as [Hne|Heq].
    + rewrite (bool_decide_eq_true_2 (p ∈ group ∧ p ≠ w)) by done.
      by rewrite (bool_decide_eq_true_2 (p ≠ w)).
    + rewrite (bool_decide_eq_false_2 (p ∈ group ∧ p ≠ w)) by tauto.
      by rewrite (bool_decide_eq_false_2 (p ≠ w)).
  - intros p Hp. rewrite (Htag p), (Hframe p Hp).
    rewrite bool_decide_eq_false_2; [done|tauto].
  - unfold cfds_of at 1. simpl. rewrite Hcs.
    assert (∃ g', group = w :: g') as [g' Hg].
    { rewrite Hws in Hhead. subst group.
      destruct pre as [|x pre']; simpl in *; injection Hhead as ->; eauto. }
    rewrite Hg in Hnd_group |- *. apply NoDup_cons in Hnd_group as [Hw' _].
    rewrite filter_cons. destruct (decide (w ≠ w)); [done|].
    rewrite filter_ne_not_elem by done.
    rewrite cfds_of_all_cons. f_equal.
  - by rewrite app_assoc.
  - done.
Qed.

End ParallelFacts.

Lemma LeaderEndParallel_completes_the_run_witness :
  ∃ P',
    LeaderEndParallel 1%nat 3%nat parallel_run_reported = Some (tt, P')
    ∧ writers_ (core P') = [4%nat]
    ∧ parallel_writers_ (core P') = []
    ∧ cfds_of 1%nat P'
      = cfds_of 1%nat parallel_run_reported
        ∪ cfds_of_all [2; 3]%nat parallel_run_reported
    ∧ self_cv_signals P' = [3; 2]%nat
    ∧ cv_signals (core P') = [4; 3; 2]%nat.
Proof.
  destruct (LeaderEndParallel_completes_the_run
              1%nat 3%nat parallel_run_reported [4%nat])
    as (P' & Hrun & Hws & Hps & _ & _ & Hcfd & _ & Hself & Hcv & _).
  - reflexivity.
  - reflexivity.
  - reflexivity.
  - apply (bool_decide_unpack _). vm_compute. exact I.
  - apply Forall_forall. apply (bool_decide_unpack _). vm_compute. exact I.
  - exists P'. repeat split; assumption.
Defined.

Lemma parallel_run_start_to_end_witness :
  ∃ s1 s2 P3,
    StartParallelRun 1%nat 3 3%nat parallel_queue = Some (tt, s1)
    ∧ report_times 3 s1 = Some ([false; false; true], s2)
    ∧ LeaderEndParallel 1%nat 3%nat (with_core s2 parallel_sample)
      = Some (tt, P3)
    ∧ writers_ (core P3) = [4%nat]
    ∧ parallel_writers_ (core P3) = []
    ∧ unfinished_threads_ (core P3) = 0
    ∧ cfds_of 1%nat P3 = cfds_of_all [1; 2; 3]%nat parallel_sample.
Proof.
  destruct (parallel_run_start_to_end
              1%nat 3%nat parallel_sample [1; 2]%nat [4%nat])
    as (s1 & s2 & P3 & H1 & H2 & H3 & H4 & H5 & H6 & _ & _ & H7 & _).
  - reflexivity.
  - reflexivity.
  - reflexivity.
  - reflexivity.
  - apply (bool_decide_unpack _). vm_compute. exact I.
  - reflexivity.
  - reflexivity.
  - reflexivity.
  - exists s1, s2, P3. repeat split; assumption.
Defined.

Example leader_ends_parallel_run :
  ∃ s1 P',
    StartParallelRun 1%nat 3 3%nat parallel_queue = Some (tt, s1)
    ∧ LeaderEndParallel 1%nat 3%nat
                        (with_core (with_unfinished 0 s1) parallel_sample)
      = Some (tt, P')
    ∧ writers_ (core P') = [4%nat]
    ∧ cfds_of 1%nat P' = {[0; 1; 2]}%nat
    ∧ flush P' = ({[7%nat]}, [1%nat])
    ∧ self_cv_signals P' = [3; 2]%nat
    ∧ cv_signals (core P') = [4; 3; 2]%nat.
Proof.
  eexists _, _. split; [vm_compute; reflexivity|].
  split; [vm_compute; reflexivity|]. by vm_compute.
Qed.

End WriteThreadFacts.

(** ** The NVM environment *)

Module EnvNVMFacts.
Import EnvNVM.

Local Open Scope monad_scope.

Global Instance listed_files_laws : EnvLaws (list string).
Proof. constructor. reflexivity. Qed.

Example sample_paths :
  sst_info "/db/000002.sst" = mkInfo "/db" "000002.sst" true
  ∧ sst_info "/db/000001.log" = mkInfo "/db" "000001.log" false.
Proof. split; reflexivity. Qed.

Example sample_rename_on_device :
  ∃ e', RenameFile "/db/000002.sst" "/db/000003.sst" sample_env
        = Some (OK, e')
        ∧ fs_ e' !! "/db" = Some [1]
        ∧ files e' !! 1 = Some (mkObj "000003.sst" 1)
        ∧ files e' !! 2 = None.
Proof. eexists. split; [vm_compute; reflexivity|]. by vm_compute. Qed.

Section Properties.
Context {P F : Type} `{!PathOps, !NvmFileOps P F, !Env P}.

Lemma xorb_same (b : bool) : xorb b b = false.
Proof. by destruct b. Qed.

(** The test of line 327 compares the source with itself: an unmanaged
    source is handed to the default environment whatever the target is. *)
Lemma RenameFile_unmanaged_source (fpath_src fpath_tgt : string)
      (e : env P F) :
  nvm_managed (mk_info fpath_src) = false →
  RenameFile fpath_src fpath_tgt e
  = posix (posix_RenameFile fpath_src fpath_tgt) e.
Proof.
  intros Hm. unfold RenameFile. cbv zeta. by rewrite xorb_same, Hm.
Qed.

(** C9: for a path that is not NVM-managed DeleteFile is the FileExists
    query of the default environment: it returns OK exactly when the file
    exists and changes nothing, so the file is still there afterwards. *)
Theorem DeleteFile_unmanaged_queries_only `{!EnvLaws P}
        (fpath : string) (e : env P F) :
  nvm_managed (mk_info fpath) = false →
  DeleteFile fpath e = posix (posix_FileExists fpath) e
  ∧ DeleteFile fpath e
    = Some (if posix_holds fpath (posix_ e) then OK else NotFound, e)
  ∧ ∀ st e', DeleteFile fpath e = Some (st, e') →
             e' = e
             ∧ (st = OK ↔ posix_holds fpath (posix_ e) = true)
             ∧ posix_holds fpath (posix_ e') = posix_holds fpath (posix_ e).
Proof.
  intros Hm.
  assert (Hrun : DeleteFile fpath e
                 = Some (if posix_holds fpath (posix_ e) then OK else NotFound,
                         e)).
  { unfold DeleteFile. cbv zeta. rewrite Hm. simpl. unfold posix.
    rewrite posix_FileExists_spec. by destruct e. }
  split; [|split; [done|]].
  - unfold DeleteFile. cbv zeta. by rewrite Hm.
  - intros st e'. rewrite Hrun. intros [= <- <-]. split; [done|].
    split; [|done]. by destruct (posix_holds fpath (posix_ e)).
Qed.

Arguments file_at : simpl never.

Lemma file_at_Some (p : fptr) (e : env P F) (f : F) :
  files e !! p = Some f → file_at p e = Some (f, e).
Proof. intros Hf. unfold file_at. by rewrite Hf. Qed.

Lemma file_at_inv (p : fptr) (e e' : env P F) (f : F) :
  file_at p e = Some (f, e') → files e !! p = Some f ∧ e' = e.
Proof.
  unfold file_at. destruct (files e !! p); simpl; [|done].
  unfold ret. by intros [= -> ->].
Qed.

Lemma find_named_spec (name : string) (e : env P F) (p : fptr) :
  ∀ vec e',
    find_named name vec e = Some (Some p, e') →
    e' = e
    ∧ ∃ l1 l2 f, vec = l1 ++ p :: l2
                 ∧ others name e l1
                 ∧ files e !! p = Some f
                 ∧ IsNamed f name = true.
Proof.
  induction vec as [|q vec IH]; intros e' Hrun; simpl in Hrun; [done|].
  apply bind_inv in Hrun as (fq & e1 & H1 & Hrun).
  apply file_at_inv in H1 as [Hq ->].
  destruct (IsNamed fq name) eqn:Hn.
  - unfold ret in Hrun. simplify_eq. split; [done|].
    exists [], vec, fq. repeat split; try done. constructor.
  - apply IH in Hrun as (-> & l1 & l2 & f & -> & Hl1 & Hf & Hnf).
    split; [done|]. exists (q :: l1), l2, f. repeat split; try done.
    constructor; eauto.
Qed.

Lemma erase_named_run (name : string) (e : env P F) (p : fptr) (f : F)
      (l2 : list fptr) :
  files e !! p = Some f →
  IsNamed f name = true →
  ∀ l1, others name e l1 →
        erase_named name (l1 ++ p :: l2) e
        = Some (Some (l1 ++ l2), with_files (unreferenced p f (files e)) e).
Proof.
  intros Hf Hn. induction l1 as [|q l1 IH]; intros Hl1; simpl.
  - unfold bind. rewrite (file_at_Some _ _ _ Hf), Hn.
    unfold unref_at, bind. rewrite (file_at_Some _ _ _ Hf). reflexivity.
  - apply Forall_cons in Hl1 as [(fq & Hq & Hnq) Hl1].
    unfold bind. rewrite (file_at_Some _ _ _ Hq), Hnq.
    fold (@bind (env P F)). unfold bind. rewrite (IH Hl1). reflexivity.
Qed.

Lemma others_not_elem (name : string) (e : env P F) (p : fptr) (f : F)
      (l1 : list fptr) :
  files e !! p = Some f → IsNamed f name = true → others name e l1 →
  p ∉ l1.
Proof.
  intros Hf Hn Hl1 Hin. unfold others in Hl1. rewrite Forall_forall in Hl1.
  destruct (Hl1 p Hin) as (fq & Hq & Hnq). congruence.
Qed.

Lemma FindFileUnguarded_loaded (info : FPathInfo) (e : env P F)
      (vec : list fptr) (p : fptr) :
  fs_ e !! dpath info = Some vec →
  find_named (fname info) vec e = Some (Some p, e) →
  FindFileUnguarded info e = Some (Some p, e).
Proof.
  intros Hvec Hfind. unfold FindFileUnguarded, bind, gets. cbn beta iota.
  rewrite Hvec. cbn beta iota. by rewrite Hfind.
Qed.

Lemma DeleteFileUnguarded_loaded (info : FPathInfo) (e : env P F)
      (l1 l2 : list fptr) (p : fptr) (f : F) :
  fs_ e !! dpath info = Some (l1 ++ p :: l2) →
  others (fname info) e l1 →
  files e !! p = Some f →
  IsNamed f (fname info) = true →
  DeleteFileUnguarded info e
  = Some (OK, mkEnv (posix_ e) (<[dpath info := l1 ++ l2]> (fs_ e))
                    (unreferenced p f (files e))).
Proof.
  intros Hvec Hl1 Hf Hn. unfold DeleteFileUnguarded, bind, gets.
  cbn beta iota. rewrite Hvec. cbn beta iota.
  by rewrite (erase_named_run _ _ _ _ _ Hf Hn _ Hl1).
Qed.

(** RenameFile for an NVM-managed source: to another directory it returns
    an IO error; in the same directory, with the source found, the call is
    DeleteFileUnguarded on the target (when FindFileUnguarded finds one)
    followed by the renaming of the source; with source and target two
    files loaded in the directory, the target leaves the directory and is
    unreferenced, and the source file carries the name of the target. *)
Theorem RenameFile_managed_source
        (fpath_src fpath_tgt : string) (e : env P F) :
  nvm_managed (mk_info fpath_src) = true →
  (dpath (mk_info fpath_src) ≠ dpath (mk_info fpath_tgt) →
   RenameFile fpath_src fpath_tgt e = Some (IOError, e))
  ∧ (dpath (mk_info fpath_src) = dpath (mk_info fpath_tgt) →
     ∀ file e1 file_target e2,
       FindFileUnguarded (mk_info fpath_src) e = Some (Some file, e1) →
       FindFileUnguarded (mk_info fpath_tgt) e1 = Some (file_target, e2) →
       RenameFile fpath_src fpath_tgt e
       = (_ <- (if file_target is Some _
                then _ <- DeleteFileUnguarded (mk_info fpath_tgt) ;; ret tt
                else ret tt) ;;
          _ <- rename_at file (fname (mk_info fpath_tgt)) ;;
          ret OK) e2
       ∧ ∀ st e', RenameFile fpath_src fpath_tgt e = Some (st, e') → st = OK)
  ∧ (dpath (mk_info fpath_src) = dpath (mk_info fpath_tgt) →
     ∀ vec file tp f,
       fs_ e !! dpath (mk_info fpath_src) = Some vec →
       find_named (fname (mk_info fpath_src)) vec e = Some (Some file, e) →
       find_named (fname (mk_info fpath_tgt)) vec e = Some (Some tp, e) →
       file ≠ tp →
       files e !! file = Some f →
       ∃ l1 l2 ft,
         vec = l1 ++ tp :: l2
         ∧ (tp ∉ l1)
         ∧ files e !! tp = Some ft
         ∧ RenameFile fpath_src fpath_tgt e
           = Some (OK,
                   mkEnv (posix_ e)
                         (<[dpath (mk_info fpath_tgt) := l1 ++ l2]> (fs_ e))
                         (<[file := Rename f (fname (mk_info fpath_tgt))]>
                            (unreferenced tp ft (files e))))).
Proof.
  intros Hm.
  assert (Hhead : ∀ k : M (env P F) Status,
    dpath (mk_info fpath_src) = dpath (mk_info fpath_tgt) →
    (if xorb (nvm_managed (mk_info fpath_src)) (nvm_managed (mk_info fpath_src))
     then ret IOError
     else if negb (nvm_managed (mk_info fpath_src))
          then posix (posix_RenameFile fpath_src fpath_tgt)
     else if negb (String.eqb (dpath (mk_info fpath_src))
                              (dpath (mk_info fpath_tgt)))
          then ret IOError
     else k) = k).
  { intros k Hd. rewrite xorb_same, Hm, Hd, String.eqb_refl. done. }
  split; [|split].
  - intros Hd. unfold RenameFile. cbv zeta. rewrite xorb_same, Hm. simpl.
    by rewrite (proj2 (String.eqb_neq _ _) Hd).
  - intros Hd file e1 file_target e2 Hsrc Htgt.
    assert (Heq : RenameFile fpath_src fpath_tgt e
       = (_ <- (if file_target is Some _
                then _ <- DeleteFileUnguarded (mk_info fpath_tgt) ;; ret tt
                else ret tt) ;;
          _ <- rename_at file (fname (mk_info fpath_tgt)) ;;
          ret OK) e2).
    { unfold RenameFile. cbv zeta. rewrite (Hhead _ Hd).
      unfold bind at 1. rewrite Hsrc.
      unfold bind at 1. rewrite Htgt. reflexivity. }
    split; [exact Heq|].
    intros st e'. rewrite Heq. intros Hrun.
    apply bind_inv in Hrun as ([] & e3 & _ & Hrun).
    apply bind_inv in Hrun as ([] & e4 & _ & Hrun).
    unfold ret in Hrun. by simplify_eq.
  - intros Hd vec file tp f Hvec Hsrc Htgt Hne Hfile.
    apply find_named_spec in Htgt as Hspec.
    destruct Hspec as (_ & l1 & l2 & ft & -> & Hl1 & Hft & Hnt).
    exists l1, l2, ft. split; [done|].
    split; [by eapply others_not_elem|]. split; [done|].
    unfold RenameFile. cbv zeta. rewrite (Hhead _ Hd).
    unfold bind at 1.
    rewrite (FindFileUnguarded_loaded _ _ _ _ Hvec Hsrc).
    rewrite Hd in Hvec.
    unfold bind at 1.
    rewrite (FindFileUnguarded_loaded _ _ _ _ Hvec Htgt).
    unfold bind at 1. unfold bind at 1.
    rewrite (DeleteFileUnguarded_loaded _ _ _ _ _ _ Hvec Hl1 Hft Hnt).
    unfold ret at 1. unfold rename_at, bind.
    erewrite file_at_Some; [reflexivity|]. simpl. unfold unreferenced.
    destruct (Unref ft).
    + by rewrite lookup_insert_ne.
    + by rewrite lookup_delete_ne.
Qed.

End Properties.

Lemma DeleteFile_unmanaged_queries_only_witness :
  DeleteFile "/db/LOG" sample_env = posix (posix_FileExists "/db/LOG") sample_env
  ∧ DeleteFile "/db/LOG" sample_env
    = Some (if posix_holds "/db/LOG" (posix_ sample_env) then OK else NotFound,
            sample_env)
  ∧ ∀ st e', DeleteFile "/db/LOG" sample_env = Some (st, e') →
             e' = sample_env
             ∧ (st = OK ↔ posix_holds "/db/LOG" (posix_ sample_env) = true)
             ∧ posix_holds "/db/LOG" (posix_ e')
               = posix_holds "/db/LOG" (posix_ sample_env).
Proof.
  apply (DeleteFile_unmanaged_queries_only "/db/LOG" sample_env).
  reflexivity.
Defined.

(** C1 at a failing input: the log 000001.log of the default file system is
    not NVM-managed, the target 000004.sst is, and RenameFile returns OK with
    the file renamed by the default environment. *)
Theorem RenameFile_across_boundary_returns_OK :
  nvm_managed (mk_info "/db/000001.log") = false
  ∧ nvm_managed (mk_info "/db/000004.sst") = true
  ∧ RenameFile "/db/000001.log" "/db/000004.sst" sample_env
    = Some (OK, with_posix ["/db/000004.sst"; "/db/LOG"] sample_env).
Proof. repeat split; by vm_compute. Qed.

(** C10 at two failing inputs.  In [meta_target_env] the source 000002.sst
    is loaded and the target 000005.sst, in the same directory, exists:
    FileExists returns OK for both.  The lookup of the target makes an
    object from its meta file; DeleteFileUnguarded does not find that
    object in the directory and returns NotFound; RenameFile renames the
    source and returns OK with the object of the target and its meta file
    still there: the existing target was not deleted.  In [sample_env] the
    file 000002.sst renamed onto itself is found as its own target, erased
    and destroyed, and Rename is called on the destroyed object: the call
    does not return OK. *)
Theorem RenameFile_target_found_but_not_deleted :
  nvm_managed (mk_info "/db/000002.sst") = true
  ∧ dpath (mk_info "/db/000002.sst") = dpath (mk_info "/db/000005.sst")
  ∧ FileExists "/db/000002.sst" meta_target_env = Some (OK, meta_target_env)
  ∧ FileExists "/db/000005.sst" meta_target_env
    = Some (OK, meta_target_found)
  ∧ FindFileUnguarded (mk_info "/db/000005.sst") meta_target_env
    = Some (Some 2, meta_target_found)
  ∧ DeleteFileUnguarded (mk_info "/db/000005.sst") meta_target_found
    = Some (NotFound, meta_target_found)
  ∧ RenameFile "/db/000002.sst" "/db/000005.sst" meta_target_env
    = Some (OK, with_files (<[1 := mkObj "000005.sst" 1]>
                              (files meta_target_found))
                           meta_target_found)
  ∧ files meta_target_found !! 2 = Some (mkObj "000005.sst" 1)
  ∧ RenameFile "/db/000002.sst" "/db/000002.sst" sample_env = None.
Proof. repeat split; by vm_compute. Qed.

Lemma RenameFile_managed_source_witness :
  ∃ l1 l2 ft,
    [1; 2] = l1 ++ 2 :: l2
    ∧ (2 ∉ l1)
    ∧ files sample_env !! 2 = Some ft
    ∧ RenameFile "/db/000002.sst" "/db/000003.sst" sample_env
      = Some (OK,
              mkEnv (posix_ sample_env)
                    (<[dpath (mk_info "/db/000003.sst") := l1 ++ l2]>
                       (fs_ sample_env))
                    (<[1 := Rename (mkObj "000002.sst" 1)
                                   (fname (mk_info "/db/000003.sst"))]>
                       (unreferenced 2 ft (files sample_env)))).
Proof.
  refine (proj2 (proj2 (RenameFile_managed_source
                          "/db/000002.sst" "/db/000003.sst" sample_env _))
                _ [1; 2] 1 2 (mkObj "000002.sst" 1) _ _ _ _ _);
    try reflexivity.
  discriminate.
Defined.

(** *** Lookup and deletion *)

Section MoreProperties.
Context {P F : Type} `{!PathOps, !NvmFileOps P F, !Env P}.

Arguments file_at : simpl never.

Lemma find_named_None (name : string) (e : env P F) :
  ∀ vec e', find_named name vec e = Some (None, e') →
            e' = e ∧ others name e vec.
Proof.
  induction vec as [|q vec IH]; intros e' Hrun; simpl in Hrun.
  - unfold ret in Hrun. simplify_eq. split; [done|constructor].
  - apply bind_inv in Hrun as (fq & e1 & H1 & Hrun).
    apply file_at_inv in H1 as [Hq ->].
    destruct (IsNamed fq name) eqn:Hn; [by unfold ret in Hrun|].
    apply IH in Hrun as [-> Ho]. split; [done|]. constructor; eauto.
Qed.

Lemma find_named_others (name : string) (e : env P F) (vec : list fptr) :
  others name e vec → find_named name vec e = Some (None, e).
Proof.
  induction 1 as [|q vec (fq & Hq & Hn) _ IH]; simpl; [done|].
  unfold bind. by rewrite (file_at_Some _ _ _ Hq), Hn.
Qed.

Lemma find_named_found (name : string) (e : env P F) (p : fptr) (f : F)
      (l1 l2 : list fptr) :
  others name e l1 → files e !! p = Some f → IsNamed f name = true →
  find_named name (l1 ++ p :: l2) e = Some (Some p, e).
Proof.
  intros Ho Hp Hn. induction Ho as [|q l1 (fq & Hq & Hnq) _ IH]; simpl.
  - unfold bind. by rewrite (file_at_Some _ _ _ Hp), Hn.
  - unfold bind. by rewrite (file_at_Some _ _ _ Hq), Hnq.
Qed.

Lemma others_live (name : string) (e : env P F) (vec : list fptr) (q : fptr) :
  others name e vec → q ∈ vec → is_Some (files e !! q).
Proof.
  unfold others. rewrite Forall_forall. intros Ho Hq.
  destruct (Ho q Hq) as (fq & -> & _). eauto.
Qed.

Lemma others_ext (name : string) (e e' : env P F) (vec : list fptr) :
  (∀ q, q ∈ vec → files e' !! q = files e !! q) →
  others name e vec → others name e' vec.
Proof.
  unfold others. rewrite !Forall_forall. intros Hext Ho q Hq.
  destruct (Ho q Hq) as (fq & Hfq & Hn). exists fq. by rewrite Hext.
Qed.

Lemma unref_at_inv (p : fptr) (e e' : env P F) :
  unref_at p e = Some (tt, e') →
  ∃ f, files e !! p = Some f
       ∧ e' = with_files (unreferenced p f (files e)) e.
Proof.
  unfold unref_at. intros Hrun.
  apply bind_inv in Hrun as (f & e1 & H1 & Hrun).
  apply file_at_inv in H1 as [Hp ->]. unfold modify in Hrun.
  exists f. split; [done|]. by simplify_eq.
Qed.

Lemma erase_named_inv (name : string) (e : env P F) :
  ∀ vec r e',
    erase_named name vec e = Some (r, e') →
    (r = None ∧ e' = e ∧ others name e vec)
    ∨ ∃ l1 p l2 f,
        vec = l1 ++ p :: l2
        ∧ others name e l1
        ∧ files e !! p = Some f
        ∧ IsNamed f name = true
        ∧ r = Some (l1 ++ l2)
        ∧ e' = with_files (unreferenced p f (files e)) e.
Proof.
  induction vec as [|q vec IH]; intros r e' Hrun; simpl in Hrun.
  - unfold ret in Hrun. simplify_eq. left. repeat split. constructor.
  - apply bind_inv in Hrun as (fq & e1 & H1 & Hrun).
    apply file_at_inv in H1 as [Hq ->].
    destruct (IsNamed fq name) eqn:Hn.
    + apply bind_inv in Hrun as ([] & e2 & H2 & Hrun).
      apply unref_at_inv in H2 as (f & Hf & ->).
      unfold ret in Hrun. simplify_eq.
      right. exists [], q, vec, fq. repeat split; try done. constructor.
    + apply bind_inv in Hrun as (r' & e2 & H2 & Hrun).
      unfold ret in Hrun. simplify_eq.
      apply IH in H2 as [(-> & -> & Ho)|(l1 & p & l2 & f & -> & Ho & Hp & Hnp
                                         & -> & ->)].
      * left. repeat split. constructor; eauto.
      * right. exists (q :: l1), p, l2, f. repeat split; try done.
        constructor; eauto.
Qed.

Lemma erase_named_total (name : string) (e : env P F) (vec : list fptr) :
  Forall (λ q, is_Some (files e !! q)) vec →
  is_Some (erase_named name vec e).
Proof.
  induction 1 as [|q vec [fq Hq] _ [[r e'] IH]]; simpl; [by eexists|].
  unfold bind at 1. rewrite (file_at_Some _ _ _ Hq).
  destruct (IsNamed fq name).
  - unfold bind, unref_at, bind. rewrite (file_at_Some _ _ _ Hq).
    by eexists.
  - unfold bind. rewrite IH. by eexists.
Qed.

Lemma DeleteFileUnguarded_inv (info : FPathInfo) (e e' : env P F)
      (st : Status) :
  DeleteFileUnguarded info e = Some (st, e') →
  (st = NotFound ∧ e' = e
   ∧ ∀ vec, fs_ e !! dpath info = Some vec → others (fname info) e vec)
  ∨ (st = OK
     ∧ ∃ l1 p l2 f,
         fs_ e !! dpath info = Some (l1 ++ p :: l2)
         ∧ others (fname info) e l1
         ∧ files e !! p = Some f
         ∧ IsNamed f (fname info) = true
         ∧ e' = mkEnv (posix_ e) (<[dpath info := l1 ++ l2]> (fs_ e))
                      (unreferenced p f (files e))).
Proof.
  unfold DeleteFileUnguarded. intros Hrun.
  apply bind_inv in Hrun as (fs & e1 & H1 & Hrun).
  unfold gets in H1. injection H1 as <- <-.
  destruct (fs_ e !! dpath info) as [vec|] eqn:Hvec.
  - apply bind_inv in Hrun as (r & e2 & H2 & Hrun).
    apply erase_named_inv in H2
      as [(-> & -> & Ho)|(l1 & p & l2 & f & -> & Ho & Hp & Hnp & -> & ->)].
    + unfold ret in Hrun. simplify_eq. left. repeat split. by intros ? [= <-].
    + apply bind_inv in Hrun as ([] & e3 & H3 & Hrun).
      unfold modify in H3. unfold ret in Hrun. simplify_eq.
      right. split; [done|]. exists l1, p, l2, f. by repeat split.
  - unfold ret in Hrun. simplify_eq. left. by repeat split.
Qed.

(** X9: for an NVM-managed path DeleteFile never calls the default
    environment and touches no other directory.  NotFound leaves the
    environment as it was: the directory has no entry, or none of its files
    has the name.  OK erases the first file of that name from the vector
    of the directory, and that file is unreferenced once.  The call returns
    whenever the files of the directory are live. *)
Theorem DeleteFile_managed_erases_first_named (fpath : string) (e : env P F) :
  nvm_managed (mk_info fpath) = true →
  (fs_ e !! dpath (mk_info fpath) = None →
   DeleteFile fpath e = Some (NotFound, e))
  ∧ (∀ vec, fs_ e !! dpath (mk_info fpath) = Some vec →
            Forall (λ q, is_Some (files e !! q)) vec →
            is_Some (DeleteFile fpath e))
  ∧ ∀ st e',
      DeleteFile fpath e = Some (st, e') →
      posix_ e' = posix_ e
      ∧ (∀ d, d ≠ dpath (mk_info fpath) → fs_ e' !! d = fs_ e !! d)
      ∧ ((st = NotFound ∧ e' = e
          ∧ ∀ vec, fs_ e !! dpath (mk_info fpath) = Some vec →
                   others (fname (mk_info fpath)) e vec)
         ∨ (st = OK
            ∧ ∃ l1 p l2 f,
                fs_ e !! dpath (mk_info fpath) = Some (l1 ++ p :: l2)
                ∧ others (fname (mk_info fpath)) e l1
                ∧ files e !! p = Some f
                ∧ IsNamed f (fname (mk_info fpath)) = true
                ∧ fs_ e' = <[dpath (mk_info fpath) := l1 ++ l2]> (fs_ e)
                ∧ files e' = unreferenced p f (files e))).
Proof.
  intros Hm.
  assert (Heq : DeleteFile fpath e = DeleteFileUnguarded (mk_info fpath) e).
  { unfold DeleteFile. cbv zeta. by rewrite Hm. }
  rewrite Heq. split; [|split].
  - intros Hnone. unfold DeleteFileUnguarded, bind, gets. cbn beta iota.
    by rewrite Hnone.
  - intros vec Hvec Hlive.
    destruct (erase_named_total (fname (mk_info fpath)) e vec Hlive)
      as [[r e1] Hr].
    unfold DeleteFileUnguarded, bind, gets. cbn beta iota.
    rewrite Hvec. cbn beta iota. rewrite Hr. destruct r; by eexists.
  - intros st e' Hrun.
    apply DeleteFileUnguarded_inv in Hrun
      as [(-> & -> & Ho)|(-> & l1 & p & l2 & f & Hvec & Ho & Hp & Hn & ->)].
    + split; [done|]. split; [done|]. left. by repeat split.
    + simpl. split; [done|].
      split; [intros d Hd; by rewrite lookup_insert_ne|].
      right. split; [done|]. exists l1, p, l2, f. by repeat split.
Qed.

Lemma from_listing_inv (info : FPathInfo) (e : env P F) :
  ∀ listing r e',
    from_listing info listing e = Some (r, e') →
    match r with
    | None => e' = e
    | Some p =>
      ∃ entry f,
        entry ∈ listing
        ∧ ends_with entry "meta" = true
        ∧ String.prefix (fname info) entry = true
        ∧ NvmFile_from_meta info (dpath info +:+ sep +:+ entry) (posix_ e)
          = Some f
        ∧ p = fresh (dom (files e))
        ∧ e' = with_files (<[p := f]> (files e)) e
    end.
Proof.
  induction listing as [|entry listing IH]; intros r e' Hrun;
    simpl in Hrun.
  - unfold ret in Hrun. by simplify_eq.
  - assert (Hskip : from_listing info listing e = Some (r, e') →
                    match r with
                    | None => e' = e
                    | Some p =>
                      ∃ entry0 f,
                        entry0 ∈ entry :: listing
                        ∧ ends_with entry0 "meta" = true
                        ∧ String.prefix (fname info) entry0 = true
                        ∧ NvmFile_from_meta
                            info (dpath info +:+ sep +:+ entry0) (posix_ e)
                          = Some f
                        ∧ p = fresh (dom (files e))
                        ∧ e' = with_files (<[p := f]> (files e)) e
                    end).
    { intros Hrest. apply IH in Hrest. destruct r as [p|]; [|done].
      destruct Hrest as (entry0 & f & Hin & Hrest).
      exists entry0, f. split; [by right|done]. }
    destruct (ends_with entry "meta") eqn:Hm; simpl in Hrun;
      [|exact (Hskip Hrun)].
    destruct (String.prefix (fname info) entry) eqn:Hp; simpl in Hrun;
      [|exact (Hskip Hrun)].
    unfold bind, gets in Hrun. cbn beta iota in Hrun.
    destruct (NvmFile_from_meta info (dpath info +:+ sep +:+ entry)
                                (posix_ e)) as [f|] eqn:Hf.
    + unfold alloc, ret in Hrun. injection Hrun as <- <-.
      exists entry, f. repeat split; try done. by left.
    + unfold ret in Hrun. by injection Hrun as <- <-.
Qed.

Lemma from_listing_found (info : FPathInfo) (e : env P F)
      (skipped rest : list string) (entry : string) (f : F) :
  Forall (λ x, ends_with x "meta" = false
               ∨ String.prefix (fname info) x = false) skipped →
  ends_with entry "meta" = true →
  String.prefix (fname info) entry = true →
  NvmFile_from_meta info (dpath info +:+ sep +:+ entry) (posix_ e) = Some f →
  from_listing info (skipped ++ entry :: rest) e
  = Some (Some (fresh (dom (files e))),
          with_files (<[fresh (dom (files e)) := f]> (files e)) e).
Proof.
  intros Hskip Hm Hp Hf.
  induction Hskip as [|x skipped [Hx|Hx] _ IH]; simpl.
  - rewrite Hm, Hp. simpl. unfold bind, gets. cbn beta iota.
    by rewrite Hf.
  - by rewrite Hx.
  - rewrite Hx. simpl. by destruct (ends_with x "meta").
Qed.

Lemma from_listing_none (info : FPathInfo) (e : env P F)
      (listing : list string) :
  Forall (λ x, ends_with x "meta" = false
               ∨ String.prefix (fname info) x = false) listing →
  from_listing info listing e = Some (None, e).
Proof.
  induction 1 as [|x listing [Hx|Hx] _ IH]; simpl; [done| |].
  - by rewrite Hx.
  - rewrite Hx. simpl. by destruct (ends_with x "meta").
Qed.

Lemma FindFileUnguarded_unloaded (info : FPathInfo) (e : env P F)
      (vec : list fptr) :
  fs_ e !! dpath info = Some vec →
  others (fname info) e vec →
  FindFileUnguarded info e
  = (r <- posix (posix_GetChildren (dpath info)) ;;
     if negb (ok r.1) then ret None else from_listing info r.2) e.
Proof.
  intros Hvec Ho. unfold FindFileUnguarded at 1.
  unfold bind at 1, gets. cbn beta iota. rewrite Hvec.
  unfold bind at 1. by rewrite (find_named_others _ _ _ Ho).
Qed.

Lemma FindFileUnguarded_None_inv (info : FPathInfo) (e e' : env P F) :
  FindFileUnguarded info e = Some (None, e') →
  fs_ e' = fs_ e ∧ files e' = files e
  ∧ ∀ vec, fs_ e !! dpath info = Some vec → others (fname info) e vec.
Proof.
  unfold FindFileUnguarded. intros Hrun.
  apply bind_inv in Hrun as (fs & e1 & H1 & Hrun).
  unfold gets in H1. injection H1 as <- <-.
  destruct (fs_ e !! dpath info) as [vec|] eqn:Hvec.
  - apply bind_inv in Hrun as (found & e1 & H1 & Hrun).
    destruct found as [p|]; [by unfold ret in Hrun|].
    apply find_named_None in H1 as [-> Ho].
    apply bind_inv in Hrun as (r & e2 & H2 & Hrun).
    unfold posix in H2.
    destruct (posix_GetChildren (dpath info) (posix_ e)) as [[st l] px].
    injection H2 as <- <-. simpl in Hrun.
    destruct (ok st); simpl in Hrun.
    + apply from_listing_inv in Hrun as ->. repeat split.
      by intros ? [= <-].
    + unfold ret in Hrun. injection Hrun as <-. repeat split.
      by intros ? [= <-].
  - unfold ret in Hrun. injection Hrun as <-. by repeat split.
Qed.


(** X11: a managed file that is loaded, renamed onto its own path: the
    lookup of the target finds the source, so the source is erased from its
    directory and unreferenced before it is renamed.  When Unref leaves the
    object, OK is returned and no directory holds the file any more; when
    Unref destroys it, Rename is called on the destroyed object. *)
Theorem RenameFile_onto_itself
        (fpath : string) (e : env P F) (l1 l2 : list fptr) (p : fptr)
        (f : F) :
  nvm_managed (mk_info fpath) = true →
  fs_ e !! dpath (mk_info fpath) = Some (l1 ++ p :: l2) →
  others (fname (mk_info fpath)) e l1 →
  files e !! p = Some f →
  IsNamed f (fname (mk_info fpath)) = true →
  RenameFile fpath fpath e
  = match Unref f with
    | Some f' =>
      Some (OK, mkEnv (posix_ e)
                      (<[dpath (mk_info fpath) := l1 ++ l2]> (fs_ e))
                      (<[p := Rename f' (fname (mk_info fpath))]> (files e)))
    | None => None
    end.
Proof.
  intros Hm Hvec Ho Hp Hn.
  pose proof (find_named_found _ _ _ _ _ l2 Ho Hp Hn) as Hfind.
  unfold RenameFile. cbv zeta.
  rewrite xorb_same, Hm, String.eqb_refl. simpl.
  unfold bind at 1. rewrite (FindFileUnguarded_loaded _ _ _ _ Hvec Hfind).
  unfold bind at 1. rewrite (FindFileUnguarded_loaded _ _ _ _ Hvec Hfind).
  unfold bind at 1. unfold bind at 1.
  rewrite (DeleteFileUnguarded_loaded _ _ _ _ _ _ Hvec Ho Hp Hn).
  unfold ret at 1. unfold rename_at, bind, unreferenced, file_at. simpl.
  destruct (Unref f) as [f'|].
  - rewrite lookup_insert_eq. simpl. unfold modify, ret, with_files. simpl.
    by rewrite insert_insert_eq.
  - by rewrite lookup_delete_eq.
Qed.

(** X12: an NVM-managed file that is loaded once in its directory and
    deleted is not found by FileExists afterwards, as long as the default
    environment lists no meta file for its name (or fails to list the
    directory): the lookup that follows goes through the vector and then
    asks the default environment. *)
Theorem DeleteFile_then_FileExists
        (fpath : string) (e : env P F) (l1 l2 : list fptr) (p : fptr)
        (f : F) (st : Status) (listing : list string) (px : P) :
  nvm_managed (mk_info fpath) = true →
  fs_ e !! dpath (mk_info fpath) = Some (l1 ++ p :: l2) →
  others (fname (mk_info fpath)) e l1 →
  files e !! p = Some f →
  IsNamed f (fname (mk_info fpath)) = true →
  others (fname (mk_info fpath)) e l2 →
  posix_GetChildren (dpath (mk_info fpath)) (posix_ e) = (st, listing, px) →
  ok st = false ∨ no_meta (fname (mk_info fpath)) listing →
  ∃ e1,
    DeleteFile fpath e = Some (OK, e1)
    ∧ fs_ e1 !! dpath (mk_info fpath) = Some (l1 ++ l2)
    ∧ files e1 = unreferenced p f (files e)
    ∧ FileExists fpath e1 = Some (NotFound, with_posix px e1).
Proof.
  intros Hm Hvec Ho1 Hp Hn Ho2 Hls Hnone.
  eexists. split; [|split; [|split]].
  - unfold DeleteFile. cbv zeta. rewrite Hm. simpl.
    apply (DeleteFileUnguarded_loaded _ _ _ _ _ _ Hvec Ho1 Hp Hn).
  - simpl. by rewrite lookup_insert_eq.
  - done.
  - unfold FileExists. cbv zeta. rewrite Hm. simpl.
    unfold bind at 1.
    erewrite FindFileUnguarded_unloaded;
      [|simpl; by rewrite lookup_insert_eq|].
    + unfold bind at 1, posix. simpl. rewrite Hls. simpl.
      destruct Hnone as [Hst|Hnone].
      * by rewrite Hst.
      * destruct (ok st); simpl; [|done].
        by rewrite (from_listing_none _ _ _ Hnone).
    + assert (Hnot : ∀ q, q ∈ l1 ++ l2 → q ≠ p).
      { intros q Hq ->. apply elem_of_app in Hq as [Hq|Hq].
        - by apply (others_not_elem _ _ _ _ _ Hp Hn Ho1).
        - by apply (others_not_elem _ _ _ _ _ Hp Hn Ho2). }
      eapply (others_ext _ e).
      * intros q Hq. simpl. unfold unreferenced.
        destruct (Unref f).
        -- rewrite lookup_insert_ne; [done|]. intros <-. by eapply Hnot.
        -- rewrite lookup_delete_ne; [done|]. intros <-. by eapply Hnot.
      * unfold others in *. by apply Forall_app.
Qed.

Lemma erase_named_others (name : string) (e : env P F) (vec : list fptr) :
  others name e vec → erase_named name vec e = Some (None, e).
Proof.
  induction 1 as [|q vec (fq & Hq & Hn) _ IH]; simpl; [done|].
  unfold bind at 1. rewrite (file_at_Some _ _ _ Hq), Hn.
  unfold bind. by rewrite IH.
Qed.

(** A target that is found through its meta file only is not in the vector
    of its directory: DeleteFileUnguarded returns NotFound for it, so
    RenameFile deletes nothing, leaves the object it made for the target
    where it is, renames the source and returns OK. *)
Lemma RenameFile_target_from_meta
      (fpath_src fpath_tgt : string) (e : env P F) (l1 l2 : list fptr)
      (file : fptr) (f ft : F) (skipped rest : list string)
      (entry : string) :
  nvm_managed (mk_info fpath_src) = true →
  dpath (mk_info fpath_src) = dpath (mk_info fpath_tgt) →
  fs_ e !! dpath (mk_info fpath_src) = Some (l1 ++ file :: l2) →
  others (fname (mk_info fpath_src)) e l1 →
  files e !! file = Some f →
  IsNamed f (fname (mk_info fpath_src)) = true →
  others (fname (mk_info fpath_tgt)) e (l1 ++ file :: l2) →
  posix_GetChildren (dpath (mk_info fpath_tgt)) (posix_ e)
  = (OK, skipped ++ entry :: rest, posix_ e) →
  no_meta (fname (mk_info fpath_tgt)) skipped →
  ends_with entry "meta" = true →
  String.prefix (fname (mk_info fpath_tgt)) entry = true →
  NvmFile_from_meta (mk_info fpath_tgt)
                    (dpath (mk_info fpath_tgt) +:+ sep +:+ entry) (posix_ e)
  = Some ft →
  RenameFile fpath_src fpath_tgt e
  = Some (OK,
          mkEnv (posix_ e) (fs_ e)
                (<[file := Rename f (fname (mk_info fpath_tgt))]>
                   (<[fresh (dom (files e)) := ft]> (files e)))).
Proof.
  intros Hm Hd Hvec Ho Hfile Hn Hot Hls Hskip Hmeta Hpre Hft.
  pose proof (find_named_found _ _ _ _ _ l2 Ho Hfile Hn) as Hfind.
  set (p := fresh (dom (files e))).
  assert (Hp : files e !! p = None).
  { apply not_elem_of_dom. apply is_fresh. }
  set (e1 := with_files (<[p := ft]> (files e)) (with_posix (posix_ e) e)).
  assert (Hext : ∀ q, q ∈ l1 ++ file :: l2 →
                      files e1 !! q = files e !! q).
  { intros q Hq. simpl. rewrite lookup_insert_ne; [done|]. intros <-.
    destruct (others_live _ _ _ _ Hot Hq) as [x Hx]. congruence. }
  assert (H1 : FindFileUnguarded (mk_info fpath_src) e
               = Some (Some file, e)).
  { by apply (FindFileUnguarded_loaded _ _ (l1 ++ file :: l2)). }
  rewrite Hd in Hvec.
  assert (H2 : FindFileUnguarded (mk_info fpath_tgt) e = Some (Some p, e1)).
  { erewrite FindFileUnguarded_unloaded; [|exact Hvec|exact Hot].
    unfold bind at 1, posix. rewrite Hls. simpl.
    erewrite from_listing_found; [|done|done|done|simpl; exact Hft].
    reflexivity. }
  assert (H3 : DeleteFileUnguarded (mk_info fpath_tgt) e1
               = Some (NotFound, e1)).
  { unfold DeleteFileUnguarded, bind at 1, gets. cbn beta iota.
    change (fs_ e1) with (fs_ e). rewrite Hvec.
    unfold bind at 1.
    by rewrite (erase_named_others _ e1 _ (others_ext _ e e1 _ Hext Hot)). }
  assert (H4 : rename_at file (fname (mk_info fpath_tgt)) e1
               = Some (tt, with_files
                             (<[file := Rename f (fname (mk_info fpath_tgt))]>
                                (files e1)) e1)).
  { unfold rename_at, bind.
    erewrite file_at_Some; [reflexivity|].
    rewrite Hext; [exact Hfile|]. apply elem_of_app. right. by left. }
  unfold RenameFile. cbv zeta.
  rewrite xorb_same, Hm, Hd, String.eqb_refl. simpl.
  mstep by (exact H1). cbv beta iota.
  mstep by (exact H2). cbv beta iota.
  mstep by (erewrite bind_Some by (exact H3); reflexivity).
  mstep by (exact H4).
  unfold ret. subst e1. by destruct e.
Qed.

(** X13: a file known by its meta file only is made anew by every lookup:
    two calls of FileExists return OK and leave two objects at two
    addresses that were not in use, and [fs_] is as before, so neither of
    them is reachable from the environment. *)
Theorem FileExists_from_meta_allocates_again
        (fpath : string) (e : env P F) (vec : list fptr)
        (skipped rest : list string) (entry : string) (f : F) :
  nvm_managed (mk_info fpath) = true →
  fs_ e !! dpath (mk_info fpath) = Some vec →
  others (fname (mk_info fpath)) e vec →
  posix_GetChildren (dpath (mk_info fpath)) (posix_ e)
  = (OK, skipped ++ entry :: rest, posix_ e) →
  no_meta (fname (mk_info fpath)) skipped →
  ends_with entry "meta" = true →
  String.prefix (fname (mk_info fpath)) entry = true →
  NvmFile_from_meta (mk_info fpath)
                    (dpath (mk_info fpath) +:+ sep +:+ entry) (posix_ e)
  = Some f →
  ∃ p1 p2 e1 e2,
    FileExists fpath e = Some (OK, e1)
    ∧ FileExists fpath e1 = Some (OK, e2)
    ∧ p1 ≠ p2
    ∧ files e !! p1 = None
    ∧ files e !! p2 = None
    ∧ files e2 = <[p2 := f]> (<[p1 := f]> (files e))
    ∧ fs_ e2 = fs_ e
    ∧ posix_ e2 = posix_ e.
Proof.
  intros Hm Hvec Ho Hls Hskip Hmeta Hpre Hf.
  assert (Hrun : ∀ e0 : env P F,
            fs_ e0 = fs_ e → posix_ e0 = posix_ e →
            others (fname (mk_info fpath)) e0 vec →
            FileExists fpath e0
            = Some (OK, with_files (<[fresh (dom (files e0)) := f]>
                                      (files e0)) e0)).
  { intros e0 Hfs Hpx Ho0. unfold FileExists. cbv zeta. rewrite Hm. simpl.
    unfold bind at 1.
    erewrite FindFileUnguarded_unloaded; [|by rewrite Hfs|done].
    unfold bind at 1, posix. rewrite Hpx, Hls. simpl.
    erewrite from_listing_found; [|done|done|done|simpl; exact Hf].
    destruct e0; simpl in *. by subst. }
  set (p1 := fresh (dom (files e))).
  set (e1 := with_files (<[p1 := f]> (files e)) e).
  set (p2 := fresh (dom (files e1))).
  assert (H1 : files e !! p1 = None).
  { apply not_elem_of_dom. apply is_fresh. }
  assert (H2 : p2 ∉ dom (files e1)) by apply is_fresh.
  simpl in H2. rewrite dom_insert in H2.
  exists p1, p2, e1, (with_files (<[p2 := f]> (files e1)) e1).
  split; [by apply Hrun|]. split.
  - apply Hrun; try done.
    eapply (others_ext _ e); [|done].
    intros q Hq. simpl. rewrite lookup_insert_ne; [done|]. intros <-.
    destruct (others_live _ _ _ _ Ho Hq) as [x Hx]. congruence.
  - split; [set_solver|]. split; [done|].
    split; [apply not_elem_of_dom; set_solver|]. done.
Qed.

End MoreProperties.

(** *** Construction, creation and listing *)

Section Creation.
Context {P F : Type}
        `{!PathOps, !NvmFileOps P F, !Env P, !NvmFileMore P F, !EnvMore P}.

Arguments file_at : simpl never.

Lemma index_0_prefix (s1 s2 : string) :
  String.index 0 s1 s2 = Some 0%nat ↔ String.prefix s1 s2 = true.
Proof.
  destruct s2 as [|b s2].
  - destruct s1; simpl; split; done.
  - cbn [String.index].
    destruct (String.prefix s1 (String b s2)); [done|].
    destruct (String.index 0 s1 s2); split; done.
Qed.

Lemma append_cons (a : ascii) (s t : string) :
  String a s +:+ t = String a (s +:+ t).
Proof. reflexivity. Qed.

Lemma prefix_app (s1 s2 : string) :
  String.prefix s1 s2 = true ↔ ∃ t, s2 = s1 +:+ t.
Proof.
  revert s2. induction s1 as [|a s1 IH]; intros s2.
  - split; [intros _; by exists s2|by destruct s2].
  - destruct s2 as [|b s2]; simpl.
    + split; [done|]. intros [t Ht]. by rewrite append_cons in Ht.
    + destruct (Ascii.ascii_dec a b) as [->|Hne].
      * rewrite IH. split; intros [t Ht]; exists t.
        -- by rewrite append_cons, Ht.
        -- rewrite append_cons in Ht. by injection Ht.
      * split; [done|]. intros [t Ht]. rewrite append_cons in Ht.
        congruence.
Qed.

Lemma substring_all (t : string) :
  String.substring 0 (String.length t) t = t.
Proof. induction t as [|a t IH]; simpl; [done|]. by rewrite IH. Qed.

Lemma length_append (s1 t : string) :
  String.length (s1 +:+ t) = (String.length s1 + String.length t)%nat.
Proof.
  induction s1 as [|a s1 IH]; [done|].
  rewrite append_cons. simpl. by rewrite IH.
Qed.

Lemma substr_app (s1 t : string) :
  substr (String.length s1) (s1 +:+ t) = Some t.
Proof.
  unfold substr. rewrite length_append.
  replace (String.length s1 <=? String.length s1 + String.length t)%nat
    with true by (symmetry; apply Nat.leb_le; lia).
  f_equal.
  replace (String.length s1 + String.length t - String.length s1)%nat
    with (String.length t) by lia.
  induction s1 as [|a s1 IH]; [apply substring_all|].
  rewrite append_cons. simpl. exact IH.
Qed.

(** X14: the constructor accepts exactly the uris that begin with nvm://
    and throws for every other one; [dev_name_] is what follows the
    prefix, [uri_] is the uri, [fs_] is empty and [posix_] is the default
    environment. *)
Theorem EnvNVM_new_accepts_exactly_nvm_uris (px : P) (uri : string) :
  (∀ o : EnvNVM_members P F,
     EnvNVM_new px uri = Some o
     ↔ this o = mkEnv px ∅ ∅
       ∧ uri_ o = uri
       ∧ uri = uri_prefix +:+ dev_name_ o)
  ∧ (EnvNVM_new (F := F) px uri = None
     ↔ String.prefix uri_prefix uri = false).
Proof.
  unfold EnvNVM_new, find.
  destruct (String.prefix uri_prefix uri) eqn:Hp.
  - rewrite (proj2 (index_0_prefix _ _) Hp).
    apply prefix_app in Hp as [t ->]. rewrite substr_app. simpl.
    split; [|done]. intros [e u d]. simpl. split.
    + intros [= <- <- <-]. by repeat split.
    + intros (-> & -> & Hd). apply (f_equal (substr (String.length uri_prefix)))
        in Hd.
      rewrite !substr_app in Hd. by injection Hd as ->.
  - assert (Hi : String.index 0 uri_prefix uri ≠ Some 0%nat).
    { rewrite index_0_prefix. congruence. }
    split.
    + intros o. split.
      * destruct (String.index 0 uri_prefix uri) as [[|n]|]; done.
      * intros (_ & _ & Hu).
        assert (String.prefix uri_prefix uri = true); [|congruence].
        apply prefix_app. eauto.
    + split; [done|]. intros _.
      destruct (String.index 0 uri_prefix uri) as [[|n]|]; done.
Qed.

Lemma names_of_run (e : env P F) (vec : list fptr) :
  Forall (λ q, is_Some (files e !! q)) vec →
  ∃ names,
    names_of vec e = Some (names, e)
    ∧ Forall2 (λ q n, GetFname <$> files e !! q = Some n) vec names.
Proof.
  induction 1 as [|q vec [fq Hq] _ (names & Hrun & Hnames)]; simpl.
  - exists []. split; [done|constructor].
  - exists (GetFname fq :: names). split.
    + unfold bind at 1. rewrite (file_at_Some _ _ _ Hq).
      unfold bind at 1. by rewrite Hrun.
    + constructor; [by rewrite Hq|done].
Qed.

(** X15: GetChildren returns OK whatever the default environment
    answered; the result is the listing of the default environment
    followed by the names of the files loaded in the directory, in the
    order of the vector; and a directory without an entry in [fs_] has an
    empty one afterwards. *)
Theorem GetChildren_merges_listing_and_loaded
        (d : string) (e : env P F) (st : Status) (listing : list string)
        (px : P) :
  posix_GetChildren d (posix_ e) = (st, listing, px) →
  Forall (λ q, is_Some (files e !! q)) (default [] (fs_ e !! d)) →
  ∃ names,
    GetChildren d e
    = Some ((OK, listing ++ names),
            mkEnv px (<[d := default [] (fs_ e !! d)]> (fs_ e)) (files e))
    ∧ Forall2 (λ q n, GetFname <$> files e !! q = Some n)
              (default [] (fs_ e !! d)) names.
Proof.
  intros Hls Hlive. unfold GetChildren.
  unfold bind at 1, posix. rewrite Hls.
  unfold bind at 1, gets. cbn beta iota.
  change (fs_ (with_posix px e)) with (fs_ e).
  destruct (fs_ e !! d) as [vec|] eqn:Hvec; simpl in Hlive |- *.
  - destruct (names_of_run (with_posix px e) vec Hlive)
      as (names & Hrun & Hnames).
    exists names. split; [|done].
    unfold bind at 1, ret at 1. unfold bind at 1. rewrite Hrun.
    unfold ret, with_posix. simpl. by rewrite insert_id.
  - exists []. split; [|constructor]. reflexivity.
Qed.

Lemma GetChildren_unlisted (d : string) (e : env P F) (st : Status)
      (listing : list string) (px : P) :
  posix_GetChildren d (posix_ e) = (st, listing, px) →
  fs_ e !! d = None →
  GetChildren d e
  = Some ((OK, listing ++ []), mkEnv px (<[d := []]> (fs_ e)) (files e)).
Proof.
  intros Hls Hnone. unfold GetChildren.
  unfold bind at 1, posix. rewrite Hls.
  unfold bind at 1, gets. cbn beta iota.
  change (fs_ (with_posix px e)) with (fs_ e). by rewrite Hnone.
Qed.

(** X16: the entry that GetChildren makes changes what a lookup does.  In
    a directory without an entry, a managed file whose meta file is in the
    default environment is not found, the default environment not being
    asked; once GetChildren was called for the directory, the same
    FileExists returns OK. *)
Theorem GetChildren_makes_meta_files_found
        (fpath : string) (e : env P F) (skipped rest : list string)
        (entry : string) (f : F) :
  nvm_managed (mk_info fpath) = true →
  fs_ e !! dpath (mk_info fpath) = None →
  posix_GetChildren (dpath (mk_info fpath)) (posix_ e)
  = (OK, skipped ++ entry :: rest, posix_ e) →
  no_meta (fname (mk_info fpath)) skipped →
  ends_with entry "meta" = true →
  String.prefix (fname (mk_info fpath)) entry = true →
  NvmFile_from_meta (mk_info fpath)
                    (dpath (mk_info fpath) +:+ sep +:+ entry) (posix_ e)
  = Some f →
  FileExists fpath e = Some (NotFound, e)
  ∧ ∃ r e1 e2,
      GetChildren (dpath (mk_info fpath)) e = Some (r, e1)
      ∧ FileExists fpath e1 = Some (OK, e2)
      ∧ files e2 = <[fresh (dom (files e)) := f]> (files e).
Proof.
  intros Hm Hnone Hls Hskip Hmeta Hpre Hf. split.
  - unfold FileExists. cbv zeta. rewrite Hm. simpl.
    unfold bind at 1. unfold FindFileUnguarded, bind, gets. cbn beta iota.
    by rewrite Hnone.
  - eexists _, _, _. split; [by apply (GetChildren_unlisted _ _ _ _ _ Hls)|].
    unfold FileExists. cbv zeta. rewrite Hm. simpl.
    unfold bind at 1.
    erewrite FindFileUnguarded_unloaded;
      [|simpl; by rewrite lookup_insert_eq|constructor].
    unfold bind at 1, posix. simpl. rewrite Hls. simpl.
    erewrite from_listing_found; [|done|done|done|done].
    simpl. done.
Qed.

Lemma FindFileUnguarded_fs (info : FPathInfo) (e e' : env P F)
      (r : option fptr) :
  FindFileUnguarded info e = Some (r, e') → fs_ e' = fs_ e.
Proof.
  unfold FindFileUnguarded. intros Hrun.
  apply bind_inv in Hrun as (fs & e1 & H1 & Hrun).
  unfold gets in H1. injection H1 as <- <-.
  destruct (fs_ e !! dpath info) as [vec|].
  - apply bind_inv in Hrun as (found & e1 & H1 & Hrun).
    destruct found as [p|].
    + apply find_named_spec in H1 as [-> _]. unfold ret in Hrun.
      by injection Hrun as <- <-.
    + apply find_named_None in H1 as [-> _].
      apply bind_inv in Hrun as (r' & e2 & H2 & Hrun).
      unfold posix in H2.
      destruct (posix_GetChildren (dpath info) (posix_ e)) as [[st l] px].
      injection H2 as <- <-. simpl in Hrun.
      destruct (ok st); simpl in Hrun.
      * apply from_listing_inv in Hrun. destruct r as [p|].
        -- by destruct Hrun as (entry & f & _ & _ & _ & _ & _ & ->).
        -- by subst e'.
      * unfold ret in Hrun. by injection Hrun as <- <-.
  - unfold ret in Hrun. by injection Hrun as <- <-.
Qed.

(** X17: for an NVM-managed path NewWritableFile returns OK or IOError.
    IOError is returned only when no file of that name was found and the
    constructor of the file threw; nothing is registered then.  With OK the
    file of the handle is live and is the last one of the vector of its
    directory, and no other directory is touched. *)
Theorem NewWritableFile_registers_or_IOError
        (fpath : string) (e e' : env P F) (st : Status)
        (res : option fptr) :
  nvm_managed (mk_info fpath) = true →
  NewWritableFile fpath e = Some ((st, res), e') →
  (st = IOError ∧ res = None
   ∧ FindFileUnguarded (mk_info fpath) e = Some (None, e')
   ∧ NvmFile_new (mk_info fpath) (posix_ e') = None)
  ∨ (st = OK
     ∧ ∃ p vec,
         res = Some p
         ∧ fs_ e' !! dpath (mk_info fpath) = Some (vec ++ [p])
         ∧ is_Some (files e' !! p)
         ∧ ∀ d, d ≠ dpath (mk_info fpath) → fs_ e' !! d = fs_ e !! d).
Proof.
  intros Hm Hrun. unfold NewWritableFile in Hrun. cbv zeta in Hrun.
  rewrite Hm in Hrun. simpl in Hrun.
  apply bind_inv in Hrun as (file & e1 & H1 & Hrun).
  apply bind_inv in Hrun as ([] & e2 & H2 & Hrun).
  apply bind_inv in Hrun as (file' & e3 & H3 & Hrun).
  pose proof (FindFileUnguarded_fs _ _ _ _ H1) as Hfs1.
  assert (Hfs2 : ∀ d, d ≠ dpath (mk_info fpath) →
                      fs_ e2 !! d = fs_ e !! d).
  { intros d Hd. rewrite <- Hfs1. destruct file as [p|].
    - apply bind_inv in H2 as (st' & e2' & H2 & Hret).
      unfold ret in Hret. injection Hret as <-.
      apply DeleteFileUnguarded_inv in H2
        as [(_ & -> & _)|(_ & l1 & q & l2 & fq & _ & _ & _ & _ & ->)];
        [done|].
      simpl. by rewrite lookup_insert_ne.
    - unfold ret in H2. by injection H2 as <-. }
  unfold try_new in H3.
  apply bind_inv in H3 as (px & e2' & Hpx & H3).
  unfold gets in Hpx. injection Hpx as <- <-.
  destruct (NvmFile_new (mk_info fpath) (posix_ e2)) as [f|] eqn:Hnew.
  - apply bind_inv in H3 as (p & e3' & Hp & H3).
    unfold alloc in Hp. injection Hp as <- <-.
    unfold ret in H3. injection H3 as <- <-.
    apply bind_inv in Hrun as ([] & e4 & H4 & Hrun).
    unfold push_back, modify in H4. injection H4 as <-.
    apply bind_inv in Hrun as ([] & e5 & H5 & Hrun).
    unfold ret in Hrun. injection Hrun as <- <- <-.
    unfold wrap_writable in H5.
    apply bind_inv in H5 as (f0 & e4' & H4 & H5).
    apply file_at_inv in H4 as [Hf0 ->].
    unfold modify in H5. injection H5 as <-.
    right. split; [done|]. eexists _, _. split; [done|]. simpl.
    split; [by rewrite lookup_insert_eq|].
    split; [rewrite lookup_insert_eq; eauto|].
    intros d Hd. rewrite lookup_insert_ne by done. by apply Hfs2.
  - unfold ret in H3. injection H3 as <- <-.
    destruct file as [p|].
    + apply bind_inv in Hrun as ([] & e4 & H4 & Hrun).
      unfold push_back, modify in H4. injection H4 as <-.
      apply bind_inv in Hrun as ([] & e5 & H5 & Hrun).
      unfold ret in Hrun. injection Hrun as <- <- <-.
      unfold wrap_writable in H5.
      apply bind_inv in H5 as (f0 & e4' & H4 & H5).
      apply file_at_inv in H4 as [Hf0 ->].
      unfold modify in H5. injection H5 as <-.
      right. split; [done|]. eexists _, _. split; [done|]. simpl.
      split; [by rewrite lookup_insert_eq|].
      split; [rewrite lookup_insert_eq; eauto|].
      intros d Hd. rewrite lookup_insert_ne by done. by apply Hfs2.
    + unfold ret in H2, Hrun. injection H2 as <-.
      injection Hrun as <- <- <-. left. by repeat split.
Qed.

(** X18: when a loaded file with the name is found and the constructor of
    the new file throws, [file] still points to the file that was just
    erased and unreferenced: NewWritableFile puts that file at the back of
    the vector again and returns OK with a handle on it, where Unref left
    the object; where Unref destroyed it, the constructor of the handle
    gets the destroyed object. *)
Theorem NewWritableFile_after_failed_constructor
        (fpath : string) (e : env P F) (l1 l2 : list fptr) (p : fptr)
        (f : F) :
  nvm_managed (mk_info fpath) = true →
  fs_ e !! dpath (mk_info fpath) = Some (l1 ++ p :: l2) →
  others (fname (mk_info fpath)) e l1 →
  files e !! p = Some f →
  IsNamed f (fname (mk_info fpath)) = true →
  NvmFile_new (mk_info fpath) (posix_ e) = None →
  NewWritableFile fpath e
  = match Unref f with
    | Some f' =>
      Some ((OK, Some p),
            mkEnv (posix_ e)
                  (<[dpath (mk_info fpath) := (l1 ++ l2) ++ [p]]> (fs_ e))
                  (<[p := NvmWritableFile_new f']> (files e)))
    | None => None
    end.
Proof.
  intros Hm Hvec Ho Hp Hn Hnew.
  pose proof (find_named_found _ _ _ _ _ l2 Ho Hp Hn) as Hfind.
  unfold NewWritableFile. cbv zeta. rewrite Hm. simpl.
  unfold bind at 1. rewrite (FindFileUnguarded_loaded _ _ _ _ Hvec Hfind).
  unfold bind at 1. unfold bind at 1.
  rewrite (DeleteFileUnguarded_loaded _ _ _ _ _ _ Hvec Ho Hp Hn).
  unfold ret at 1. unfold bind at 1.
  unfold try_new, bind at 1, gets. cbn beta iota. cbn [posix_].
  rewrite Hnew. unfold ret at 1.
  unfold bind at 1, push_back, modify. simpl.
  rewrite lookup_insert_eq, insert_insert_eq. simpl.
  unfold bind at 1, wrap_writable, bind at 1, file_at, unreferenced. simpl.
  destruct (Unref f) as [f'|].
  - rewrite lookup_insert_eq. simpl. unfold modify, ret, with_files. simpl.
    by rewrite insert_insert_eq.
  - by rewrite lookup_delete_eq.
Qed.

(** X19: a file that NewWritableFile creates where the lookup found none is
    there afterwards: with a constructor that succeeds and a handle that
    leaves the name alone, NewWritableFile returns OK, the new object is
    at an address not in use and the last one of its directory; FileExists
    then returns OK and changes nothing, and DeleteFile returns OK and
    leaves the vector of the directory as it was before the file was
    created. *)
Theorem NewWritableFile_then_FileExists_and_DeleteFile
        (fpath : string) (e e1 : env P F) (f : F) :
  nvm_managed (mk_info fpath) = true →
  FindFileUnguarded (mk_info fpath) e = Some (None, e1) →
  NvmFile_new (mk_info fpath) (posix_ e1) = Some f →
  IsNamed (NvmWritableFile_new f) (fname (mk_info fpath)) = true →
  ∃ e2 e3,
    NewWritableFile fpath e = Some ((OK, Some (fresh (dom (files e)))), e2)
    ∧ files e !! fresh (dom (files e)) = None
    ∧ fs_ e2
      = <[dpath (mk_info fpath)
          := default [] (fs_ e !! dpath (mk_info fpath))
             ++ [fresh (dom (files e))]]> (fs_ e)
    ∧ files e2
      = <[fresh (dom (files e)) := NvmWritableFile_new f]> (files e)
    ∧ FileExists fpath e2 = Some (OK, e2)
    ∧ DeleteFile fpath e2 = Some (OK, e3)
    ∧ fs_ e3
      = <[dpath (mk_info fpath)
          := default [] (fs_ e !! dpath (mk_info fpath))]> (fs_ e)
    ∧ files e3
      = unreferenced (fresh (dom (files e))) (NvmWritableFile_new f)
                     (files e2).
Proof.
  intros Hm Hfind Hnew Hn.
  destruct (FindFileUnguarded_None_inv _ _ _ Hfind) as (Hfs & Hfiles & Ho).
  set (p := fresh (dom (files e))).
  set (d := dpath (mk_info fpath)) in *.
  set (vec := default [] (fs_ e !! d)).
  assert (Hfresh : files e !! p = None).
  { apply not_elem_of_dom. apply is_fresh. }
  assert (Hvec : others (fname (mk_info fpath)) e vec).
  { subst vec. destruct (fs_ e !! d) as [v|]; simpl; [by apply Ho|].
    constructor. }
  set (e2 := mkEnv (posix_ e1) (<[d := vec ++ [p]]> (fs_ e))
                   (<[p := NvmWritableFile_new f]> (files e))).
  assert (Hrun : NewWritableFile fpath e = Some ((OK, Some p), e2)).
  { unfold NewWritableFile. cbv zeta. rewrite Hm. simpl.
    unfold bind at 1. rewrite Hfind.
    unfold bind at 1, ret at 1.
    unfold bind at 1, try_new, bind at 1, gets. cbn beta iota.
    rewrite Hnew. unfold bind at 1, alloc. rewrite Hfiles. fold p.
    unfold ret at 1.
    unfold bind at 1, push_back, modify. simpl. rewrite Hfs. fold d vec.
    unfold bind at 1, wrap_writable, bind at 1, file_at. simpl.
    rewrite lookup_insert_eq. simpl. unfold modify, ret, with_files. simpl.
    by rewrite insert_insert_eq. }
  assert (Hvec2 : others (fname (mk_info fpath)) e2 vec).
  { eapply (others_ext _ e); [|done]. intros q Hq. simpl.
    rewrite lookup_insert_ne; [done|]. intros <-.
    destruct (others_live _ _ _ _ Hvec Hq) as [x Hx]. congruence. }
  assert (Hd2 : fs_ e2 !! d = Some (vec ++ [p])).
  { simpl. by rewrite lookup_insert_eq. }
  assert (Hp2 : files e2 !! p = Some (NvmWritableFile_new f)).
  { simpl. by rewrite lookup_insert_eq. }
  eexists e2, _. split; [exact Hrun|]. split; [done|].
  split; [done|]. split; [done|]. split; [|split; [|split]].
  - unfold FileExists. cbv zeta. rewrite Hm. simpl. unfold bind.
    erewrite FindFileUnguarded_loaded; [done|exact Hd2|].
    by apply (find_named_found _ _ _ _ _ [] Hvec2 Hp2).
  - unfold DeleteFile. cbv zeta. rewrite Hm. simpl.
    apply (DeleteFileUnguarded_loaded _ _ _ [] _ _ Hd2 Hvec2 Hp2 Hn).
  - simpl. by rewrite insert_insert_eq, app_nil_r.
  - done.
Qed.

End Creation.

Lemma DeleteFile_managed_erases_first_named_witness :
  (fs_ sample_env !! dpath (mk_info "/db/000003.sst") = None →
   DeleteFile "/db/000003.sst" sample_env = Some (NotFound, sample_env))
  ∧ (∀ vec, fs_ sample_env !! dpath (mk_info "/db/000003.sst") = Some vec →
            Forall (λ q, is_Some (files sample_env !! q)) vec →
            is_Some (DeleteFile "/db/000003.sst" sample_env))
  ∧ ∀ st e',
      DeleteFile "/db/000003.sst" sample_env = Some (st, e') →
      posix_ e' = posix_ sample_env
      ∧ (∀ d, d ≠ dpath (mk_info "/db/000003.sst") →
              fs_ e' !! d = fs_ sample_env !! d)
      ∧ ((st = NotFound ∧ e' = sample_env
          ∧ ∀ vec, fs_ sample_env !! dpath (mk_info "/db/000003.sst")
                   = Some vec →
                   others (fname (mk_info "/db/000003.sst")) sample_env vec)
         ∨ (st = OK
            ∧ ∃ l1 p l2 f,
                fs_ sample_env !! dpath (mk_info "/db/000003.sst")
                = Some (l1 ++ p :: l2)
                ∧ others (fname (mk_info "/db/000003.sst")) sample_env l1
                ∧ files sample_env !! p = Some f
                ∧ IsNamed f (fname (mk_info "/db/000003.sst")) = true
                ∧ fs_ e'
                  = <[dpath (mk_info "/db/000003.sst") := l1 ++ l2]>
                      (fs_ sample_env)
                ∧ files e' = unreferenced p f (files sample_env))).
Proof.
  apply (DeleteFile_managed_erases_first_named "/db/000003.sst" sample_env).
  reflexivity.
Defined.

Example sample_delete_on_device :
  DeleteFile "/db/000003.sst" sample_env
  = Some (OK, mkEnv ["/db/000001.log"; "/db/LOG"] {["/db" := [1]]}
                    (list_to_map [(1, mkObj "000002.sst" 1)]))
  ∧ DeleteFile "/db/000009.sst" sample_env = Some (NotFound, sample_env)
  ∧ DeleteFile "/other/000003.sst" sample_env = Some (NotFound, sample_env).
Proof. repeat split; by vm_compute. Qed.


Lemma RenameFile_onto_itself_witness :
  RenameFile "/db/000002.sst" "/db/000002.sst" sample_env = None
  ∧ RenameFile "/db/000002.sst" "/db/000002.sst" full_env
    = Some (OK, mkEnv (posix_ full_env) {["/db" := [2]]}
                      (<[1 := mkObj "000002.sst" 1]> (files full_env))).
Proof.
  split.
  - etrans.
    + apply (RenameFile_onto_itself "/db/000002.sst" sample_env [] [2] 1
                                    (mkObj "000002.sst" 1));
        try reflexivity.
      apply Forall_nil_2.
    + reflexivity.
  - etrans.
    + apply (RenameFile_onto_itself "/db/000002.sst" full_env [] [2] 1
                                    (mkObj "000002.sst" 2));
        try reflexivity.
      apply Forall_nil_2.
    + vm_compute. reflexivity.
Defined.

Lemma DeleteFile_then_FileExists_witness :
  ∃ e1,
    DeleteFile "/db/000003.sst" sample_env = Some (OK, e1)
    ∧ fs_ e1 !! dpath (mk_info "/db/000003.sst") = Some ([1] ++ [])
    ∧ files e1
      = unreferenced 2 (mkObj "000003.sst" 1) (files sample_env)
    ∧ FileExists "/db/000003.sst" e1
      = Some (NotFound, with_posix (posix_ sample_env) e1).
Proof.
  apply (DeleteFile_then_FileExists
           "/db/000003.sst" sample_env [1] [] 2 (mkObj "000003.sst" 1)
           OK ["000001.log"; "LOG"] (posix_ sample_env));
    try reflexivity.
  - apply Forall_cons. split; [|apply Forall_nil_2].
    exists (mkObj "000002.sst" 1). split; reflexivity.
  - apply Forall_nil_2.
  - right. repeat (apply Forall_cons; split; [left; reflexivity|]).
    apply Forall_nil_2.
Defined.

Lemma FileExists_from_meta_allocates_again_witness :
  ∃ p1 p2 e1 e2,
    FileExists "/db/000005.sst" meta_env = Some (OK, e1)
    ∧ FileExists "/db/000005.sst" e1 = Some (OK, e2)
    ∧ p1 ≠ p2
    ∧ files meta_env !! p1 = None
    ∧ files meta_env !! p2 = None
    ∧ files e2
      = <[p2 := mkObj "000005.sst" 1]>
          (<[p1 := mkObj "000005.sst" 1]> (files meta_env))
    ∧ fs_ e2 = fs_ meta_env
    ∧ posix_ e2 = posix_ meta_env.
Proof.
  apply (FileExists_from_meta_allocates_again
           "/db/000005.sst" meta_env [] [] ["LOG"] "000005.sst.meta"
           (mkObj "000005.sst" 1));
    try reflexivity; apply Forall_nil_2.
Defined.

Lemma GetChildren_merges_listing_and_loaded_witness :
  ∃ names,
    GetChildren "/db" sample_env
    = Some ((OK, ["000001.log"; "LOG"] ++ names),
            mkEnv (posix_ sample_env)
                  (<["/db" := default [] (fs_ sample_env !! "/db")]>
                     (fs_ sample_env))
                  (files sample_env))
    ∧ Forall2 (λ q n, GetFname <$> files sample_env !! q = Some n)
              (default [] (fs_ sample_env !! "/db")) names.
Proof.
  apply (GetChildren_merges_listing_and_loaded
           "/db" sample_env OK ["000001.log"; "LOG"] (posix_ sample_env)).
  - reflexivity.
  - apply (bool_decide_unpack _). vm_compute. exact I.
Defined.

Lemma GetChildren_makes_meta_files_found_witness :
  FileExists "/db/000005.sst" unlisted_env = Some (NotFound, unlisted_env)
  ∧ ∃ r e1 e2,
      GetChildren (dpath (mk_info "/db/000005.sst")) unlisted_env
      = Some (r, e1)
      ∧ FileExists "/db/000005.sst" e1 = Some (OK, e2)
      ∧ files e2
        = <[fresh (dom (files unlisted_env)) := mkObj "000005.sst" 1]>
            (files unlisted_env).
Proof.
  apply (GetChildren_makes_meta_files_found
           "/db/000005.sst" unlisted_env [] ["LOG"] "000005.sst.meta"
           (mkObj "000005.sst" 1));
    try reflexivity.
  apply Forall_nil_2.
Defined.

Lemma NewWritableFile_registers_or_IOError_witness :
  (OK = IOError ∧ Some 3 = @None fptr
   ∧ FindFileUnguarded (mk_info "/db/000007.sst") sample_env
     = Some (None, created_env)
   ∧ NvmFile_new (mk_info "/db/000007.sst") (posix_ created_env) = None)
  ∨ (OK = OK
     ∧ ∃ p vec,
         Some 3 = Some p
         ∧ fs_ created_env !! dpath (mk_info "/db/000007.sst")
           = Some (vec ++ [p])
         ∧ is_Some (files created_env !! p)
         ∧ ∀ d, d ≠ dpath (mk_info "/db/000007.sst") →
                fs_ created_env !! d = fs_ sample_env !! d).
Proof.
  apply (NewWritableFile_registers_or_IOError
           "/db/000007.sst" sample_env created_env OK (Some 3)).
  - reflexivity.
  - vm_compute. reflexivity.
Defined.

Lemma NewWritableFile_after_failed_constructor_witness :
  NewWritableFile "/db/000002.sst" full_env
  = Some ((OK, Some 1),
          mkEnv (posix_ full_env) {["/db" := [2; 1]]}
                (<[1 := mkObj "000002.sst" 2]> (files full_env)))
  ∧ NewWritableFile "/db/000003.sst" full_env = None.
Proof.
  split.
  - etrans.
    + apply (NewWritableFile_after_failed_constructor
               "/db/000002.sst" full_env [] [2] 1 (mkObj "000002.sst" 2));
        try reflexivity.
      apply Forall_nil_2.
    + vm_compute. reflexivity.
  - etrans.
    + apply (NewWritableFile_after_failed_constructor
               "/db/000003.sst" full_env [1] [] 2 (mkObj "000003.sst" 1));
        try reflexivity.
      apply Forall_cons. split; [|apply Forall_nil_2].
      exists (mkObj "000002.sst" 2). split; reflexivity.
    + reflexivity.
Defined.

Lemma NewWritableFile_then_FileExists_and_DeleteFile_witness :
  ∃ e2 e3,
    NewWritableFile "/db/000007.sst" sample_env
    = Some ((OK, Some (fresh (dom (files sample_env)))), e2)
    ∧ files sample_env !! fresh (dom (files sample_env)) = None
    ∧ fs_ e2
      = <[dpath (mk_info "/db/000007.sst")
          := default [] (fs_ sample_env !! dpath (mk_info "/db/000007.sst"))
             ++ [fresh (dom (files sample_env))]]> (fs_ sample_env)
    ∧ files e2
      = <[fresh (dom (files sample_env))
          := NvmWritableFile_new (mkObj "000007.sst" 1)]> (files sample_env)
    ∧ FileExists "/db/000007.sst" e2 = Some (OK, e2)
    ∧ DeleteFile "/db/000007.sst" e2 = Some (OK, e3)
    ∧ fs_ e3
      = <[dpath (mk_info "/db/000007.sst")
          := default [] (fs_ sample_env
                         !! dpath (mk_info "/db/000007.sst"))]>
          (fs_ sample_env)
    ∧ files e3
      = unreferenced (fresh (dom (files sample_env)))
                     (NvmWritableFile_new (mkObj "000007.sst" 1))
                     (files e2).
Proof.
  apply (NewWritableFile_then_FileExists_and_DeleteFile
           "/db/000007.sst" sample_env sample_env (mkObj "000007.sst" 1));
    reflexivity.
Defined.

Example sample_uris :
  dev_name_ <$> EnvNVM_new (F := file_obj) ["/db/LOG"] "nvm://nvme0n1"
  = Some "nvme0n1"
  ∧ EnvNVM_new (F := file_obj) ["/db/LOG"] "file://nvm://nvme0n1" = None
  ∧ EnvNVM_new (F := file_obj) ["/db/LOG"] "nvm:/" = None
  ∧ dev_name_ <$> EnvNVM_new (F := file_obj) ["/db/LOG"] "nvm://" = Some "".
Proof. repeat split; reflexivity. Qed.

End EnvNVMFacts.
